(** * Congressional bill analyzer: text processing, index and scorer

    A shallow embedding of the retrieval core of the analyzer
    ([src/text_processor.py], [src/qa_system.py], [src/ai_analyzer.py]).

    Python text is modelled by Rocq strings read as sequences of code
    points below 256; the character classes below are Python's own
    classes restricted to that range.  Python exceptions are an explicit
    result type. *)

From Stdlib Require Import ZArith QArith Strings.String Strings.Ascii.
From stdpp Require Import gmap strings list fin_maps.


(** ** Exceptions *)

Inductive exn : Type :=
| ValueError
| TypeError
| KeyError (key : string)
| StoreError
| ProviderError.

Inductive result (A : Type) : Type :=
| Ok (a : A)
| Raise (e : exn).

Arguments Ok {A} a.
Arguments Raise {A} e.

Definition bind {A B : Type} (r : result A) (k : A -> result B) : result B :=
  match r with
  | Ok a => k a
  | Raise e => Raise e
  end.

Notation "'try' x <- r 'in' k" := (bind r (fun x => k))
  (at level 10, x name, r at level 100, k at level 200).

(** ** Characters and strings *)

Module Text.

Definition code (c : ascii) : N := N_of_ascii c.

(** [str.isspace] and the regular-expression class [\s]. *)
Definition isspace (c : ascii) : bool :=
  let n := code c in
  ((9 <=? n) && (n <=? 13) || (28 <=? n) && (n <=? 32)
   || (n =? 133) || (n =? 160))%N.

(** The class [\d]: decimal digits. *)
Definition isdigit (c : ascii) : bool :=
  let n := code c in ((48 <=? n) && (n <=? 57))%N.

Definition isupper (c : ascii) : bool :=
  let n := code c in ((65 <=? n) && (n <=? 90))%N.

Definition islower (c : ascii) : bool :=
  let n := code c in ((97 <=? n) && (n <=? 122))%N.

(** The class [\w]: alphanumeric characters and the underscore. *)
Definition isword (c : ascii) : bool :=
  let n := code c in
  (isdigit c || isupper c || islower c || (n =? 95)
   || (n =? 170) || (n =? 178) || (n =? 179) || (n =? 181)
   || (n =? 185) || (n =? 186) || (188 <=? n) && (n <=? 190)
   || (192 <=? n) && (n <=? 214) || (216 <=? n) && (n <=? 246)
   || (248 <=? n))%N.

(** Case folding as [re.IGNORECASE] applies it to the letters of the
    patterns used here: only the two ASCII cases of a letter match it. *)
Definition lower (c : ascii) : ascii :=
  if isupper c then ascii_of_N (code c + 32) else c.

Definition eq_char (a b : ascii) : bool := (code a =? code b)%N.

Definition eq_nocase (a b : ascii) : bool := eq_char (lower a) (lower b).

Definition is_empty (s : string) : bool :=
  match s with
  | EmptyString => true
  | String _ _ => false
  end.

Definition len {A : Type} (l : list A) : Z := Z.of_nat (length l).

Definition slen (s : string) : Z := Z.of_nat (String.length s).

(** [sep.join(parts)] *)
Fixpoint join (sep : string) (parts : list string) : string :=
  match parts with
  | [] => ""
  | [p] => p
  | p :: rest => p +:+ sep +:+ join sep rest
  end.

(** [s.split()]: the maximal runs of non-whitespace characters.  [w] is
    the word being read. *)
Definition flush (w : string) : list string :=
  if is_empty w then [] else [w].

Fixpoint split_from (w : string) (s : string) : list string :=
  match s with
  | EmptyString => flush w
  | String c s' =>
      if isspace c then flush w ++ split_from "" s'
      else split_from (w +:+ String c "") s'
  end.

Definition split (s : string) : list string := split_from "" s.

(** [s.lstrip()], [s.rstrip()], [s.strip()] *)
Fixpoint lstrip (s : string) : string :=
  match s with
  | EmptyString => ""
  | String c s' => if isspace c then lstrip s' else s
  end.

Fixpoint rstrip (s : string) : string :=
  match s with
  | EmptyString => ""
  | String c s' =>
      let r := rstrip s' in
      if is_empty r && isspace c then "" else String c r
  end.

Definition strip (s : string) : string := rstrip (lstrip s).

(** [s.strip(chars)] *)
Fixpoint mem_char (c : ascii) (chars : string) : bool :=
  match chars with
  | EmptyString => false
  | String d chars' => eq_char c d || mem_char c chars'
  end.

Fixpoint lstrip_chars (chars : string) (s : string) : string :=
  match s with
  | EmptyString => ""
  | String c s' => if mem_char c chars then lstrip_chars chars s' else s
  end.

Fixpoint rstrip_chars (chars : string) (s : string) : string :=
  match s with
  | EmptyString => ""
  | String c s' =>
      let r := rstrip_chars chars s' in
      if is_empty r && mem_char c chars then "" else String c r
  end.

Definition strip_chars (chars : string) (s : string) : string :=
  rstrip_chars chars (lstrip_chars chars s).

(** Slices [l[i:j]] of lists and strings, with Python's treatment of
    negative and out-of-range bounds. *)
Definition clamp_index (n i : Z) : Z :=
  if (i <? 0)%Z then Z.max 0 (i + n) else Z.min i n.

Definition slice {A : Type} (l : list A) (i j : Z) : list A :=
  let n := len l in
  let a := clamp_index n i in
  let b := clamp_index n j in
  take (Z.to_nat (b - a)) (drop (Z.to_nat a) l).

Fixpoint stake (n : nat) (s : string) : string :=
  match n, s with
  | S n', String c s' => String c (stake n' s')
  | _, _ => ""
  end.

Fixpoint sdrop (n : nat) (s : string) : string :=
  match n, s with
  | S n', String _ s' => sdrop n' s'
  | _, _ => s
  end.

(** [range(start, stop, step)]; a zero step raises [ValueError]. *)
Definition py_range (start stop step : Z) : result (list Z) :=
  if (step =? 0)%Z then Raise ValueError
  else
    let count :=
      if (0 <? step)%Z then ((stop - start + step - 1) / step)%Z
      else ((start - stop - step - 1) / (- step))%Z in
    Ok (map (fun k => (start + Z.of_nat k * step)%Z) (seq 0 (Z.to_nat count))).

(** [str(n)] for a natural number. *)
Definition digit_char (d : nat) : ascii := ascii_of_nat (48 + d).

Fixpoint digits_fuel (fuel n : nat) (acc : string) : string :=
  match fuel with
  | O => acc
  | S fuel' =>
      let acc' := String (digit_char (n mod 10)) acc in
      if (n <? 10)%nat then acc' else digits_fuel fuel' (n / 10) acc'
  end.

Definition str_of_nat (n : nat) : string := digits_fuel (S n) n "".

(** Substring test, [needle in s]. *)
Fixpoint prefix (p s : string) : bool :=
  match p, s with
  | EmptyString, _ => true
  | String a p', String b s' => eq_char a b && prefix p' s'
  | String _ _, EmptyString => false
  end.

Fixpoint contains (needle s : string) : bool :=
  prefix needle s ||
  match s with
  | EmptyString => false
  | String _ s' => contains needle s'
  end.

End Text.

Import Text.

(** ** Text chunker ([TextProcessor.chunk_text]) *)

Definition chunk_text (text : string) (chunk_size : Z) : result (list string) :=
  let words := split text in
  try idx <- py_range 0 (len words) chunk_size in
  Ok (map (fun i =>
             let e := Z.min (i + chunk_size) (len words) in
             join " " (slice words i e)) idx).

(** ** Pattern matching helpers

    The regular expressions of the source are translated one by one into
    matchers on the text that remains to be read.  A matcher returns the
    text after the match, or [None]. *)

Module Re.

(** A literal, case-sensitive. *)
Fixpoint lit (p s : string) : option string :=
  match p, s with
  | EmptyString, _ => Some s
  | String a p', String b s' => if eq_char a b then lit p' s' else None
  | String _ _, EmptyString => None
  end.

(** A literal under [re.IGNORECASE]. *)
Fixpoint lit_nocase (p s : string) : option string :=
  match p, s with
  | EmptyString, _ => Some s
  | String a p', String b s' => if eq_nocase a b then lit_nocase p' s' else None
  | String _ _, EmptyString => None
  end.

(** The longest prefix made of characters of a class (a greedy [c*]),
    and the text after it. *)
Fixpoint run (cls : ascii -> bool) (s : string) : string :=
  match s with
  | EmptyString => ""
  | String c s' => if cls c then String c (run cls s') else ""
  end.

Fixpoint skip (cls : ascii -> bool) (s : string) : string :=
  match s with
  | EmptyString => ""
  | String c s' => if cls c then skip cls s' else s
  end.

(** The text matched, given the text before and after the match. *)
Definition matched (s rest : string) : string :=
  stake (String.length s - String.length rest) s.

(** [$] without [re.MULTILINE]: the end of the text, or just before a
    final newline. *)
Definition nl : string := String (ascii_of_nat 10) "".

Definition at_end (s : string) : bool :=
  is_empty s || String.eqb s nl.

Definition starts (p s : string) : bool :=
  match lit p s with Some _ => true | None => false end.

Definition starts_nocase (p s : string) : bool :=
  match lit_nocase p s with Some _ => true | None => false end.

(** A lazy [(.+?)] under [re.DOTALL] followed by a terminator: at least
    one character, then as few as possible until [term] holds. *)
Fixpoint lazy_plus (term : string -> bool) (s : string) : string :=
  match s with
  | EmptyString => ""
  | String c s' => String c (if term s' then "" else lazy_plus term s')
  end.

Fixpoint last_char (s : string) : option ascii :=
  match s with
  | EmptyString => None
  | String c s' =>
      match last_char s' with
      | Some d => Some d
      | None => Some c
      end
  end.

(** [\s*(.+?)(?:term)] at the start of [s], where [term] holds of the
    empty text.  The greedy [\s*] takes all the white space; when nothing
    is left for the group it gives one character back. *)
Definition ws_then_lazy (term : string -> bool) (s : string) : option string :=
  match skip isspace s with
  | String c r => Some (lazy_plus term (String c r))
  | EmptyString =>
      match last_char s with
      | Some c => Some (String c "")
      | None => None
      end
  end.

(** [re.search] of [label\s*(.+?)(?:term)] under [re.IGNORECASE]:
    the group of the leftmost match. *)
Fixpoint search_labeled_text (label : string) (term : string -> bool)
    (s : string) : option string :=
  let here :=
    match lit_nocase label s with
    | Some rest => ws_then_lazy term rest
    | None => None
    end in
  match here with
  | Some g => Some g
  | None =>
      match s with
      | EmptyString => None
      | String _ s' => search_labeled_text label term s'
      end
  end.

(** The number [[+-]?\d+(?:\.\d+)?] (or [\d+(?:\.\d+)?] when [signed] is
    false) at the start of [s]: the text of the group. *)
Definition is_sign (c : ascii) : bool :=
  eq_char c "+"%char || eq_char c "-"%char.

Definition unsigned_number (s : string) : option string :=
  let ds := run isdigit s in
  if is_empty ds then None
  else
    match skip isdigit s with
    | String c r =>
        if eq_char c "."%char && negb (is_empty (run isdigit r))
        then Some (ds +:+ "." +:+ run isdigit r)
        else Some ds
    | EmptyString => Some ds
    end.

Definition number (signed : bool) (s : string) : option string :=
  match s with
  | String c r =>
      if signed && is_sign c then
        match unsigned_number r with
        | Some g => Some (String c g)
        | None => None
        end
      else unsigned_number s
  | EmptyString => None
  end.

(** [re.search] of [label\s*(number)] under [re.IGNORECASE]. *)
Fixpoint search_labeled_number (label : string) (signed : bool)
    (s : string) : option string :=
  let here :=
    match lit_nocase label s with
    | Some rest => number signed (skip isspace rest)
    | None => None
    end in
  match here with
  | Some g => Some g
  | None =>
      match s with
      | EmptyString => None
      | String _ s' => search_labeled_number label signed s'
      end
  end.

(** [re.findall] of a quoted group, the pattern being a double quote, a
    group of one or more characters other than the double quote, and a
    double quote.  [skipn] counts the characters of the last match still
    to be passed. *)
Definition dquote : ascii := ascii_of_nat 34.

Definition not_dquote (c : ascii) : bool := negb (eq_char c dquote).

Fixpoint findall_quoted (skipn : nat) (s : string) : list string :=
  match s with
  | EmptyString => []
  | String c s' =>
      match skipn with
      | S k => findall_quoted k s'
      | O =>
          if eq_char c dquote then
            let g := run not_dquote s' in
            if is_empty g then findall_quoted 0 s'
            else
              match skip not_dquote s' with
              | String _ _ => g :: findall_quoted (S (String.length g)) s'
              | EmptyString => findall_quoted 0 s'
              end
          else findall_quoted 0 s'
      end
  end.

(** [re.findall] of [(c+)] for a character class: its maximal runs.
    [cur] is the run being read. *)
Fixpoint findall_runs (cls : ascii -> bool) (cur : string) (s : string)
    : list string :=
  match s with
  | EmptyString => flush cur
  | String c s' =>
      if cls c then findall_runs cls (cur +:+ String c "") s'
      else flush cur ++ findall_runs cls "" s'
  end.

(** [re.split] on a class of single characters. *)
Fixpoint split_on (cls : ascii -> bool) (cur : string) (s : string)
    : list string :=
  match s with
  | EmptyString => [cur]
  | String c s' =>
      if cls c then cur :: split_on cls "" s'
      else split_on cls (cur +:+ String c "") s'
  end.

End Re.

Import Re.

(** ** Section extractor ([TextProcessor.extract_sections]) *)

Record section : Type := Section_ { header : string; content : string }.

(** The marker [Section\s+\d+\.|\(\w\)\s+] at the start of [s]. *)
Definition match_section_marker (s : string) : option string :=
  match lit "Section" s with
  | Some r1 =>
      if is_empty (run isspace r1) then None
      else
        let r2 := skip isspace r1 in
        if is_empty (run isdigit r2) then None
        else lit "." (skip isdigit r2)
  | None => None
  end.

Definition match_item_marker (s : string) : option string :=
  match s with
  | String a (String c (String b r)) =>
      if eq_char a "("%char && isword c && eq_char b ")"%char
         && negb (is_empty (run isspace r))
      then Some (skip isspace r)
      else None
  | _ => None
  end.

Definition match_marker (s : string) : option string :=
  match match_section_marker s with
  | Some r => Some r
  | None => match_item_marker s
  end.

(** [re.split(r'(marker)', text)]: the text between the markers and, the
    pattern being one group, the markers themselves. *)
Fixpoint split_markers (skipn : nat) (cur : string) (s : string)
    : list string :=
  match s with
  | EmptyString => [cur]
  | String c s' =>
      match skipn with
      | S k => split_markers k cur s'
      | O =>
          match match_marker s with
          | Some rest =>
              let m := matched s rest in
              cur :: m :: split_markers (String.length m - 1) "" s'
          | None => split_markers 0 (cur +:+ String c "") s'
          end
      end
  end.

Definition is_marker (part : string) : bool :=
  match match_marker part with Some _ => true | None => false end.

Definition close_section (sections : list section) (cur : section)
    : list section :=
  if is_empty (strip (content cur)) then sections else sections ++ [cur].

Definition section_step (st : list section * section) (part : string)
    : list section * section :=
  let (sections, cur) := st in
  if is_marker part then
    (close_section sections cur, {| header := strip part; content := "" |})
  else
    (sections, {| header := header cur; content := content cur +:+ part |}).

Definition extract_sections (text : string) : list section :=
  let parts := split_markers 0 "" text in
  let (sections, cur) :=
    foldl section_step ([], {| header := ""; content := "" |}) parts in
  close_section sections cur.

(** ** Floating-point numbers

    A Python [float] is a binary64 number: a rational (kept in lowest
    terms), an infinity or a NaN.  The sign of zero is not kept. *)

Module Float.

Inductive pyfloat : Type :=
| Fin (q : Q)
| Inf (negative : bool)
| NaN.

Definition is_finite (x : pyfloat) : bool :=
  match x with
  | Fin _ => true
  | _ => false
  end.

Definition float_leb (x y : pyfloat) : bool :=
  match x, y with
  | NaN, _ | _, NaN => false
  | Inf true, _ => true
  | _, Inf false => true
  | Inf false, _ => false
  | _, Inf true => false
  | Fin a, Fin b => Qle_bool a b
  end.

Definition float_neg (x : pyfloat) : pyfloat :=
  match x with
  | Fin q => Fin (Qred (- q))
  | Inf b => Inf (negb b)
  | NaN => NaN
  end.

(** Rounding of [a / b] to the nearest integer, ties to even
    ([0 <= a], [0 < b]). *)
Definition round_half_even (a b : Z) : Z :=
  let k := (a / b)%Z in
  let r := (a mod b)%Z in
  if (2 * r <? b)%Z then k
  else if (b <? 2 * r)%Z then (k + 1)%Z
  else if Z.even k then k else (k + 1)%Z.

(** [floor (log2 (n / d))] for positive [n] and [d]. *)
Definition floor_log2 (n d : Z) : Z :=
  let e0 := (Z.log2 n - Z.log2 d)%Z in
  if (d * 2 ^ Z.max 0 e0 <=? n * 2 ^ Z.max 0 (- e0))%Z then e0
  else (e0 - 1)%Z.

(** The numbers at or above [2^1024 - 2^970], half-way between the
    largest binary64 number and [2^1024], round to infinity. *)
Definition overflow_threshold : Z := (2 ^ 1024 - 2 ^ 970)%Z.

(** The binary64 number nearest to [n / d] ([0 <= n], [0 < d]): 53
    significant bits, the exponent not below that of the subnormals. *)
Definition binary64 (n d : Z) : pyfloat :=
  if (n =? 0)%Z then Fin 0
  else if (overflow_threshold * d <=? n)%Z then Inf false
  else
    let e := floor_log2 n d in
    let x := (Z.max e (-1022) - 52)%Z in
    let m := round_half_even (n * 2 ^ Z.max 0 (- x)) (d * 2 ^ Z.max 0 x) in
    Fin (Qred (Qmake (m * 2 ^ Z.max 0 x) (Z.to_pos (2 ^ Z.max 0 (- x))))).

Fixpoint digits_value (acc : Z) (s : string) : Z :=
  match s with
  | EmptyString => acc
  | String c s' => digits_value (10 * acc + (Z.of_N (code c) - 48))%Z s'
  end.

(** [float(g)] on decimal numerals [digits] and [digits.digits]; any
    other text is [ValueError] here (the patterns capture no other). *)
Definition float_of_unsigned (g : string) : result pyfloat :=
  let ip := Re.run isdigit g in
  if is_empty ip then Raise ValueError
  else
    match Re.skip isdigit g with
    | EmptyString => Ok (binary64 (digits_value 0 ip) 1)
    | String c fp =>
        if eq_char c "."%char && negb (is_empty fp)
           && is_empty (Re.skip isdigit fp)
        then Ok (binary64 (digits_value 0 (ip +:+ fp))
                          (10 ^ Z.of_nat (String.length fp)))
        else Raise ValueError
    end.

Definition py_float (g : string) : result pyfloat :=
  match g with
  | String c r =>
      if eq_char c "-"%char then
        try x <- float_of_unsigned r in Ok (float_neg x)
      else if eq_char c "+"%char then float_of_unsigned r
      else float_of_unsigned g
  | EmptyString => Raise ValueError
  end.

End Float.

Import Float.

(** ** Python values held in metadata dictionaries *)

#[local] Unset Elimination Schemes.

Inductive pyvalue : Type :=
| PStr (s : string)
| PInt (n : Z)
| PFloat (x : pyfloat)
| PBool (b : bool)
| PNone
| PList (items : list pyvalue)
| PDict (items : list (pyvalue * pyvalue))
| PObject (name : string).

#[local] Set Elimination Schemes.

(** ** The vector store

    The store is an external collaborator: a collection of entries, each
    an id, a document and a metadata dictionary.  Its [add] refuses an
    empty batch and a metadata value that is [None], keeps strings,
    floats, booleans and the integers of the signed 64-bit range as they
    are given, and embeds the documents through the embedding provider,
    which can fail.  The versions of the store differ in what [add] does
    with an id that the collection already holds; the three behaviours
    are the three policies.  Its [query] refuses a number of results that
    is zero and embeds the question through the same provider. *)

Record entry : Type := Entry {
  e_id : string;
  e_doc : string;
  e_meta : gmap string pyvalue
}.

Inductive add_policy : Type :=
| KeepBoth      (* the new entry is added beside the old one *)
| RejectCall    (* the call raises and adds nothing *)
| SkipExisting. (* the new entry is dropped, the old one kept *)

Definition has_id (c : list entry) (i : string) : bool :=
  existsb (fun e => String.eqb (e_id e) i) c.

Definition zip3 (ids docs : list string) (metas : list (gmap string pyvalue))
    : list entry :=
  zip_with (fun p m => Entry (fst p) (snd p) m) (zip ids docs) metas.

Definition in_int64 (n : Z) : bool :=
  ((- 2 ^ 63 <=? n) && (n <? 2 ^ 63))%Z.

Definition failure {A : Type} (r : result A) : option exn :=
  match r with
  | Raise e => Some e
  | Ok _ => None
  end.

Definition returned {A : Type} (r : result A) : option A :=
  match r with
  | Ok a => Some a
  | Raise _ => None
  end.

Section Store.

(** [store_other] is what the store makes of a value of the remaining
    kinds, an integer outside the signed 64-bit range (which the store
    converts to a float), a list, a dict or another object: the value it
    keeps, or a failure.  [embed] is the embedding provider on a batch of
    texts: it returns, or fails. *)
Variable store_other : pyvalue -> result pyvalue.
Variable embed : list string -> result unit.

(** The value that the store keeps for a metadata value. *)
Definition store_value (v : pyvalue) : result pyvalue :=
  match v with
  | PStr _ | PFloat _ | PBool _ => Ok v
  | PInt n => if in_int64 n then Ok v else store_other v
  | PNone => Raise TypeError
  | PList _ | PDict _ | PObject _ => store_other v
  end.

(** The metadata dictionary that the store keeps: every value has to be
    accepted; the failure is that of a refused value (the first in the
    order of the keys, the order in which the store checks them is not
    known). *)
Definition store_metadata (m : gmap string pyvalue)
    : result (gmap string pyvalue) :=
  match omap (fun kv => failure (store_value (snd kv))) (map_to_list m) with
  | e :: _ => Raise e
  | [] => Ok (omap (fun v => returned (store_value v)) m)
  end.

Fixpoint store_metadatas (l : list (gmap string pyvalue))
    : result (list (gmap string pyvalue)) :=
  match l with
  | [] => Ok []
  | m :: rest =>
      try m' <- store_metadata m in
      try rest' <- store_metadatas rest in
      Ok (m' :: rest')
  end.

Definition collection_add (policy : add_policy) (c : list entry)
    (ids documents : list string) (metadatas : list (gmap string pyvalue))
    : result (list entry) :=
  match ids with
  | [] => Raise ValueError
  | _ :: _ =>
      try stored <- store_metadatas metadatas in
      try _ <- embed documents in
      let new := zip3 ids documents stored in
      match policy with
      | KeepBoth => Ok (c ++ new)
      | RejectCall =>
          if existsb (fun e => has_id c (e_id e)) new then Raise StoreError
          else Ok (c ++ new)
      | SkipExisting =>
          Ok (c ++ filter (fun e => has_id c (e_id e) = false) new)
      end
  end.

End Store.

(** [collection.get(ids=[i])]: the entries stored under an id. *)
Definition collection_get (c : list entry) (i : string) : list entry :=
  filter (fun e => String.eqb (e_id e) i = true) c.

Definition meta_is (m : gmap string pyvalue) (k v : string) : bool :=
  match m !! k with
  | Some (PStr s) => String.eqb s v
  | _ => false
  end.

(** Insertion of an entry into a list ranked by ascending distance. *)
Fixpoint insert_ranked {A : Type} (x : A * pyfloat) (l : list (A * pyfloat))
    : list (A * pyfloat) :=
  match l with
  | [] => [x]
  | y :: l' =>
      if float_leb (snd y) (snd x) then y :: insert_ranked x l'
      else x :: l
  end.

Definition rank {A : Type} (l : list (A * pyfloat)) : list (A * pyfloat) :=
  foldr insert_ranked [] l.

(** ** Prompt templates (the f-strings of the source) *)

Definition dq : string := String dquote "".

Definition ideology_prompt (bill_text : string) : string :=
  "
        You are a political science expert analyzing congressional bills for ideological orientation. Analyze this bill and assign a political ideology score from -10 to +10 based on the detailed criteria below.

        SCORING FRAMEWORK:

        LIBERAL INDICATORS (-10 to -1):
        - Economic Policy: New government spending programs, tax increases on wealthy/corporations, wealth redistribution, universal programs, economic stimulus, job guarantee programs
        - Government Role: Federal agency creation/expansion, new federal oversight, centralized control, national standards, federal mandates on states
        - Social Policy: Civil rights expansions, LGBTQ+ protections, reproductive rights, criminal justice reform, immigration pathways, diversity/equity initiatives
        - Regulation: Environmental protections, financial regulations, consumer safety rules, labor protections, corporate accountability measures
        - Fiscal: Deficit spending for social programs, progressive taxation, social safety net expansion

        CONSERVATIVE INDICATORS (+1 to +10):
        - Economic Policy: Tax cuts (especially business/high earners), spending reductions, privatization, free market solutions, deregulation, elimination of programs
        - Government Role: State/local control, federal agency reduction, private sector solutions, reduced federal oversight, block grants to states
        - Social Policy: Traditional family values, religious freedom protections, law enforcement support, border security, parental rights, merit-based policies
        - Regulation: Regulatory rollbacks, reduced compliance burdens, industry-friendly policies, property rights protections
        - Fiscal: Balanced budgets, debt reduction, spending caps, elimination of agencies/programs

        MODERATE/BIPARTISAN INDICATORS (0):
        - Bipartisan cosponsorship, incremental reforms, maintains status quo, technical/administrative changes, widely supported issues (infrastructure, veterans), procedural bills

        SCORING SCALE:
        -10 to -8: Revolutionary progressive change (major wealth redistribution, massive government expansion)
        -7 to -5: Strongly liberal (significant new programs, major government role expansion)
        -4 to -2: Moderately liberal (modest spending increases, some new regulations)
        -1 to +1: Moderate/Bipartisan (minor changes, broad consensus issues)
        +2 to +4: Moderately conservative (modest deregulation, limited spending cuts)
        +5 to +7: Strongly conservative (major deregulation, significant spending cuts, traditional values emphasis)
        +8 to +10: Revolutionary conservative change (major government reduction, dramatic deregulation)

        ANALYSIS INSTRUCTIONS:
        1. Identify the bill's PRIMARY purpose and main provisions
        2. Categorize each major provision using the indicators above
        3. Weight provisions by their significance and scope
        4. Consider the overall direction and magnitude of change proposed
        5. Assign a score that reflects the NET ideological direction
        6. Be specific about which provisions drove your scoring decision

        Bill Text: "
  +:+ bill_text
  +:+ "

        REQUIRED RESPONSE FORMAT:
        OVERALL SCORE: [single number from -10 to +10, can include decimals like -3.5]
        DETAILED REASONING: [150-200 words explaining your scoring rationale, citing specific bill provisions]
        CONFIDENCE LEVEL: [0-100, where 100 = completely certain]
        KEY PHRASES: ["
  +:+ dq
  +:+ "phrase 1"
  +:+ dq
  +:+ ", "
  +:+ dq
  +:+ "phrase 2"
  +:+ dq
  +:+ ", "
  +:+ dq
  +:+ "phrase 3"
  +:+ dq
  +:+ "] [exact quotes from bill text that most influenced your score]
        IDEOLOGICAL CATEGORY: [Ultra-Liberal/Liberal/Moderate-Liberal/Moderate/Moderate-Conservative/Conservative/Ultra-Conservative]
        ".

Definition section_prompt (header content : string) : string :=
  "
            Analyze this section of a congressional bill:
            
            Section Header: "
  +:+ header
  +:+ "
            Content: "
  +:+ content
  +:+ "
            
            Provide:
            1. Summary of key provisions
            2. Policy implications
            3. Stakeholder impact
            4. Implementation considerations
            ".

Definition answer_prompt (title congress sponsor bill_type context_str question : string)
    : string :=
  "
        You are an expert congressional bill analyst. Answer the user's question about the bill using the provided context.

        Bill Information:
        - Title: "
  +:+ title
  +:+ "
        - Congress: "
  +:+ congress
  +:+ "
        - Sponsor: "
  +:+ sponsor
  +:+ "
        - Type: "
  +:+ bill_type
  +:+ "

        Relevant Bill Sections:
        "
  +:+ context_str
  +:+ "

        User Question: "
  +:+ question
  +:+ "

        Instructions:
        1. Answer based primarily on the provided bill text
        2. If information is not in the bill, clearly state this
        3. Reference specific sections when possible
        4. Explain implications and potential impacts
        5. Use clear, accessible language
        6. If the question involves comparison to current law, note that as context

        Answer:
        ".

Definition text_truncated : string :=
  nl +:+ nl +:+ "[Bill text truncated due to length...]" +:+ nl +:+ nl.

Definition section_truncated : string :=
  nl +:+ nl +:+ "[Section content truncated due to length...]" +:+ nl +:+ nl.

(** [text[:n] + notice] when the text is longer than [n]. *)
Definition truncate (n : Z) (notice text : string) : string :=
  if (n <? slen text)%Z then stake (Z.to_nat n) text +:+ notice else text.

(** ** Records of the scorer and of the composer *)

Record IdeologyAnalysis : Type := {
  score : pyfloat;
  reasoning : string;
  confidence : pyfloat;
  key_phrases : list string
}.

Record analysis_entry : Type := {
  a_header : string;
  a_analysis : option string
}.

Record context_item : Type := {
  c_text : string;
  c_section : pyvalue;
  c_relevance_score : pyfloat
}.

(** ** Parsing of the model's answer ([score_political_ideology], the
    body of the [try]) *)

Definition first_some {A : Type} (a b : option A) : option A :=
  match a with
  | Some _ => a
  | None => b
  end.

Definition search_score (content : string) : option string :=
  first_some (search_labeled_number "OVERALL SCORE:" true content)
    (first_some (search_labeled_number "Overall score:" true content)
       (search_labeled_number "Score:" true content)).

Definition reasoning_end (t : string) : bool :=
  starts (nl +:+ nl) t || starts_nocase (nl +:+ "CONFIDENCE") t
  || starts_nocase (nl +:+ "KEY PHRASES") t || at_end t.

Definition search_reasoning (content : string) : option string :=
  first_some (search_labeled_text "DETAILED REASONING:" reasoning_end content)
    (search_labeled_text "Detailed reasoning:" reasoning_end content).

Definition search_confidence (content : string) : option string :=
  first_some (search_labeled_number "CONFIDENCE LEVEL:" false content)
    (first_some (search_labeled_number "Confidence level:" false content)
       (search_labeled_number "Confidence:" false content)).

Definition phrases_end (t : string) : bool :=
  starts (nl +:+ nl) t || at_end t.

Definition is_backslash_or_caret (c : ascii) : bool :=
  eq_char c (ascii_of_nat 92) || eq_char c "^"%char.

(** The separators [,], newline, [*] and [-] of the phrase list (the
    bullet of the source is a code point above 255). *)
Definition is_phrase_separator (c : ascii) : bool :=
  eq_char c ","%char || eq_char c (ascii_of_nat 10) || eq_char c "*"%char
  || eq_char c "-"%char.

Definition phrase_trim : string := " " +:+ dq +:+ "'-*".

Definition labeled_phrases (content : string) : list string :=
  match search_labeled_text "KEY PHRASES:" phrases_end content with
  | Some phrases_text =>
      map (strip_chars phrase_trim)
        (filter (fun p => is_empty (strip p) = false)
           (split_on is_phrase_separator "" phrases_text))
  | None => []
  end.

Definition extract_key_phrases (content : string) : list string :=
  let quoted := findall_quoted 0 content in
  let key_phrases :=
    match quoted with
    | [] => findall_runs is_backslash_or_caret "" content
    | _ => quoted
    end in
  let key_phrases :=
    match key_phrases with
    | [] => labeled_phrases content
    | _ => key_phrases
    end in
  match key_phrases with
  | [] => ["No key phrases identified"]
  | _ => key_phrases
  end.

(** The body of the [try]; a response without text ([None]) makes
    [re.search] raise [TypeError]. *)
Definition parse_fields (content : option string) : result IdeologyAnalysis :=
  match content with
  | None => Raise TypeError
  | Some content =>
      try score <-
        match search_score content with
        | None => Ok (Fin 0)
        | Some g => py_float g
        end in
      let reasoning :=
        match search_reasoning content with
        | None => "No detailed reasoning provided."
        | Some g => strip g
        end in
      try confidence <-
        match search_confidence content with
        | None => Ok (Fin 50)
        | Some g => py_float g
        end in
      Ok {| score := score; reasoning := reasoning;
            confidence := confidence;
            key_phrases := extract_key_phrases content |}
  end.

Definition parse_error_defaults : IdeologyAnalysis :=
  {| score := Fin 0;
     reasoning := "Error parsing ideology analysis. The bill's content may be too complex or the analysis format was unexpected.";
     confidence := Fin 50;
     key_phrases := ["Error in analysis"] |}.

(** The [try ... except Exception] around the parsing. *)
Definition parse_response (content : option string) : IdeologyAnalysis :=
  match parse_fields content with
  | Ok r => r
  | Raise _ => parse_error_defaults
  end.

(** ** Operations on the external services

    [py_str] is Python's [str()] on values; [distance] is the distance the
    store computes between a question and a document; [reply] is the
    language model: its answer to a prompt given the prompts sent before
    ([None] is a response without text), or a provider failure;
    [store_other] and [embed] are those of the vector store. *)

Section Services.

Variable py_str : pyvalue -> string.
Variable distance : string -> string -> pyfloat.
Variable reply : list string -> string -> result (option string).
Variable policy : add_policy.
Variable store_other : pyvalue -> result pyvalue.
Variable embed : list string -> result unit.

(** *** Embedding index ([QASystem]) *)

Definition chunk_id (bill_id : string) (i : nat) : string :=
  bill_id +:+ "_chunk_" +:+ str_of_nat i.

Definition chunk_ids (bill_id : string) (n : nat) : list string :=
  map (chunk_id bill_id) (seq 0 n).

Definition sanitize_value (value : pyvalue) : pyvalue :=
  match value with
  | PStr _ | PInt _ | PFloat _ | PBool _ | PNone => value
  | PList ((_ :: _) as items) => PStr (join ", " (map py_str items))
  | PDict (_ :: _) => PStr (py_str value)
  | PList [] => PStr ""
  | PDict [] => PStr "{}"
  | PObject _ => PStr (py_str value)
  end.

Definition sanitize_metadata (bill_id : string) (metadata : gmap string pyvalue)
    : gmap string pyvalue :=
  <["bill_id" := PStr bill_id]> (sanitize_value <$> metadata).

Definition store_bill_chunks (c : list entry) (bill_id : string)
    (chunks : list string) (metadata : gmap string pyvalue)
    : result (list entry) :=
  let ids := chunk_ids bill_id (length chunks) in
  let sanitized_metadata := sanitize_metadata bill_id metadata in
  collection_add store_other embed policy c ids chunks
    (replicate (length chunks) sanitized_metadata).

(** [collection.query(query_texts=[question], n_results=k,
    where={"bill_id": bill_id})]: the [k] nearest entries of the bill,
    when [k] is not zero and the question is embedded. *)
Definition collection_query (c : list entry) (question : string) (k : nat)
    (bill_id : string) : result (list (entry * pyfloat)) :=
  match k with
  | 0 => Raise TypeError
  | S _ =>
      try _ <- embed [question] in
      let candidates :=
        filter (fun e => meta_is (e_meta e) "bill_id" bill_id = true) c in
      Ok (take k (rank (map (fun e => (e, distance question (e_doc e)))
                          candidates)))
  end.

Definition meta_get (m : gmap string pyvalue) (k : string) (default : pyvalue)
    : pyvalue :=
  match m !! k with
  | Some v => v
  | None => default
  end.

Definition get_relevant_context (c : list entry) (question bill_id : string)
    (k : nat) : result (list context_item) :=
  try results <- collection_query c question k bill_id in
  Ok (map (fun r =>
             {| c_text := e_doc (fst r);
                c_section := meta_get (e_meta (fst r)) "section" (PStr "Unknown");
                c_relevance_score := snd r |})
          results).

(** *** Context composer ([generate_contextualized_response]) *)

Definition context_window (context : list context_item) : list context_item :=
  if (5 <? length context)%nat then take 5 context else context.

Definition render_item (c : context_item) : string :=
  "Section: " +:+ py_str (c_section c) +:+ nl
  +:+ "Content: " +:+ c_text c +:+ nl
  +:+ "Relevance Score: " +:+ py_str (PFloat (c_relevance_score c)).

Definition getitem (m : gmap string pyvalue) (k : string) : result pyvalue :=
  match m !! k with
  | Some v => Ok v
  | None => Raise (KeyError k)
  end.

Definition compose_prompt (question : string) (context : list context_item)
    (metadata : gmap string pyvalue) : result string :=
  let context := context_window context in
  let context_str := join (nl +:+ nl) (map render_item context) in
  try title <- getitem metadata "title" in
  try congress <- getitem metadata "congress" in
  try sponsor <- getitem metadata "sponsor" in
  try bill_type <- getitem metadata "bill_type" in
  Ok (answer_prompt (py_str title) (py_str congress) (py_str sponsor)
        (py_str bill_type) context_str question).

(** The functions that call the model return their result and the
    prompts sent so far. *)
Definition generate_contextualized_response (log : list string)
    (question : string) (context : list context_item)
    (metadata : gmap string pyvalue)
    : result (option string) * list string :=
  match compose_prompt question context metadata with
  | Raise e => (Raise e, log)
  | Ok prompt => (reply log prompt, log ++ [prompt])
  end.

(** *** Scorer ([AIAnalyzer]) *)

Fixpoint analyze_sections (log : list string) (sections : list section)
    : result (list analysis_entry) * list string :=
  match sections with
  | [] => (Ok [], log)
  | s :: rest =>
      let content := truncate 12000 section_truncated (content s) in
      let prompt := section_prompt (header s) content in
      match reply log prompt with
      | Raise e => (Raise e, log ++ [prompt])
      | Ok response =>
          let (r, log') := analyze_sections (log ++ [prompt]) rest in
          (try analysis <- r in
           Ok ({| a_header := header s; a_analysis := response |} :: analysis),
           log')
      end
  end.

Definition note_text (n : nat) : string :=
  "Analysis limited to first 10 of " +:+ str_of_nat n
  +:+ " sections to avoid rate limits.".

Definition limit_note (n : nat) : analysis_entry :=
  {| a_header := "Note"; a_analysis := Some (note_text n) |}.

Definition generate_section_breakdown (log : list string)
    (sections : list section) : result (list analysis_entry) * list string :=
  let sections_to_analyze :=
    if (10 <? length sections)%nat then take 10 sections else sections in
  let (r, log') := analyze_sections log sections_to_analyze in
  (try analysis <- r in
   Ok (if (10 <? length sections)%nat
       then analysis ++ [limit_note (length sections)]
       else analysis),
   log').

Definition score_political_ideology (log : list string) (bill_text : string)
    (metadata : gmap string pyvalue)
    : result IdeologyAnalysis * list string :=
  let bill_text := truncate 30000 text_truncated bill_text in
  let prompt := ideology_prompt bill_text in
  (try content <- reply log prompt in Ok (parse_response content),
   log ++ [prompt]).

End Services.

(** ** Text cleaner ([TextProcessor.clean_bill_text])

    [re.sub] for a pattern that matches no empty text: [m s] is the
    length of the match at the start of [s], [skipn] the number of
    characters of the last match still to be passed. *)

Fixpoint re_sub (m : string -> option nat) (repl : string) (skipn : nat)
    (s : string) : string :=
  match s with
  | EmptyString => ""
  | String c s' =>
      match skipn with
      | S k => re_sub m repl k s'
      | O =>
          match m s with
          | Some (S k) => repl +:+ re_sub m repl k s'
          | _ => String c (re_sub m repl 0 s')
          end
      end
  end.

Definition is_nl (c : ascii) : bool := eq_char c (ascii_of_nat 10).

(** [\s*\n] at the start of a run of white space [w]: the greedy [\s*]
    gives characters back until a newline follows it, so the match ends
    with the last newline of the run.  The result is its length. *)
Fixpoint through_last_nl (w : string) : option nat :=
  match w with
  | EmptyString => None
  | String c w' =>
      match through_last_nl w' with
      | Some k => Some (S k)
      | None => if is_nl c then Some 1 else None
      end
  end.

(** The length of [\s*\n] at the start of [s]. *)
Definition ws_newline (s : string) : option nat :=
  through_last_nl (run isspace s).

Definition run_length (cls : ascii -> bool) (s : string) : nat :=
  String.length (run cls s).

(** [\n\s*\n] *)
Definition match_blank_lines (s : string) : option nat :=
  match s with
  | String c r =>
      if is_nl c then
        match ws_newline r with
        | Some k => Some (S k)
        | None => None
        end
      else None
  | EmptyString => None
  end.

(** [\n\s*\d+\s*\n] *)
Definition match_page_number (s : string) : option nat :=
  match s with
  | String c r =>
      if is_nl c then
        let r1 := skip isspace r in
        if is_empty (run isdigit r1) then None
        else
          match ws_newline (skip isdigit r1) with
          | Some k => Some (S (run_length isspace r + run_length isdigit r1 + k))
          | None => None
          end
      else None
  | EmptyString => None
  end.

(** [\n\s*Section\s+\d+\.\s*\n] *)
Definition match_section_line (s : string) : option nat :=
  match s with
  | String c r =>
      if is_nl c then
        match lit "Section" (skip isspace r) with
        | Some r2 =>
            let r3 := skip isspace r2 in
            if is_empty (run isspace r2) || is_empty (run isdigit r3) then None
            else
              match lit "." (skip isdigit r3) with
              | Some r4 =>
                  match ws_newline r4 with
                  | Some k =>
                      Some (S (run_length isspace r + 7 + run_length isspace r2
                               + run_length isdigit r3 + 1 + k))
                  | None => None
                  end
              | None => None
              end
        | None => None
        end
      else None
  | EmptyString => None
  end.

(** [\s+] *)
Definition match_spaces (s : string) : option nat :=
  match run_length isspace s with
  | O => None
  | n => Some n
  end.

(** The text after the three removals of formatting, before the white
    space is collapsed. *)
Definition remove_artifacts (raw_text : string) : string :=
  let text := re_sub match_blank_lines (nl +:+ nl) 0 raw_text in
  let text := re_sub match_page_number nl 0 text in
  re_sub match_section_line nl 0 text.

Definition clean_bill_text (raw_text : string) : string :=
  let text := remove_artifacts raw_text in
  strip (re_sub match_spaces " " 0 text).

(** ** Bill URLs ([CongressAPI.parse_congress_url]) *)

Record bill_info : Type := {
  bi_congress : string;
  bi_bill_type : string;
  bi_number : string
}.

Definition not_slash (c : ascii) : bool := negb (eq_char c "/"%char).

(** [(?:st|nd|rd|th)] *)
Definition ordinal_suffix (s : string) : option string :=
  first_some (lit "st" s)
    (first_some (lit "nd" s) (first_some (lit "rd" s) (lit "th" s))).

(** The pattern
    [congress\.gov/bill/(\d+)(?:st|nd|rd|th)-congress/([^/]+)/(\d+)] at
    the start of [s]: its three groups. *)
Definition match_bill_url (s : string) : option (string * string * string) :=
  match lit "congress.gov/bill/" s with
  | Some r1 =>
      if is_empty (run isdigit r1) then None
      else
        match ordinal_suffix (skip isdigit r1) with
        | Some r2 =>
            match lit "-congress/" r2 with
            | Some r3 =>
                if is_empty (run not_slash r3) then None
                else
                  match skip not_slash r3 with
                  | String _ r4 =>
                      if is_empty (run isdigit r4) then None
                      else Some (run isdigit r1, run not_slash r3,
                                 run isdigit r4)
                  | EmptyString => None
                  end
            | None => None
            end
        | None => None
        end
  | None => None
  end.

Fixpoint search_bill_url (s : string) : option (string * string * string) :=
  match match_bill_url s with
  | Some g => Some g
  | None =>
      match s with
      | EmptyString => None
      | String _ s' => search_bill_url s'
      end
  end.

Definition bill_type_map : list (string * string) :=
  [ ("house-bill", "hr");
    ("senate-bill", "s");
    ("house-joint-resolution", "hjres");
    ("senate-joint-resolution", "sjres");
    ("house-concurrent-resolution", "hconres");
    ("senate-concurrent-resolution", "sconres");
    ("house-resolution", "hres");
    ("senate-resolution", "sres") ].

(** [d.get(k)] on a dict written as a list of items. *)
Fixpoint dict_get (k : string) (d : list (string * string)) : option string :=
  match d with
  | [] => None
  | (k', v) :: d' => if String.eqb k' k then Some v else dict_get k d'
  end.

Definition parse_congress_url (url : string) : result bill_info :=
  match search_bill_url url with
  | None => Raise ValueError
  | Some (congress, bill_type, number) =>
      match dict_get bill_type bill_type_map with
      | None => Raise ValueError
      | Some api_bill_type =>
          if is_empty api_bill_type then Raise ValueError
          else Ok {| bi_congress := congress;
                     bi_bill_type := api_bill_type;
                     bi_number := number |}
      end
  end.

(** The id under which the callers store a bill. *)
Definition bill_id_of (b : bill_info) : string :=
  bi_congress b +:+ "-" +:+ bi_bill_type b +:+ "-" +:+ bi_number b.

(** ** The remaining operations on the external services *)

Definition summary_prompt (title sponsor introduced_date bill_text : string)
    : string :=
  "
        Write a 200-300 word executive summary of this congressional bill:
        - Title: "
  +:+ title
  +:+ "
        - Sponsor: "
  +:+ sponsor
  +:+ "
        - Introduced: "
  +:+ introduced_date
  +:+ "
        
        Key points to include:
        1. Purpose of the bill
        2. Main provisions and changes
        3. Potential impact on stakeholders
        4. Timeline and implementation
        
        Bill text: "
  +:+ bill_text
  +:+ "
        ".

Record processed_bill (V : Type) : Type := {
  p_clean_text : string;
  p_sections : list section;
  p_chunks : list string;
  p_embeddings : list V
}.

Arguments p_clean_text {V} _.
Arguments p_sections {V} _.
Arguments p_chunks {V} _.
Arguments p_embeddings {V} _.

Section Pipeline.

Variable py_str : pyvalue -> string.
Variable distance : string -> string -> pyfloat.
Variable reply : list string -> string -> result (option string).
Variable policy : add_policy.
Variable embed : list string -> result unit.

(** The embedder of [TextProcessor.vectorize_text], taken as a function
    that returns. *)
Variable V : Type.
Variable encode : string -> V.

(** [TextProcessor.process_bill] *)
Definition process_bill (raw_text : string) : result (processed_bill V) :=
  let clean_text := clean_bill_text raw_text in
  let sections := extract_sections clean_text in
  try chunks <- chunk_text clean_text 1000 in
  Ok {| p_clean_text := clean_text;
        p_sections := sections;
        p_chunks := chunks;
        p_embeddings := map encode chunks |}.

(** [QASystem.store_bill_metadata] *)
Definition store_bill_metadata
    (bill_metadatas : gmap string (gmap string pyvalue)) (bill_id : string)
    (metadata : gmap string pyvalue) : gmap string (gmap string pyvalue) :=
  <[bill_id := metadata]> bill_metadatas.

(** [QASystem.query_bill] *)
Definition query_bill (c : list entry)
    (bill_metadatas : gmap string (gmap string pyvalue)) (log : list string)
    (question bill_id : string) (k : nat)
    : result (option string) * list string :=
  match get_relevant_context distance embed c question bill_id k with
  | Raise e => (Raise e, log)
  | Ok context =>
      let bill_level_metadata :=
        match bill_metadatas !! bill_id with
        | Some m => m
        | None => ∅
        end in
      let prompt_metadata : gmap string pyvalue :=
        <["bill_type" := meta_get bill_level_metadata "bill_type" (PStr "N/A")]>
          (<["sponsor" := meta_get bill_level_metadata "sponsor" (PStr "N/A")]>
             (<["congress" := meta_get bill_level_metadata "congress" (PStr "N/A")]>
                (<["title" := meta_get bill_level_metadata "title" (PStr "N/A")]>
                   ∅))) in
      generate_contextualized_response py_str reply log question context
        prompt_metadata
  end.

(** [AIAnalyzer.generate_executive_summary] *)
Definition generate_executive_summary (log : list string) (bill_text : string)
    (metadata : gmap string pyvalue)
    : result (option string) * list string :=
  let bill_text := truncate 30000 text_truncated bill_text in
  let prompt :=
    try title <- getitem metadata "title" in
    try sponsor <- getitem metadata "sponsor" in
    try introduced_date <- getitem metadata "introduced_date" in
    Ok (summary_prompt (py_str title) (py_str sponsor)
          (py_str introduced_date) bill_text) in
  match prompt with
  | Raise e => (Raise e, log)
  | Ok prompt => (reply log prompt, log ++ [prompt])
  end.

(** [handle_question] of the application: [current_bill_id] is the
    global set by the last analysis ([None] before any), [exn_str] is
    [str()] on exceptions. *)
Variable exn_str : exn -> string.

Definition no_current_bill (current_bill_id : option string) : bool :=
  match current_bill_id with
  | None => true
  | Some bill_id => is_empty bill_id
  end.

Definition handle_question (current_bill_id : option string)
    (c : list entry) (bill_metadatas : gmap string (gmap string pyvalue))
    (log : list string) (question : string)
    (chat_history : list (string * option string))
    : (string * list (string * option string)) * list string :=
  match current_bill_id with
  | Some bill_id =>
      if is_empty bill_id then
        (("", chat_history
              ++ [(question,
                   Some "Please analyze a bill first before asking questions.")]),
         log)
      else
        let (r, log') := query_bill c bill_metadatas log question bill_id 5 in
        match r with
        | Ok answer => (("", chat_history ++ [(question, answer)]), log')
        | Raise e =>
            (("", chat_history
                  ++ [(question,
                       Some ("Sorry, I encountered an error: " +:+ exn_str e
                             +:+ nl +:+ nl
                             +:+ "Please check app.log for more details."))]),
             log')
        end
  | None =>
      (("", chat_history
            ++ [(question,
                 Some "Please analyze a bill first before asking questions.")]),
       log)
  end.

End Pipeline.


(** * Vocabulary of the properties *)

Definition no_space (s : string) : Prop :=
  forall c, In c (list_ascii_of_string s) -> isspace c = false.

Definition is_word (s : string) : Prop := s <> "" /\ no_space s.

(** A text is whitespace-normalized when it is its words joined by
    single spaces. *)
Definition normalized (s : string) : Prop := join " " (split s) = s.

Definition groups {A : Type} (w : nat) (l : list A) (c : nat) : list (list A) :=
  map (fun k => take w (drop (k * w) l)) (seq 0 c).

(** The number of chunks: [ceil (n / W)]. *)
Definition chunk_count (n : nat) (W : Z) : nat :=
  Z.to_nat ((Z.of_nat n + W - 1) / W).

(** A structural marker occurs somewhere in the text. *)
Fixpoint contains_marker (s : string) : bool :=
  is_marker s ||
  match s with
  | EmptyString => false
  | String _ s' => contains_marker s'
  end.

(** The structural markers in the words of the specification: a
    [Section N.] token, or a lettered sub-item token, a letter between
    parentheses as in [(a)]. *)
Definition is_letter (c : ascii) : bool := isupper c || islower c.

Definition spec_marker (s : string) : bool :=
  match match_section_marker s with
  | Some _ => true
  | None =>
      match s with
      | String a (String c (String b _)) =>
          eq_char a "("%char && is_letter c && eq_char b ")"%char
      | _ => false
      end
  end.

Fixpoint contains_spec_marker (s : string) : bool :=
  spec_marker s ||
  match s with
  | EmptyString => false
  | String _ s' => contains_spec_marker s'
  end.

(** The provider answers every request. *)
Definition answers (reply : list string -> string -> result (option string)) : Prop :=
  forall log prompt, exists response, reply log prompt = Ok response.

(** The entries that a call of [store_bill_chunks] hands to the store. *)
Definition new_entries (py_str : pyvalue -> string) (bill_id : string) (chunks : list string)
    (metadata : gmap string pyvalue) : list entry :=
  zip3 (chunk_ids bill_id (length chunks)) chunks
    (replicate (length chunks) (sanitize_metadata py_str bill_id metadata)).

(** The entries of a call of [store_bill_chunks] as the store keeps
    them, with the metadata [m] that it keeps. *)
Definition chunk_entries (bill_id : string) (chunks : list string)
    (m : gmap string pyvalue) : list entry :=
  zip3 (chunk_ids bill_id (length chunks)) chunks
    (replicate (length chunks) m).

(** What [add] appends under each policy. *)
Definition added_entries (policy : add_policy) (c new : list entry) : list entry :=
  match policy with
  | SkipExisting => filter (fun e => has_id c (e_id e) = false) new
  | _ => new
  end.

(** The claim of an overwriting second call: after two calls for one
    bill, each chunk id of the second call holds exactly the entry of the
    second call. *)
Definition overwrites (py_str : pyvalue -> string) (policy : add_policy)
    (store_other : pyvalue -> result pyvalue)
    (embed : list string -> result unit) (bill_id : string)
    (chunks1 : list string) (md1 : gmap string pyvalue)
    (chunks2 : list string) (md2 : gmap string pyvalue) : Prop :=
  exists c1 c2,
    store_bill_chunks py_str policy store_other embed [] bill_id chunks1 md1
    = Ok c1
    /\ store_bill_chunks py_str policy store_other embed c1 bill_id chunks2 md2
       = Ok c2
    /\ forall i chunk, chunks2 !! i = Some chunk ->
         collection_get c2 (chunk_id bill_id i)
         = [Entry (chunk_id bill_id i) chunk
              (sanitize_metadata py_str bill_id md2)].

(** The indexes built by the store operation from metadata without a
    [section] key. *)
Inductive built_without_section (py_str : pyvalue -> string)
    (policy : add_policy) (store_other : pyvalue -> result pyvalue)
    (embed : list string -> result unit) : list entry -> Prop :=
| built_empty : built_without_section py_str policy store_other embed []
| built_store (c c' : list entry) (bill_id : string) (chunks : list string)
    (metadata : gmap string pyvalue) :
    built_without_section py_str policy store_other embed c ->
    metadata !! "section" = None ->
    store_bill_chunks py_str policy store_other embed c bill_id chunks metadata
    = Ok c' ->
    built_without_section py_str policy store_other embed c'.

(** A rendering of values, a distance, a store that refuses the values
    of the remaining kinds and an embedding provider that returns, to run
    the operations. *)
Definition sample_str (v : pyvalue) : string :=
  match v with
  | PStr s => s
  | _ => "?"
  end.

Definition sample_distance (question document : string) : pyfloat :=
  Fin (Qmake (Z.of_nat (String.length document)) 1).

Definition sample_store_other (v : pyvalue) : result pyvalue :=
  Raise ValueError.

Definition sample_embed (texts : list string) : result unit := Ok tt.

(** The entry stored for a one-chunk bill whose metadata has a
    [section] key. *)
Definition labelled_entry : entry :=
  Entry "118-hr-1_chunk_0" "text"
    (sanitize_metadata sample_str "118-hr-1" {["section" := PStr "Sec. 2"]}).

Definition all_chars (cls : ascii -> bool) (s : string) : Prop :=
  forall c, In c (list_ascii_of_string s) -> cls c = true.

(** The digits before the point of a captured numeral. *)
Definition unsigned_part (g : string) : string :=
  match g with
  | String c r => if is_sign c then r else g
  | EmptyString => ""
  end.

Definition int_digits (g : string) : nat :=
  String.length (run isdigit (unsigned_part g)).

(** The magnitude of a numeral [digits] or [digits.digits] as a
    fraction: all its digits over ten to the number of digits after the
    point. *)
Definition unsigned_fraction (u : string) : Z * Z :=
  let fp := match skip isdigit u with
            | String _ fp => fp
            | EmptyString => ""
            end in
  (digits_value 0 (run isdigit u +:+ fp), 10 ^ Z.of_nat (String.length fp))%Z.

(** The magnitude of a captured numeral is below [2^1024 - 2^970]. *)
Definition below_overflow (g : string) : Prop :=
  (fst (unsigned_fraction (unsigned_part g))
   < overflow_threshold * snd (unsigned_fraction (unsigned_part g)))%Z.

(** A label occurs in the text, whatever the case of its letters. *)
Fixpoint occurs_nocase (label s : string) : bool :=
  starts_nocase label s ||
  match s with
  | EmptyString => false
  | String _ s' => occurs_nocase label s'
  end.

(** The labels of the score, reasoning and confidence patterns. *)
Definition expected_labels : list string :=
  [ "OVERALL SCORE:"; "Overall score:"; "Score:";
    "DETAILED REASONING:"; "Detailed reasoning:";
    "CONFIDENCE LEVEL:"; "Confidence level:"; "Confidence:" ].

Definition has_label (content : string) : bool :=
  existsb (fun label => occurs_nocase label content) expected_labels.

(** A character of a class occurs in the text. *)
Fixpoint has_char (cls : ascii -> bool) (s : string) : bool :=
  match s with
  | EmptyString => false
  | String c s' => cls c || has_char cls s'
  end.

(** The text has no double quote, no backslash or caret and no label of
    key phrases. *)
Definition no_phrases (content : string) : bool :=
  negb (has_char (fun c => eq_char c dquote) content)
  && negb (has_char is_backslash_or_caret content)
  && negb (occurs_nocase "KEY PHRASES:" content).

Fixpoint repeat_char (c : ascii) (n : nat) : string :=
  match n with
  | O => ""
  | S n' => String c (repeat_char c n')
  end.

(** A response in the required format whose score has 401 digits. *)
Definition huge_score_response : string :=
  "OVERALL SCORE: 1" +:+ repeat_char "0" 400 +:+ nl
  +:+ "DETAILED REASONING: The bill cuts every tax." +:+ nl
  +:+ "CONFIDENCE LEVEL: 90" +:+ nl.

Definition overconfident_response : string :=
  "OVERALL SCORE: 2.5" +:+ nl
  +:+ "DETAILED REASONING: The bill cuts every tax." +:+ nl
  +:+ "CONFIDENCE LEVEL: 150" +:+ nl.

Definition constant_reply (content : string)
    : list string -> string -> result (option string) :=
  fun _ _ => Ok (Some content).

(** The collapse of white space, read character by character:
    [in_space] tells that the last character read was white space. *)
Fixpoint collapse (in_space : bool) (s : string) : string :=
  match s with
  | EmptyString => ""
  | String c s' =>
      if isspace c then
        if in_space then collapse true s' else String " " (collapse true s')
      else String c (collapse false s')
  end.

(** A pattern that matches only at a newline. *)
Definition at_newline_only (m : string -> option nat) : Prop :=
  forall s k, m s = Some (S k) ->
    exists c r, s = String c r /\ is_nl c = true.



(** A sequence of calls of the store operation, each a bill id, its
    chunks and its metadata, run from an index [c]. *)
Fixpoint store_all (py_str : pyvalue -> string) (policy : add_policy)
    (store_other : pyvalue -> result pyvalue)
    (embed : list string -> result unit)
    (c : list entry) (calls : list (string * list string * gmap string pyvalue))
    : result (list entry) :=
  match calls with
  | [] => Ok c
  | (bill_id, chunks, metadata) :: rest =>
      match store_bill_chunks py_str policy store_other embed c bill_id chunks
              metadata with
      | Ok c' => store_all py_str policy store_other embed c' rest
      | Raise e => Raise e
      end
  end.

(** An entry comes from one of the calls. *)
Definition stored_by (py_str : pyvalue -> string)
    (store_other : pyvalue -> result pyvalue)
    (calls : list (string * list string * gmap string pyvalue)) (e : entry)
    : Prop :=
  exists bill_id chunks metadata i chunk kept,
    In (bill_id, chunks, metadata) calls
    /\ chunks !! i = Some chunk
    /\ store_metadata store_other (sanitize_metadata py_str bill_id metadata)
       = Ok kept
    /\ e = Entry (chunk_id bill_id i) chunk kept.

(** The first key of a list that a dict lacks. *)
Fixpoint first_missing (keys : list string) (m : gmap string pyvalue)
    : option string :=
  match keys with
  | [] => None
  | k :: rest =>
      match m !! k with
      | None => Some k
      | Some _ => first_missing rest m
      end
  end.

(** The field of the stored bill-level metadata that [query_bill]
    renders: the value under the key, or ["N/A"]. *)
Definition bill_field (bill_metadatas : gmap string (gmap string pyvalue))
    (bill_id key : string) : pyvalue :=
  match bill_metadatas !! bill_id with
  | Some m => meta_get m key (PStr "N/A")
  | None => PStr "N/A"
  end.

(** A text of [n] characters [a] followed by [tail]. *)
Definition long_text (n : nat) (tail : string) : string :=
  repeat_char "a" n +:+ tail.

(** The bills that [parse_congress_url] returns: a congress and a
    number made of digits, and one of the eight API bill types. *)
Definition parsed_bill (b : bill_info) : Prop :=
  (bi_congress b <> "" /\ all_chars isdigit (bi_congress b))
  /\ (bi_number b <> "" /\ all_chars isdigit (bi_number b))
  /\ In (bi_bill_type b) (map snd bill_type_map).

Definition not_dash (c : ascii) : bool := negb (eq_char c "-"%char).

Definition not_underscore (c : ascii) : bool := negb (eq_char c "_"%char).

(** The values that the sanitizer and the store both keep as they are
    given: strings, floats, booleans and the integers of the signed
    64-bit range. *)
Definition kept_as_given (v : pyvalue) : bool :=
  match v with
  | PStr _ | PFloat _ | PBool _ => true
  | PInt n => in_int64 n
  | _ => false
  end.

(** The request sent for a section. *)
Definition prompt_of (s : section) : string :=
  section_prompt (header s) (truncate 12000 section_truncated (content s)).

(** * Properties *)

#[local] Arguments String.append : simpl nomatch.

(** ** The operations on sample inputs *)

Example chunk_text_sample :
  chunk_text "a b  c d e" 2 = Ok ["a b"; "c d"; "e"]
  /\ chunk_text "a b" 0 = Raise ValueError
  /\ chunk_text "a b" (-1) = Ok [].
Proof. repeat split; reflexivity. Qed.

Example extract_sections_sample :
  extract_sections "Preamble Section 1. Purpose. (a) item one Section  22.x"
  = [ {| header := ""; content := "Preamble " |};
      {| header := "Section 1."; content := " Purpose. " |};
      {| header := "(a)"; content := "item one " |};
      {| header := "Section  22."; content := "x" |} ].
Proof. vm_compute. reflexivity. Qed.

Example py_float_sample :
  py_float "150" = Ok (Fin 150)
  /\ py_float "50.0" = Ok (Fin 50)
  /\ py_float "-3.5" = Ok (Fin (-7 # 2))
  /\ py_float "0.1" = Ok (Fin (3602879701896397 # 36028797018963968))
  /\ py_float "9007199254740993" = Ok (Fin 9007199254740992).
Proof. vm_compute. repeat split. Qed.

Example parse_response_sample :
  parse_response
    (Some ("OVERALL SCORE: -3.5" +:+ nl
           +:+ "DETAILED REASONING: It funds a new agency." +:+ nl
           +:+ "CONFIDENCE LEVEL: 75" +:+ nl
           +:+ "KEY PHRASES: [" +:+ dq +:+ "new agency" +:+ dq +:+ "]"))
  = {| score := Fin (-7 # 2);
       reasoning := "It funds a new agency.";
       confidence := Fin 75;
       key_phrases := ["new agency"] |}.
Proof. vm_compute. reflexivity. Qed.

(** ** Words, [split] and [join] *)

Lemma append_nil_r (s : string) : s +:+ "" = s.
Proof. induction s as [|c s IH]; simpl; [reflexivity | now rewrite IH]. Qed.

Lemma append_assoc (a b c : string) : (a +:+ b) +:+ c = a +:+ (b +:+ c).
Proof. induction a as [|x a IH]; simpl; [reflexivity | now rewrite IH]. Qed.

Lemma is_empty_true (s : string) : is_empty s = true <-> s = "".
Proof. destruct s; simpl; split; intros H; congruence. Qed.

Lemma is_empty_false (s : string) : is_empty s = false <-> s <> "".
Proof. destruct s; simpl; split; intros H; congruence. Qed.

Lemma flush_word (w : string) : w <> "" -> flush w = [w].
Proof. intros H. unfold flush. destruct w; [congruence | reflexivity]. Qed.

Lemma no_space_cons (c : ascii) (s : string) :
  no_space (String c s) <-> isspace c = false /\ no_space s.
Proof.
  unfold no_space. simpl. split.
  - intros H. split; [apply H; now left | intros d Hd; apply H; now right].
  - intros [H1 H2] d [<- | Hd]; auto.
Qed.

Lemma no_space_app (a b : string) :
  no_space (a +:+ b) <-> no_space a /\ no_space b.
Proof.
  induction a as [|c a IH]; simpl.
  - split; [intros H; split; [intros c [] | exact H] | tauto].
  - rewrite !no_space_cons, IH. tauto.
Qed.

Lemma app_not_empty (a : string) (c : ascii) : a +:+ String c "" <> "".
Proof. destruct a; simpl; congruence. Qed.

(** Reading a text that ends a word with a space. *)
Lemma split_from_space (s t w : string) :
  split_from w (s +:+ String " " t) = split_from w s ++ split_from "" t.
Proof.
  revert w. induction s as [|c s IH]; intros w; simpl.
  - reflexivity.
  - destruct (isspace c).
    + rewrite IH, app_assoc. reflexivity.
    + apply IH.
Qed.

Lemma split_from_no_space (s w : string) :
  no_space s -> split_from w s = flush (w +:+ s).
Proof.
  revert w. induction s as [|c s IH]; intros w H; simpl.
  - now rewrite append_nil_r.
  - apply no_space_cons in H as [Hc Hs]. rewrite Hc, IH by exact Hs.
    now rewrite append_assoc.
Qed.

Lemma split_word (w : string) : is_word w -> split w = [w].
Proof.
  intros [Hne Hns]. unfold split. rewrite split_from_no_space by exact Hns.
  simpl. now apply flush_word.
Qed.

Lemma split_from_words (s w : string) :
  no_space w -> Forall is_word (split_from w s).
Proof.
  revert w. induction s as [|c s IH]; intros w Hw; simpl.
  - unfold flush. destruct (is_empty w) eqn:E; constructor; [|constructor].
    split; [now apply is_empty_false | exact Hw].
  - destruct (isspace c) eqn:Hc.
    + apply Forall_app. split.
      * unfold flush. destruct (is_empty w) eqn:E; constructor; [|constructor].
        split; [now apply is_empty_false | exact Hw].
      * apply IH. intros d [].
    + apply IH. apply no_space_app. split; [exact Hw|].
      apply no_space_cons. split; [exact Hc | intros d []].
Qed.

Lemma split_words (s : string) : Forall is_word (split s).
Proof. apply split_from_words. intros c []. Qed.

Lemma join_cons (sep p : string) (rest : list string) :
  rest <> [] -> join sep (p :: rest) = p +:+ sep +:+ join sep rest.
Proof. destruct rest; [congruence | reflexivity]. Qed.

(** Splitting a text joined by single spaces splits each part. *)
Lemma split_join (parts : list string) :
  split (join " " parts) = concat (map split parts).
Proof.
  induction parts as [|p rest IH]; [reflexivity|].
  destruct rest as [|q rest].
  - simpl. now rewrite app_nil_r.
  - rewrite join_cons by discriminate. unfold split at 1.
    change (" " +:+ join " " (q :: rest)) with (String " " (join " " (q :: rest))).
    rewrite split_from_space. simpl map. simpl concat.
    f_equal. exact IH.
Qed.

Lemma split_join_words (ws : list string) :
  Forall is_word ws -> split (join " " ws) = ws.
Proof.
  intros H. rewrite split_join. induction H as [|w ws Hw _ IH]; [reflexivity|].
  simpl. rewrite split_word by exact Hw. simpl. now rewrite IH.
Qed.

Lemma join_app (a b : list string) :
  a <> [] -> b <> [] ->
  join " " (a ++ b) = join " " a +:+ " " +:+ join " " b.
Proof.
  intros Ha Hb. induction a as [|p a IH]; [congruence|].
  destruct a as [|q a].
  - simpl app. now rewrite join_cons.
  - change ((p :: q :: a) ++ b) with (p :: ((q :: a) ++ b)).
    rewrite join_cons by (destruct b; discriminate).
    rewrite IH by discriminate.
    rewrite (join_cons " " p (q :: a)) by discriminate.
    now rewrite !append_assoc.
Qed.

Lemma join_concat (groups : list (list string)) :
  Forall (fun g => g <> []) groups ->
  join " " (map (join " ") groups) = join " " (concat groups).
Proof.
  induction 1 as [|g groups Hg Hgs IH]; [reflexivity|].
  destruct groups as [|g' groups].
  - simpl. now rewrite app_nil_r.
  - change (map (join " ") (g :: g' :: groups))
      with (join " " g :: map (join " ") (g' :: groups)).
    rewrite join_cons by discriminate. rewrite IH.
    change (concat (g :: g' :: groups)) with (g ++ concat (g' :: groups)).
    rewrite join_app; [reflexivity | exact Hg |].
    inversion Hgs; subst. simpl. destruct g'; [congruence | discriminate].
Qed.

(** ** Consecutive groups of a list *)

Lemma groups_succ {A : Type} (w : nat) (l : list A) (c : nat) :
  groups w l (S c) = take w l :: groups w (drop w l) c.
Proof.
  unfold groups. rewrite <- cons_seq, <- fmap_S_seq.
  change (S <$> seq 0 c) with (map S (seq 0 c)). simpl.
  f_equal. rewrite map_map. apply map_ext. intros k.
  rewrite drop_drop. do 2 f_equal; lia.
Qed.

Lemma concat_groups {A : Type} (w : nat) (l : list A) (c : nat) :
  length l <= c * w -> concat (groups w l c) = l.
Proof.
  revert l. induction c as [|c IH]; intros l H.
  - simpl in H. destruct l; [reflexivity | simpl in H; lia].
  - rewrite groups_succ. simpl. rewrite IH.
    + apply take_drop.
    + rewrite length_drop. lia.
Qed.

Lemma groups_lookup {A : Type} (w : nat) (l : list A) (c i : nat) :
  i < c -> groups w l c !! i = Some (take w (drop (i * w) l)).
Proof.
  intros H. unfold groups.
  change (map ?f ?l) with (f <$> l).
  rewrite list_lookup_fmap, lookup_seq_lt by exact H. reflexivity.
Qed.

Lemma length_groups {A : Type} (w : nat) (l : list A) (c : nat) :
  length (groups w l c) = c.
Proof. unfold groups. now rewrite length_map, length_seq. Qed.

Lemma chunk_count_spec (n : nat) (W : Z) :
  (0 < W)%Z ->
  n <= chunk_count n W * Z.to_nat W
  /\ (forall k, k < chunk_count n W -> k * Z.to_nat W < n).
Proof.
  intros HW. unfold chunk_count.
  set (q := ((Z.of_nat n + W - 1) / W)%Z).
  assert (Hq : (0 <= q)%Z) by (apply Z.div_pos; lia).
  assert (Hdm := Z.div_mod (Z.of_nat n + W - 1) W ltac:(lia)).
  assert (Hm := Z.mod_pos_bound (Z.of_nat n + W - 1) W HW).
  fold q in Hdm. split.
  - apply Nat2Z.inj_le. rewrite Nat2Z.inj_mul, !Z2Nat.id by lia. nia.
  - intros k Hk. apply Nat2Z.inj_lt. rewrite Nat2Z.inj_mul, Z2Nat.id by lia.
    assert (Z.of_nat k < q)%Z by lia. nia.
Qed.

Lemma slice_group {A : Type} (l : list A) (k : nat) (W : Z) :
  (0 < W)%Z -> k * Z.to_nat W <= length l ->
  slice l (0 + Z.of_nat k * W) (Z.min (0 + Z.of_nat k * W + W) (len l))
  = take (Z.to_nat W) (drop (k * Z.to_nat W) l).
Proof.
  intros HW Hk. unfold slice, clamp_index, len.
  assert (Hk' : (Z.of_nat k * W <= Z.of_nat (length l))%Z).
  { apply Nat2Z.inj_le in Hk. rewrite Nat2Z.inj_mul, Z2Nat.id in Hk; lia. }
  assert (H0 : (0 <= Z.of_nat k * W)%Z) by nia.
  destruct (Z.ltb_spec (0 + Z.of_nat k * W) 0); [lia|].
  destruct (Z.ltb_spec (Z.min (0 + Z.of_nat k * W + W) (Z.of_nat (length l))) 0); [lia|].
  replace (Z.to_nat (Z.min (0 + Z.of_nat k * W) (Z.of_nat (length l))))
    with (k * Z.to_nat W) by lia.
  set (d := drop (k * Z.to_nat W) l).
  assert (Hd : length d = length l - k * Z.to_nat W) by (apply length_drop).
  destruct (Z.le_ge_cases (Z.of_nat k * W + W) (Z.of_nat (length l))).
  - f_equal. lia.
  - replace (Z.to_nat _) with (length d) by lia.
    rewrite !take_ge; [reflexivity | lia | lia].
Qed.

Lemma chunk_text_groups (T : string) (W : Z) :
  (0 < W)%Z ->
  chunk_text T W
  = Ok (map (join " ")
          (groups (Z.to_nat W) (split T) (chunk_count (length (split T)) W))).
Proof.
  intros HW. unfold chunk_text, py_range, bind.
  destruct (Z.eqb_spec W 0); [lia|].
  destruct (Z.ltb_spec 0 W); [|lia].
  f_equal. unfold groups. rewrite !map_map.
  unfold len. rewrite Z.sub_0_r. fold (chunk_count (length (split T)) W).
  apply map_ext_in. intros k Hk. apply in_seq in Hk.
  f_equal. apply slice_group; [exact HW|].
  destruct (chunk_count_spec (length (split T)) W HW) as [_ H2].
  specialize (H2 k ltac:(lia)). lia.
Qed.

Lemma groups_words (w : nat) (l : list string) (c : nat) :
  Forall is_word l -> Forall (Forall is_word) (groups w l c).
Proof.
  intros H. unfold groups. apply Forall_forall. intros g Hg.
  apply list_elem_of_In, in_map_iff in Hg. destruct Hg as [k [<- _]].
  apply Forall_take, Forall_drop, H.
Qed.

Lemma concat_split_groups (gs : list (list string)) :
  Forall (Forall is_word) gs ->
  concat (map split (map (join " ") gs)) = concat gs.
Proof.
  induction 1 as [|g gs Hg _ IH]; [reflexivity|].
  simpl. now rewrite split_join_words, IH.
Qed.

(** ** The chunker *)

(** C1: for a positive chunk size the chunker returns chunks whose join
    by single spaces has the word sequence of the text (and is the text
    itself when the text is whitespace-normalized); the chunks are the
    consecutive groups of [W] words, so they partition the word sequence
    without overlap, every chunk but the last has exactly [W] words and
    none is empty; the empty text gives no chunk and a one-word text gives
    one chunk. *)
Theorem chunk_text_partition (T : string) (W : Z) :
  (0 < W)%Z ->
  exists chunks : list string,
    chunk_text T W = Ok chunks
    /\ split (join " " chunks) = split T
    /\ (normalized T -> join " " chunks = T)
    /\ concat (map split chunks) = split T
    /\ (forall i c, chunks !! i = Some c ->
          split c = take (Z.to_nat W) (drop (i * Z.to_nat W) (split T))
          /\ 1 <= length (split c) <= Z.to_nat W
          /\ (S i < length chunks -> length (split c) = Z.to_nat W))
    /\ (T = "" -> chunks = [])
    /\ (forall w, split T = [w] -> chunks = [w]).
Proof.
  intros HW.
  set (words := split T). set (w := Z.to_nat W).
  set (c := chunk_count (length words) W).
  set (gs := groups w words c).
  exists (map (join " ") gs).
  destruct (chunk_count_spec (length words) W HW) as [Hcover Hstart].
  fold c w in Hcover, Hstart.
  assert (Hwords : Forall is_word words) by apply split_words.
  assert (Hgs : Forall (Forall is_word) gs) by (apply groups_words, Hwords).
  assert (Hcat : concat gs = words) by (apply concat_groups, Hcover).
  assert (Hne : Forall (fun g => g <> []) gs).
  { apply Forall_forall. intros g Hg. apply list_elem_of_In, in_map_iff in Hg.
    destruct Hg as [k [<- Hk]]. apply in_seq in Hk.
    specialize (Hstart k ltac:(lia)). intros E.
    apply (f_equal length) in E. rewrite length_take, length_drop in E.
    simpl in E. lia. }
  split; [apply chunk_text_groups, HW|].
  split; [now rewrite split_join, concat_split_groups, Hcat|].
  split; [intros Hn; rewrite join_concat, Hcat by exact Hne; exact Hn|].
  split; [now rewrite concat_split_groups, Hcat|].
  split; [|split].
  - intros i ch Hi.
    change (map (join " ") gs) with (join " " <$> gs) in Hi.
    rewrite list_lookup_fmap in Hi.
    destruct (gs !! i) as [g|] eqn:Hg; [|discriminate].
    injection Hi as <-.
    assert (Hic : i < c).
    { apply lookup_lt_Some in Hg. unfold gs in Hg.
      now rewrite length_groups in Hg. }
    unfold gs in Hg. rewrite groups_lookup in Hg by exact Hic.
    injection Hg as <-.
    rewrite split_join_words
      by (apply Forall_take, Forall_drop, Hwords).
    split; [reflexivity|].
    rewrite length_take, length_drop. pose proof (Hstart i Hic) as Hi.
    split; [lia|]. rewrite length_map. unfold gs. rewrite length_groups.
    intros Hlast. specialize (Hstart (S i) Hlast). simpl in Hstart. lia.
  - intros ->. unfold gs, c, words. simpl length. unfold chunk_count.
    rewrite Z.div_small by lia. reflexivity.
  - intros x Hx. unfold gs, c. fold words in Hx. rewrite Hx. simpl length.
    unfold chunk_count. replace (Z.of_nat 1 + W - 1)%Z with (1 * W)%Z by lia.
    rewrite Z.div_mul by lia. simpl.
    unfold w. destruct (Z.to_nat W) eqn:E; [lia|].
    simpl. now rewrite take_nil.
Qed.

Lemma chunk_text_partition_witness :
  (0 < 2)%Z /\
  exists chunks : list string,
    chunk_text "a b c d e" 2 = Ok chunks
    /\ split (join " " chunks) = split "a b c d e"
    /\ (normalized "a b c d e" -> join " " chunks = "a b c d e")
    /\ concat (map split chunks) = split "a b c d e"
    /\ (forall i c, chunks !! i = Some c ->
          split c = take (Z.to_nat 2) (drop (i * Z.to_nat 2) (split "a b c d e"))
          /\ 1 <= length (split c) <= Z.to_nat 2
          /\ (S i < length chunks -> length (split c) = Z.to_nat 2))
    /\ ("a b c d e" = "" -> chunks = [])
    /\ (forall w, split "a b c d e" = [w] -> chunks = [w]).
Proof.
  split; [lia | apply (chunk_text_partition "a b c d e" 2); lia].
Defined.

(** ** The section extractor *)

Lemma contains_marker_head (s : string) :
  contains_marker s = false -> match_marker s = None.
Proof.
  intros H. destruct s as [|c s]; [reflexivity|].
  cbn [contains_marker] in H. apply orb_false_elim in H as [H _].
  unfold is_marker in H. destruct (match_marker _); congruence.
Qed.

Lemma split_markers_none (cur s : string) :
  contains_marker s = false -> split_markers 0 cur s = [cur +:+ s].
Proof.
  revert cur. induction s as [|c s IH]; intros cur H.
  - simpl. now rewrite append_nil_r.
  - pose proof (contains_marker_head _ H) as Hm.
    cbn [split_markers]. rewrite Hm.
    cbn [contains_marker] in H. apply orb_false_elim in H as [_ H].
    rewrite IH by exact H. now rewrite append_assoc.
Qed.

(** C7 as stated fails: a numbered item is neither a [Section N.]
    token nor a lettered sub-item token, yet the pattern of the code,
    whose class is the word characters, splits the text at it. *)
Lemma numbered_item_is_split :
  contains_spec_marker "Paragraph (1) applies" = false
  /\ strip "Paragraph (1) applies" <> ""
  /\ extract_sections "Paragraph (1) applies"
     = [ {| header := ""; content := "Paragraph " |};
         {| header := "(1)"; content := "applies" |} ]
  /\ extract_sections "Paragraph (1) applies"
     <> [ {| header := ""; content := "Paragraph (1) applies" |} ].
Proof.
  split; [vm_compute; reflexivity|]. split; [vm_compute; discriminate|].
  split; [vm_compute; reflexivity | vm_compute; discriminate].
Qed.

(** C7, amended: on a text in which the marker pattern of the code
    matches nowhere, that is a text with no [Section N.] token and no
    single word character (a letter, a digit or an underscore) between
    parentheses and followed by whitespace, the extractor returns the
    whole text as one section with an empty header when the text is not
    empty after trimming, and no section otherwise; in particular the
    empty text gives the empty list. *)
Theorem extract_sections_no_marker (text : string) :
  contains_marker text = false ->
  (strip text <> "" ->
     extract_sections text = [ {| header := ""; content := text |} ])
  /\ (strip text = "" -> extract_sections text = [])
  /\ extract_sections "" = [].
Proof.
  intros H. unfold extract_sections.
  rewrite split_markers_none by exact H.
  change ("" +:+ text) with text.
  pose proof (contains_marker_head _ H) as Hm.
  cbn [foldl section_step]. unfold is_marker. rewrite Hm.
  unfold close_section. cbn [content header].
  change ("" +:+ text) with text.
  repeat split.
  - intros Hs. apply is_empty_false in Hs. now rewrite Hs.
  - intros Hs. apply is_empty_true in Hs. now rewrite Hs.
Qed.

Lemma extract_sections_no_marker_witness :
  contains_marker "An Act to amend (the) law" = false
  /\ extract_sections "An Act to amend (the) law"
     = [ {| header := ""; content := "An Act to amend (the) law" |} ].
Proof.
  split; [reflexivity|].
  apply (extract_sections_no_marker "An Act to amend (the) law");
    [reflexivity | discriminate].
Defined.

(** ** The section breakdown *)

Section Breakdown.

Variable reply : list string -> string -> result (option string).

Lemma analyze_sections_spec (sections : list section) (log : list string) :
  exists prompts,
    snd (analyze_sections reply log sections) = log ++ prompts
    /\ length prompts <= length sections
    /\ (forall analysis,
          fst (analyze_sections reply log sections) = Ok analysis ->
          length prompts = length sections
          /\ map a_header analysis = map header sections)
    /\ (answers reply ->
        exists analysis, fst (analyze_sections reply log sections) = Ok analysis).
Proof.
  revert log. induction sections as [|s rest IH]; intros log.
  - exists []. simpl. rewrite app_nil_r.
    split; [reflexivity|]. split; [lia|].
    split; [intros a [= <-]; split; reflexivity | intros _; eauto].
  - cbn [analyze_sections].
    set (prompt := section_prompt _ _).
    destruct (reply log prompt) as [response|e] eqn:Hr.
    + destruct (IH (log ++ [prompt])) as (prompts & Hlog & Hlen & Hok & Hans).
      destruct (analyze_sections reply (log ++ [prompt]) rest) as [r log'].
      simpl in Hlog, Hok, Hans. exists (prompt :: prompts). simpl.
      split; [now rewrite Hlog, <- app_assoc|].
      split; [lia|]. split.
      * intros analysis Ha. destruct r as [a|e]; [|discriminate].
        injection Ha as <-. destruct (Hok a eq_refl) as [H1 H2].
        simpl. now rewrite H1, H2.
      * intros Hall. destruct (Hans Hall) as [a ->]. eauto.
    + exists [prompt]. simpl. repeat split; [lia | discriminate | discriminate |].
      intros Hall. destruct (Hall log prompt) as [x Hx]. congruence.
Qed.

(** C8: the breakdown sends at most ten requests, one for each of the
    first ten sections; its result is one entry for each of them, in
    order, followed, when there are more than ten sections, by exactly one
    note that names their number; it has a result whenever the provider
    answers reply.  With fifteen sections: ten requests, ten entries and one
    note, whose text mentions 15 and 10. *)
Theorem section_breakdown_cap (log : list string) (sections : list section) :
  let n := length sections in
  let out := generate_section_breakdown reply log sections in
  exists prompts,
    snd out = log ++ prompts
    /\ length prompts <= 10
    /\ (forall analysis, fst out = Ok analysis ->
          length prompts = Nat.min 10 n
          /\ exists entries,
               analysis = entries ++ (if (10 <? n)%nat then [limit_note n] else [])
               /\ map a_header entries = map header (take 10 sections))
    /\ (answers reply -> exists analysis, fst out = Ok analysis)
    /\ (n = 15 -> forall analysis, fst out = Ok analysis ->
          length prompts = 10
          /\ exists entries,
               analysis = entries ++ [limit_note 15]
               /\ length entries = 10
               /\ contains "15" (note_text 15) = true
               /\ contains "10" (note_text 15) = true).
Proof.
  intros n out.
  set (todo := if (10 <? length sections)%nat then take 10 sections else sections).
  assert (Htodo : todo = take 10 sections).
  { unfold todo. destruct (Nat.ltb_spec 10 (length sections)); [reflexivity|].
    now rewrite take_ge. }
  destruct (analyze_sections_spec todo log) as (prompts & Hlog & Hlen & Hok & Hans).
  assert (Hout : out = (match fst (analyze_sections reply log todo) with
                        | Ok analysis =>
                            Ok (if (10 <? n)%nat
                                then analysis ++ [limit_note n] else analysis)
                        | Raise e => Raise e
                        end, snd (analyze_sections reply log todo))).
  { unfold out, generate_section_breakdown. fold todo.
    destruct (analyze_sections reply log todo) as [r l]. reflexivity. }
  assert (Hlt : length todo = Nat.min 10 n).
  { rewrite Htodo, length_take. reflexivity. }
  assert (Hgen : forall analysis, fst out = Ok analysis ->
            length prompts = Nat.min 10 n
            /\ exists entries,
                 analysis = entries ++ (if (10 <? n)%nat then [limit_note n] else [])
                 /\ map a_header entries = map header (take 10 sections)).
  { intros analysis Ha. rewrite Hout in Ha. simpl in Ha.
    destruct (fst (analyze_sections reply log todo)) as [a|e]; [|discriminate].
    destruct (Hok a eq_refl) as [H1 H2]. split; [lia|].
    exists a. rewrite <- Htodo. split; [|exact H2].
    injection Ha as <-. destruct (10 <? n)%nat; [reflexivity|].
    now rewrite app_nil_r. }
  exists prompts. rewrite Hout. cbn [fst snd].
  split; [exact Hlog|]. split; [lia|].
  split; [intros a Ha; apply Hgen; now rewrite Hout|].
  split.
  - intros Hall. destruct (Hans Hall) as [a ->]. eauto.
  - intros Hn analysis Ha.
    destruct (Hgen analysis ltac:(now rewrite Hout)) as (Hp & entries & He & Hh).
    rewrite Hn in Hp, He. split; [exact Hp|].
    exists entries. split; [exact He|]. split.
    + apply (f_equal (@length _)) in Hh.
      rewrite !length_map, length_take in Hh. fold n in Hh. lia.
    + split; reflexivity.
Qed.

End Breakdown.

(** ** The context composer *)

Section Composer.

Variable py_str : pyvalue -> string.
Variable reply : list string -> string -> result (option string).

Lemma context_window_take (context : list context_item) :
  context_window context = take 5 context.
Proof.
  unfold context_window. destruct (Nat.ltb_spec 5 (length context)); [reflexivity|].
  now rewrite take_ge.
Qed.

Lemma context_window_idem (context : list context_item) :
  context_window (take 5 context) = context_window context.
Proof. now rewrite !context_window_take, take_take. Qed.

(** C9: the composer keeps the first five retrieved items, in their
    order, and no more; the prompt it composes, and so the request it
    sends, is the one composed from these five items, whatever the number
    of items retrieved. *)
Theorem composer_context_cap (log : list string) (question : string)
    (context : list context_item) (metadata : gmap string pyvalue) :
  context_window context = take 5 context
  /\ length (context_window context) <= 5
  /\ compose_prompt py_str question context metadata
     = compose_prompt py_str question (take 5 context) metadata
  /\ generate_contextualized_response py_str reply log question context metadata
     = generate_contextualized_response py_str reply log question
         (take 5 context) metadata
  /\ (forall prompt,
        compose_prompt py_str question context metadata = Ok prompt ->
        exists title congress sponsor bill_type,
          prompt = answer_prompt title congress sponsor bill_type
                     (join (nl +:+ nl) (map (render_item py_str) (take 5 context)))
                     question).
Proof.
  assert (Hc : compose_prompt py_str question context metadata
               = compose_prompt py_str question (take 5 context) metadata).
  { unfold compose_prompt. now rewrite context_window_idem. }
  split; [apply context_window_take|].
  split; [rewrite context_window_take, length_take; lia|].
  split; [exact Hc|].
  split; [unfold generate_contextualized_response; now rewrite Hc|].
  intros prompt. unfold compose_prompt, getitem, bind.
  rewrite context_window_take.
  destruct (metadata !! "title"); [|discriminate].
  destruct (metadata !! "congress"); [|discriminate].
  destruct (metadata !! "sponsor"); [|discriminate].
  destruct (metadata !! "bill_type"); [|discriminate].
  intros [= <-]. eauto.
Qed.

End Composer.

(** ** The embedding index *)

Section Index.

Variable py_str : pyvalue -> string.
Variable distance : string -> string -> pyfloat.
Variable store_other : pyvalue -> result pyvalue.
Variable embed : list string -> result unit.

Lemma lookup_sanitize (bill_id k : string) (metadata : gmap string pyvalue) :
  k <> "bill_id" ->
  sanitize_metadata py_str bill_id metadata !! k
  = sanitize_value py_str <$> metadata !! k.
Proof.
  intros Hk. unfold sanitize_metadata.
  rewrite lookup_insert_ne by congruence. apply lookup_fmap.
Qed.

Lemma lookup_sanitize_bill_id (bill_id : string) (metadata : gmap string pyvalue) :
  sanitize_metadata py_str bill_id metadata !! "bill_id" = Some (PStr bill_id).
Proof. unfold sanitize_metadata. apply lookup_insert_eq. Qed.

(** *** What the store keeps of the metadata *)

Lemma store_metadata_kept (m kept : gmap string pyvalue) :
  store_metadata store_other m = Ok kept ->
  (forall k v, m !! k = Some v ->
     exists v', store_value store_other v = Ok v' /\ kept !! k = Some v')
  /\ (forall k, m !! k = None -> kept !! k = None).
Proof.
  unfold store_metadata.
  destruct (omap _ (map_to_list m)) as [|e l] eqn:E; [|discriminate].
  intros [= <-]. split.
  - intros k v Hk. rewrite lookup_omap, Hk. simpl.
    destruct (store_value store_other v) as [v'|e] eqn:Hv; [eauto|].
    exfalso. assert (H : e ∈ omap (fun kv => failure (store_value store_other kv.2))
                               (map_to_list m)).
    { apply list_elem_of_omap. exists (k, v).
      split; [now apply elem_of_map_to_list | simpl; now rewrite Hv]. }
    rewrite E in H. now apply elem_of_nil in H.
  - intros k Hk. now rewrite lookup_omap, Hk.
Qed.

Lemma store_metadata_accepts (m : gmap string pyvalue) :
  (forall k v, m !! k = Some v -> failure (store_value store_other v) = None) ->
  exists kept, store_metadata store_other m = Ok kept.
Proof.
  intros H. unfold store_metadata.
  destruct (omap _ (map_to_list m)) as [|e l] eqn:E; [eauto|].
  exfalso. assert (He : e ∈ omap (fun kv => failure (store_value store_other kv.2))
                             (map_to_list m))
    by (rewrite E; apply list_elem_of_here).
  apply list_elem_of_omap in He as ([k v] & Hin & Hf).
  apply elem_of_map_to_list in Hin. simpl in Hf.
  now rewrite (H k v Hin) in Hf.
Qed.

Lemma store_metadatas_replicate (n : nat) (m : gmap string pyvalue) :
  store_metadatas store_other (replicate (S n) m)
  = try kept <- store_metadata store_other m in Ok (replicate (S n) kept).
Proof.
  induction n as [|n IH].
  - simpl. now destruct (store_metadata store_other m).
  - change (replicate (S (S n)) m) with (m :: replicate (S n) m).
    cbn [store_metadatas]. rewrite IH.
    now destruct (store_metadata store_other m).
Qed.

(** *** The entries of a call *)

Lemma chunk_entries_lookup (bill_id : string) (chunks : list string)
    (m : gmap string pyvalue) (i : nat) (chunk : string) :
  chunks !! i = Some chunk ->
  chunk_entries bill_id chunks m !! i
  = Some (Entry (chunk_id bill_id i) chunk m).
Proof.
  intros Hi. pose proof (lookup_lt_Some _ _ _ Hi) as Hlt.
  unfold chunk_entries, zip3, chunk_ids.
  rewrite lookup_zip_with, lookup_zip_with.
  change (map ?f ?l) with (f <$> l).
  rewrite list_lookup_fmap, lookup_seq_lt by exact Hlt.
  rewrite Hi, lookup_replicate_2 by exact Hlt. reflexivity.
Qed.

Lemma chunk_entries_meta (bill_id : string) (chunks : list string)
    (m : gmap string pyvalue) :
  Forall (fun e => e_meta e = m) (chunk_entries bill_id chunks m).
Proof.
  apply Forall_lookup. intros i e He.
  unfold chunk_entries, zip3 in He. rewrite lookup_zip_with in He.
  destruct (zip _ _ !! i) as [p|]; [|discriminate]. simpl in He.
  destruct (replicate _ _ !! i) as [m'|] eqn:Hm; [|discriminate].
  apply lookup_replicate in Hm as [-> _]. now injection He as <-.
Qed.

Lemma has_id_app (a b : list entry) (i : string) :
  has_id (a ++ b) i = has_id a i || has_id b i.
Proof. unfold has_id. apply existsb_app. Qed.

Lemma has_id_elem (c : list entry) (e : entry) :
  e ∈ c -> has_id c (e_id e) = true.
Proof.
  intros He. unfold has_id. apply existsb_exists. exists e.
  split; [now apply list_elem_of_In | apply String.eqb_refl].
Qed.

(** The outcome of a call that the store accepts: what [add] does with
    the entries under the policy. *)
Lemma store_accepted (policy : add_policy) (c : list entry) (bill_id : string)
    (chunks : list string) (metadata kept : gmap string pyvalue) :
  chunks <> [] ->
  store_metadata store_other (sanitize_metadata py_str bill_id metadata)
  = Ok kept ->
  embed chunks = Ok tt ->
  store_bill_chunks py_str policy store_other embed c bill_id chunks metadata
  = match policy with
    | RejectCall =>
        if existsb (fun e => has_id c (e_id e))
             (chunk_entries bill_id chunks kept)
        then Raise StoreError
        else Ok (c ++ chunk_entries bill_id chunks kept)
    | _ => Ok (c ++ added_entries policy c (chunk_entries bill_id chunks kept))
    end.
Proof.
  intros Hne Hk He. unfold store_bill_chunks, collection_add.
  destruct chunks as [|chunk rest]; [congruence|].
  cbn [length chunk_ids seq map].
  rewrite store_metadatas_replicate, Hk. cbn [bind]. rewrite He. cbn [bind].
  destruct policy; reflexivity.
Qed.

(** A call that returns was accepted by the store. *)
Lemma store_ok (policy : add_policy) (c c' : list entry) (bill_id : string)
    (chunks : list string) (metadata : gmap string pyvalue) :
  store_bill_chunks py_str policy store_other embed c bill_id chunks metadata
  = Ok c' ->
  chunks <> [] /\ embed chunks = Ok tt
  /\ exists kept,
       store_metadata store_other (sanitize_metadata py_str bill_id metadata)
       = Ok kept
       /\ c' = c ++ added_entries policy c (chunk_entries bill_id chunks kept).
Proof.
  intros H.
  assert (Hne : chunks <> []).
  { intros ->. discriminate H. }
  split; [exact Hne|].
  destruct (store_metadata store_other
              (sanitize_metadata py_str bill_id metadata)) as [kept|e] eqn:Hk.
  - destruct (embed chunks) as [[]|e] eqn:He.
    + split; [reflexivity|]. exists kept. split; [reflexivity|].
      rewrite (store_accepted policy c _ _ _ _ Hne Hk He) in H.
      destruct policy; simpl in *.
      * now injection H as <-.
      * destruct (existsb _ _); [discriminate | now injection H as <-].
      * now injection H as <-.
    + exfalso. unfold store_bill_chunks, collection_add in H.
      destruct chunks as [|chunk rest]; [congruence|].
      cbn [length chunk_ids seq map] in H.
      rewrite store_metadatas_replicate, Hk in H. cbn [bind] in H.
      rewrite He in H. discriminate.
  - exfalso. unfold store_bill_chunks, collection_add in H.
    destruct chunks as [|chunk rest]; [congruence|].
    cbn [length chunk_ids seq map] in H.
    rewrite store_metadatas_replicate, Hk in H. discriminate.
Qed.

Lemma store_no_chunks (policy : add_policy) (c : list entry) (bill_id : string)
    (metadata : gmap string pyvalue) :
  store_bill_chunks py_str policy store_other embed c bill_id [] metadata
  = Raise ValueError.
Proof. reflexivity. Qed.

(** A value that the store refuses makes the call raise. *)
Lemma store_refused (policy : add_policy) (c : list entry) (bill_id : string)
    (chunks : list string) (metadata : gmap string pyvalue) (k : string)
    (v : pyvalue) (e : exn) :
  sanitize_metadata py_str bill_id metadata !! k = Some v ->
  store_value store_other v = Raise e ->
  exists e', store_bill_chunks py_str policy store_other embed c bill_id chunks
               metadata = Raise e'.
Proof.
  intros Hk Hv.
  destruct (store_bill_chunks py_str policy store_other embed c bill_id chunks
              metadata) as [c'|e'] eqn:H; [|eauto].
  apply store_ok in H as (_ & _ & kept & Hkept & _).
  apply store_metadata_kept in Hkept as [Hkept _].
  destruct (Hkept k v Hk) as (v' & Hv' & _). congruence.
Qed.

Lemma added_entries_sub (policy : add_policy) (c new : list entry) (e : entry) :
  e ∈ added_entries policy c new -> e ∈ new.
Proof.
  destruct policy; simpl; try tauto.
  intros He. now apply list_elem_of_filter in He as [_ He].
Qed.

Lemma added_entries_meta (policy : add_policy) (c : list entry)
    (bill_id : string) (chunks : list string) (m : gmap string pyvalue) :
  Forall (fun e => e_meta e = m)
    (added_entries policy c (chunk_entries bill_id chunks m)).
Proof.
  pose proof (chunk_entries_meta bill_id chunks m) as H.
  apply Forall_forall. intros e He. apply added_entries_sub in He.
  revert e He. now apply Forall_forall.
Qed.

Lemma added_entries_empty (policy : add_policy) (new : list entry) :
  added_entries policy [] new = new.
Proof.
  destruct policy; simpl; try reflexivity.
  induction new as [|e l IH]; [reflexivity|].
  rewrite filter_cons_True by reflexivity. now rewrite IH.
Qed.

(** Into an empty index the call stores its entries under every policy. *)
Lemma store_empty (policy : add_policy) (bill_id : string)
    (chunks : list string) (metadata kept : gmap string pyvalue) :
  chunks <> [] ->
  store_metadata store_other (sanitize_metadata py_str bill_id metadata)
  = Ok kept ->
  embed chunks = Ok tt ->
  store_bill_chunks py_str policy store_other embed [] bill_id chunks metadata
  = Ok (chunk_entries bill_id chunks kept).
Proof.
  intros Hne Hk He. rewrite (store_accepted policy [] _ _ _ _ Hne Hk He).
  destruct policy.
  - reflexivity.
  - replace (existsb _ _) with false; [reflexivity|].
    symmetry. induction (chunk_entries _ _ _); [reflexivity | simpl; assumption].
  - now rewrite added_entries_empty.
Qed.

Lemma store_empty_ok (policy : add_policy) (c' : list entry) (bill_id : string)
    (chunks : list string) (metadata : gmap string pyvalue) :
  store_bill_chunks py_str policy store_other embed [] bill_id chunks metadata
  = Ok c' ->
  exists kept,
    store_metadata store_other (sanitize_metadata py_str bill_id metadata)
    = Ok kept
    /\ c' = chunk_entries bill_id chunks kept.
Proof.
  intros H. apply store_ok in H as (_ & _ & kept & Hk & ->).
  exists kept. split; [exact Hk|]. now rewrite added_entries_empty.
Qed.

(** After a successful call every chunk id of the call is in the index. *)
Lemma store_has_ids (policy : add_policy) (c c' : list entry) (bill_id : string)
    (chunks : list string) (metadata : gmap string pyvalue) (i : nat) :
  store_bill_chunks py_str policy store_other embed c bill_id chunks metadata
  = Ok c' ->
  i < length chunks -> has_id c' (chunk_id bill_id i) = true.
Proof.
  intros Hs Hi. apply store_ok in Hs as (_ & _ & kept & _ & ->).
  destruct (lookup_lt_is_Some_2 chunks i Hi) as [chunk Hc].
  pose proof (chunk_entries_lookup bill_id _ kept _ _ Hc) as He.
  set (e := Entry (chunk_id bill_id i) chunk _) in He.
  assert (Hin : e ∈ chunk_entries bill_id chunks kept)
    by (apply list_elem_of_lookup; eauto).
  rewrite has_id_app. destruct (has_id c (chunk_id bill_id i)) eqn:Hc0;
    [reflexivity|]. simpl.
  change (chunk_id bill_id i) with (e_id e). apply has_id_elem.
  destruct policy; simpl; try exact Hin.
  apply list_elem_of_filter. split; [exact Hc0 | exact Hin].
Qed.

Lemma chunk_entries_ids (bill_id : string) (chunks : list string)
    (m : gmap string pyvalue) (e : entry) :
  e ∈ chunk_entries bill_id chunks m ->
  exists i, i < length chunks /\ e_id e = chunk_id bill_id i.
Proof.
  intros He. apply list_elem_of_lookup in He as [i He].
  unfold chunk_entries, zip3 in He. rewrite lookup_zip_with in He.
  destruct (zip _ _ !! i) as [[a d]|] eqn:Hz; [|discriminate]. simpl in He.
  destruct (replicate _ _ !! i) as [m'|]; [|discriminate].
  injection He as <-. simpl.
  rewrite lookup_zip_with in Hz.
  destruct (chunk_ids _ _ !! i) as [a'|] eqn:Ha; [|discriminate]. simpl in Hz.
  destruct (chunks !! i) as [d'|] eqn:Hd; [|discriminate].
  injection Hz as -> ->. exists i.
  pose proof (lookup_lt_Some _ _ _ Hd) as Hlt. split; [exact Hlt|].
  unfold chunk_ids in Ha. change (map ?f ?l) with (f <$> l) in Ha.
  rewrite list_lookup_fmap, lookup_seq_lt in Ha by exact Hlt.
  now injection Ha as <-.
Qed.

Lemma filter_absent_nil (c l : list entry) :
  Forall (fun e => has_id c (e_id e) = true) l ->
  filter (fun e => has_id c (e_id e) = false) l = [].
Proof.
  induction 1 as [|e l He _ IH]; [reflexivity|].
  rewrite filter_cons_False by congruence. exact IH.
Qed.

Lemma collection_get_cons (e : entry) (c : list entry) (i : string) :
  collection_get (e :: c) i
  = if String.eqb (e_id e) i then e :: collection_get c i
    else collection_get c i.
Proof.
  unfold collection_get. destruct (String.eqb (e_id e) i) eqn:E.
  - now rewrite filter_cons_True.
  - rewrite filter_cons_False; [reflexivity | congruence].
Qed.

(** C2, amended: a value that is an empty list is sanitized to the
    empty string and a value that is an empty dict to the text of the
    empty dict, under their own keys (any key but [bill_id], which the
    store operation sets itself), and no key of the metadata is left
    out.  Whenever the call returns, every entry that it stores, hence
    every entry retrieved after storing into an empty index, carries
    these strings under these keys.  The call into an empty index returns
    when the chunk list is not empty, the store accepts every sanitized
    value and its embedding provider returns; it raises on an empty chunk
    list and on a [None] value, which the sanitizer lets through. *)
Theorem store_sanitizes_empty_collections (policy : add_policy)
    (bill_id : string) (chunks : list string)
    (metadata : gmap string pyvalue) (k : string) :
  k <> "bill_id" ->
  let sm := sanitize_metadata py_str bill_id metadata in
  let kept_as_sanitized (m : gmap string pyvalue) :=
    (metadata !! k = Some (PList []) -> m !! k = Some (PStr ""))
    /\ (metadata !! k = Some (PDict []) -> m !! k = Some (PStr "{}"))
    /\ (is_Some (metadata !! k) -> is_Some (m !! k)) in
  kept_as_sanitized sm
  /\ (forall c c',
        store_bill_chunks py_str policy store_other embed c bill_id chunks
          metadata = Ok c' ->
        exists added,
          c' = c ++ added
          /\ Forall (fun e => kept_as_sanitized (e_meta e)) added)
  /\ (forall c',
        store_bill_chunks py_str policy store_other embed [] bill_id chunks
          metadata = Ok c' ->
        (forall i chunk, chunks !! i = Some chunk ->
           exists e, e ∈ collection_get c' (chunk_id bill_id i)
                     /\ e_doc e = chunk)
        /\ (forall i e, e ∈ collection_get c' i -> kept_as_sanitized (e_meta e)))
  /\ (chunks <> [] ->
      (forall key v, sm !! key = Some v ->
         failure (store_value store_other v) = None) ->
      embed chunks = Ok tt ->
      exists c',
        store_bill_chunks py_str policy store_other embed [] bill_id chunks
          metadata = Ok c')
  /\ (forall c,
        chunks = [] \/ metadata !! k = Some PNone ->
        exists e,
          store_bill_chunks py_str policy store_other embed c bill_id chunks
            metadata = Raise e).
Proof.
  intros Hk sm kept_as_sanitized.
  assert (Hsm : kept_as_sanitized sm).
  { unfold kept_as_sanitized, sm. repeat split.
    - intros H. now rewrite lookup_sanitize, H by exact Hk.
    - intros H. now rewrite lookup_sanitize, H by exact Hk.
    - intros [v H]. rewrite lookup_sanitize, H by exact Hk. simpl. eauto. }
  assert (Hkept : forall kept, store_metadata store_other sm = Ok kept ->
                    kept_as_sanitized kept).
  { intros kept H. apply store_metadata_kept in H as [H _].
    destruct Hsm as (H1 & H2 & H3). repeat split.
    - intros Hm. destruct (H _ _ (H1 Hm)) as (v' & Hv & ->).
      now injection Hv as <-.
    - intros Hm. destruct (H _ _ (H2 Hm)) as (v' & Hv & ->).
      now injection Hv as <-.
    - intros Hm. destruct (H3 Hm) as [v Hv].
      destruct (H _ _ Hv) as (v' & _ & ->). eauto. }
  split; [exact Hsm|]. split; [|split; [|split]].
  - intros c c' Hs. apply store_ok in Hs as (_ & _ & kept & Hm & ->).
    eexists. split; [reflexivity|].
    eapply Forall_impl; [apply added_entries_meta|].
    intros e ->. now apply Hkept.
  - intros c' Hs. apply store_empty_ok in Hs as (kept & Hm & ->). split.
    + intros i chunk Hi. exists (Entry (chunk_id bill_id i) chunk kept).
      split; [|reflexivity]. unfold collection_get. apply list_elem_of_filter.
      split; [apply String.eqb_refl|].
      apply list_elem_of_lookup. exists i. now apply chunk_entries_lookup.
    + intros i e He. unfold collection_get in He.
      apply list_elem_of_filter in He as [_ He].
      pose proof (chunk_entries_meta bill_id chunks kept) as H.
      rewrite Forall_forall in H. rewrite (H e He). now apply Hkept.
  - intros Hne Hv He.
    destruct (store_metadata_accepts sm Hv) as [kept Hm].
    exists (chunk_entries bill_id chunks kept). now apply store_empty.
  - intros c [-> | Hm]; [eexists; apply store_no_chunks|].
    apply (store_refused policy c bill_id chunks metadata k PNone TypeError);
      [|reflexivity].
    now rewrite lookup_sanitize, Hm by exact Hk.
Qed.

(** C3, amended: a second call for the same bill never overwrites.  The
    index after a successful call is the index before it followed by
    entries of the call, so what was stored stays as it was.  What becomes
    of the repeated chunk ids, when the store accepts the batch of the
    second call, is the policy of the store: they are added beside the old
    entries, or the call is rejected, or the new entries are dropped. *)
Theorem second_store_keeps_first (policy : add_policy) (c c1 : list entry)
    (bill_id : string) (chunks1 chunks2 : list string)
    (md1 md2 : gmap string pyvalue) :
  store_bill_chunks py_str policy store_other embed c bill_id chunks1 md1
  = Ok c1 ->
  (forall c2,
     store_bill_chunks py_str policy store_other embed c1 bill_id chunks2 md2
     = Ok c2 ->
     exists kept added,
       store_metadata store_other (sanitize_metadata py_str bill_id md2)
       = Ok kept
       /\ c2 = c1 ++ added
       /\ forall e, e ∈ added -> e ∈ chunk_entries bill_id chunks2 kept)
  /\ (forall kept,
        chunks2 <> [] ->
        store_metadata store_other (sanitize_metadata py_str bill_id md2)
        = Ok kept ->
        embed chunks2 = Ok tt ->
        match policy with
        | KeepBoth =>
            store_bill_chunks py_str policy store_other embed c1 bill_id
              chunks2 md2
            = Ok (c1 ++ chunk_entries bill_id chunks2 kept)
        | RejectCall =>
            store_bill_chunks py_str policy store_other embed c1 bill_id
              chunks2 md2
            = Raise StoreError
        | SkipExisting =>
            length chunks2 <= length chunks1 ->
            store_bill_chunks py_str policy store_other embed c1 bill_id
              chunks2 md2 = Ok c1
        end).
Proof.
  intros H1. split.
  - intros c2 H2. apply store_ok in H2 as (_ & _ & kept & Hm & ->).
    exists kept. eexists. split; [exact Hm|]. split; [reflexivity|].
    intros e. apply added_entries_sub.
  - intros kept Hne2 Hm He.
    pose proof (fun i => store_has_ids _ _ _ _ _ _ i H1) as Hids.
    apply store_ok in H1 as (Hne1 & _).
    rewrite (store_accepted policy c1 _ _ _ _ Hne2 Hm He).
    destruct policy.
    + reflexivity.
    + destruct chunks2 as [|chunk2 rest2]; [congruence|].
      destruct chunks1 as [|chunk1 rest1]; [congruence|].
      replace (existsb _ _) with true; [reflexivity|].
      symmetry. apply existsb_exists.
      exists (Entry (chunk_id bill_id 0) chunk2 kept).
      split; [| apply Hids; simpl; lia].
      apply list_elem_of_In, list_elem_of_lookup. exists 0.
      now apply chunk_entries_lookup.
    + intros Hlen. simpl. rewrite filter_absent_nil; [now rewrite app_nil_r|].
      apply Forall_forall. intros e Hin.
      apply chunk_entries_ids in Hin as (i & Hi & ->). apply Hids. lia.
Qed.

(** *** Retrieval *)

Lemma insert_ranked_elem {A : Type} (x y : A * pyfloat) (l : list (A * pyfloat)) :
  y ∈ insert_ranked x l -> y = x \/ y ∈ l.
Proof.
  induction l as [|z l IH]; simpl.
  - intros H. apply list_elem_of_singleton in H. now left.
  - destruct (float_leb (snd z) (snd x)).
    + rewrite !elem_of_cons. intros [H | H]; [tauto|].
      destruct (IH H); tauto.
    + rewrite !elem_of_cons. tauto.
Qed.

Lemma rank_elem {A : Type} (y : A * pyfloat) (l : list (A * pyfloat)) :
  y ∈ rank l -> y ∈ l.
Proof.
  unfold rank. induction l as [|x l IH]; simpl; [tauto|].
  intros H. apply insert_ranked_elem in H as [-> | H].
  - apply elem_of_cons. now left.
  - apply elem_of_cons. right. now apply IH.
Qed.

(** A query returns exactly when its number of results is not zero and
    the provider embeds the question. *)
Lemma get_relevant_context_returns (c : list entry) (question bill_id : string)
    (k : nat) :
  k <> 0 -> embed [question] = Ok tt ->
  exists items, get_relevant_context distance embed c question bill_id k
                = Ok items.
Proof.
  intros Hk He. unfold get_relevant_context, collection_query.
  destruct k as [|k]; [congruence|]. rewrite He. cbn [bind]. eauto.
Qed.

Lemma get_relevant_context_ok (c : list entry) (question bill_id : string)
    (k : nat) (items : list context_item) :
  get_relevant_context distance embed c question bill_id k = Ok items ->
  k <> 0 /\ embed [question] = Ok tt
  /\ items
     = map (fun r =>
              {| c_text := e_doc (fst r);
                 c_section := meta_get (e_meta (fst r)) "section" (PStr "Unknown");
                 c_relevance_score := snd r |})
         (take k (rank (map (fun e => (e, distance question (e_doc e)))
                          (filter (fun e => meta_is (e_meta e) "bill_id" bill_id
                                            = true) c)))).
Proof.
  unfold get_relevant_context, collection_query.
  destruct k as [|k]; [discriminate|].
  destruct (embed [question]) as [[]|e]; [|discriminate].
  cbn [bind]. intros [= <-]. auto.
Qed.

(** Every retrieved item is an entry of the index, of the bill asked
    for, with the section label read from the metadata of the entry and
    the distance of the question to its text. *)
Lemma retrieved_from_index (c : list entry) (question bill_id : string)
    (k : nat) (items : list context_item) (item : context_item) :
  get_relevant_context distance embed c question bill_id k = Ok items ->
  item ∈ items ->
  exists e, e ∈ c
    /\ e_meta e !! "bill_id" = Some (PStr bill_id)
    /\ c_text item = e_doc e
    /\ c_section item = meta_get (e_meta e) "section" (PStr "Unknown")
    /\ c_relevance_score item = distance question (e_doc e).
Proof.
  intros Hq H. apply get_relevant_context_ok in Hq as (_ & _ & ->).
  change (map ?f ?l) with (f <$> l) in H.
  apply list_elem_of_fmap in H as [[e d] [-> H]].
  apply elem_of_take in H as (i & H & _).
  assert (He : (e, d) ∈ rank ((fun e => (e, distance question (e_doc e)))
            <$> filter (fun e => meta_is (e_meta e) "bill_id" bill_id = true) c))
    by (apply list_elem_of_lookup; eauto).
  apply rank_elem, list_elem_of_fmap in He as [e' [[= -> ->] He]].
  apply list_elem_of_filter in He as [Hm He].
  exists e'. split; [exact He|]. split; [|repeat split; reflexivity].
  unfold meta_is in Hm. destruct (e_meta e' !! "bill_id") as [[s| | | | | | |]|];
    try discriminate.
  apply String.eqb_eq in Hm. now subst.
Qed.

Lemma built_no_section (policy : add_policy) (c : list entry) :
  built_without_section py_str policy store_other embed c ->
  Forall (fun e => e_meta e !! "section" = None) c.
Proof.
  induction 1 as [|c c' bill_id chunks metadata _ IH Hmd Hs]; [constructor|].
  apply store_ok in Hs as (_ & _ & kept & Hk & ->).
  apply Forall_app. split; [exact IH|].
  eapply Forall_impl; [apply added_entries_meta|].
  intros e ->. simpl. apply store_metadata_kept in Hk as [_ Hk]. apply Hk.
  rewrite lookup_sanitize by discriminate. now rewrite Hmd.
Qed.

(** C10, amended: the store operation writes the keys of the metadata
    it is given and [bill_id], no key of its own; so when no metadata
    given to it has a [section] key, every item that a query returns has
    the section label [Unknown].  A query returns when its number of
    results is not zero and the provider embeds the question. *)
Theorem retrieved_section_unknown (policy : add_policy) (c : list entry)
    (question bill_id : string) (k : nat) (items : list context_item)
    (item : context_item) :
  built_without_section py_str policy store_other embed c ->
  get_relevant_context distance embed c question bill_id k = Ok items ->
  item ∈ items ->
  c_section item = PStr "Unknown"
  /\ (forall b md key, key <> "bill_id" ->
        sanitize_metadata py_str b md !! key = sanitize_value py_str <$> md !! key)
  /\ (forall c0 q b n, n <> 0 -> embed [q] = Ok tt ->
        exists found, get_relevant_context distance embed c0 q b n = Ok found).
Proof.
  intros Hb Hq Hi.
  split; [|split; [intros b md key Hk; now apply lookup_sanitize
                  | intros; now apply get_relevant_context_returns]].
  destruct (retrieved_from_index _ _ _ _ _ _ Hq Hi) as (e & He & _ & _ & -> & _).
  apply built_no_section in Hb. rewrite Forall_forall in Hb.
  unfold meta_get. now rewrite (Hb e He).
Qed.

End Index.

(** *** Instances *)

(** C2 as stated fails on an empty dict: it is stored as the text of the
    empty dict, not as the empty string. *)
Lemma empty_dict_not_empty_string :
  ({["subjects" := PDict []]} : gmap string pyvalue) !! "subjects"
  = Some (PDict [])
  /\ forall policy, exists e,
       store_bill_chunks sample_str policy sample_store_other sample_embed []
         "118-hr-1" ["text"] {["subjects" := PDict []]} = Ok [e]
       /\ collection_get [e] "118-hr-1_chunk_0" = [e]
       /\ e_meta e !! "subjects" = Some (PStr "{}")
       /\ e_meta e !! "subjects" <> Some (PStr "").
Proof.
  split; [reflexivity|]. intros policy.
  exists (Entry "118-hr-1_chunk_0" "text"
            (sanitize_metadata sample_str "118-hr-1" {["subjects" := PDict []]})).
  split; [destruct policy; vm_compute; reflexivity|].
  split; [vm_compute; reflexivity|].
  split; [vm_compute; reflexivity|].
  vm_compute. discriminate.
Qed.

Lemma store_sanitizes_empty_collections_witness :
  "committees" <> "bill_id"
  /\ sanitize_metadata sample_str "118-hr-1"
       {["committees" := PList []; "subjects" := PDict []]} !! "committees"
     = Some (PStr "").
Proof.
  split; [discriminate|].
  apply (store_sanitizes_empty_collections sample_str sample_store_other
           sample_embed SkipExisting "118-hr-1"
           ["text"] {["committees" := PList []; "subjects" := PDict []]}
           "committees"); [discriminate | reflexivity].
Defined.

(** C3 as stated fails under each policy of the store: a second call
    with a new text for the same bill leaves two entries under the chunk
    id, or raises, or leaves the old text in place. *)
Lemma second_store_does_not_overwrite :
  ~ overwrites sample_str KeepBoth sample_store_other sample_embed
      "118-hr-1" ["old text"] ∅ ["new text"] ∅
  /\ ~ overwrites sample_str RejectCall sample_store_other sample_embed
         "118-hr-1" ["old text"] ∅ ["new text"] ∅
  /\ ~ overwrites sample_str SkipExisting sample_store_other sample_embed
         "118-hr-1" ["old text"] ∅ ["new text"] ∅.
Proof.
  repeat split; intros (c1 & c2 & H1 & H2 & H3);
    specialize (H3 0 "new text" eq_refl);
    vm_compute in H1; injection H1 as <-;
    vm_compute in H2; try discriminate;
    injection H2 as <-; vm_compute in H3; discriminate.
Qed.

Lemma second_store_keeps_first_witness :
  store_bill_chunks sample_str SkipExisting sample_store_other sample_embed
    [] "118-hr-1" ["old text"] ∅
  = Ok (new_entries sample_str "118-hr-1" ["old text"] ∅)
  /\ store_bill_chunks sample_str SkipExisting sample_store_other sample_embed
       (new_entries sample_str "118-hr-1" ["old text"] ∅)
       "118-hr-1" ["new text"] ∅
     = Ok (new_entries sample_str "118-hr-1" ["old text"] ∅).
Proof.
  split; [vm_compute; reflexivity|].
  refine (proj2 (second_store_keeps_first sample_str sample_store_other
                   sample_embed SkipExisting []
                   (new_entries sample_str "118-hr-1" ["old text"] ∅)
                   "118-hr-1" ["old text"] ["new text"] ∅ ∅ _)
            (sanitize_metadata sample_str "118-hr-1" ∅) _ _ _ _);
    [vm_compute; reflexivity | discriminate | vm_compute; reflexivity
    | reflexivity | simpl; lia].
Defined.

(** C10 as stated fails when the metadata given to the store operation
    has a [section] key: the key is stored and the query returns its
    value. *)
Lemma stored_section_is_returned :
  (store_bill_chunks sample_str KeepBoth sample_store_other sample_embed []
     "118-hr-1" ["text"] {["section" := PStr "Sec. 2"]} = Ok [labelled_entry]
   /\ store_bill_chunks sample_str RejectCall sample_store_other sample_embed []
        "118-hr-1" ["text"] {["section" := PStr "Sec. 2"]} = Ok [labelled_entry]
   /\ store_bill_chunks sample_str SkipExisting sample_store_other sample_embed []
        "118-hr-1" ["text"] {["section" := PStr "Sec. 2"]} = Ok [labelled_entry])
  /\ get_relevant_context sample_distance sample_embed [labelled_entry]
       "which section?" "118-hr-1" 5
     = Ok [ {| c_text := "text"; c_section := PStr "Sec. 2";
               c_relevance_score := Fin 4 |} ]
  /\ PStr "Sec. 2" <> PStr "Unknown".
Proof.
  split; [repeat split; vm_compute; reflexivity|].
  split; [vm_compute; reflexivity | discriminate].
Qed.

Lemma retrieved_section_unknown_witness :
  built_without_section sample_str SkipExisting sample_store_other sample_embed
    (new_entries sample_str "118-hr-1" ["text"] {["title" := PStr "An Act"]})
  /\ get_relevant_context sample_distance sample_embed
       (new_entries sample_str "118-hr-1" ["text"] {["title" := PStr "An Act"]})
       "which section?" "118-hr-1" 5
     = Ok [Build_context_item "text" (PStr "Unknown") (Fin 4)]
  /\ c_section (Build_context_item "text" (PStr "Unknown") (Fin 4))
     = PStr "Unknown".
Proof.
  assert (Hb : built_without_section sample_str SkipExisting sample_store_other
            sample_embed
            (new_entries sample_str "118-hr-1" ["text"] {["title" := PStr "An Act"]})).
  { apply (built_store sample_str SkipExisting sample_store_other sample_embed
             [] _ "118-hr-1" ["text"] {["title" := PStr "An Act"]});
      [apply built_empty | reflexivity | vm_compute; reflexivity]. }
  assert (Hq : get_relevant_context sample_distance sample_embed
         (new_entries sample_str "118-hr-1" ["text"] {["title" := PStr "An Act"]})
         "which section?" "118-hr-1" 5
       = Ok [Build_context_item "text" (PStr "Unknown") (Fin 4)])
    by (vm_compute; reflexivity).
  split; [exact Hb|]. split; [exact Hq|].
  exact (proj1 (retrieved_section_unknown sample_str sample_distance
                  sample_store_other sample_embed SkipExisting
                  _ "which section?" "118-hr-1" 5 _ _ Hb Hq
                  ltac:(apply list_elem_of_here))).
Defined.

(** ** The scorer *)

(** *** Character runs *)

Lemma all_chars_cons (cls : ascii -> bool) (c : ascii) (s : string) :
  all_chars cls (String c s) <-> cls c = true /\ all_chars cls s.
Proof.
  unfold all_chars. simpl. split.
  - intros H. split; [apply H; now left | intros d Hd; apply H; now right].
  - intros [H1 H2] d [<- | Hd]; auto.
Qed.

Lemma all_chars_nil (cls : ascii -> bool) : all_chars cls "".
Proof. intros c []. Qed.

Lemma all_chars_app (cls : ascii -> bool) (a b : string) :
  all_chars cls a -> all_chars cls b -> all_chars cls (a +:+ b).
Proof.
  induction a as [|c a IH]; simpl; [auto|].
  rewrite !all_chars_cons. intros [H1 H2] Hb. auto.
Qed.

Lemma run_all (cls : ascii -> bool) (s : string) : all_chars cls (run cls s).
Proof.
  induction s as [|c s IH]; simpl; [apply all_chars_nil|].
  destruct (cls c) eqn:E; [|apply all_chars_nil].
  apply all_chars_cons. auto.
Qed.

Lemma run_of_all (cls : ascii -> bool) (s t : string) :
  all_chars cls s ->
  (match t with String c _ => cls c = false | EmptyString => True end) ->
  run cls (s +:+ t) = s /\ skip cls (s +:+ t) = t.
Proof.
  intros Hs Ht. induction s as [|c s IH]; simpl.
  - destruct t as [|c t]; simpl; [auto|]. now rewrite Ht.
  - apply all_chars_cons in Hs as [Hc Hs]. rewrite Hc.
    destruct (IH Hs) as [-> ->]. auto.
Qed.

Lemma skip_empty_all (cls : ascii -> bool) (s : string) :
  is_empty (skip cls s) = true -> all_chars cls s.
Proof.
  induction s as [|c s IH]; simpl; [intros _; apply all_chars_nil|].
  destruct (cls c) eqn:E; [|discriminate].
  intros H. apply all_chars_cons. auto.
Qed.

Lemma eq_char_eq (a b : ascii) : eq_char a b = true <-> a = b.
Proof.
  unfold eq_char, code. rewrite N.eqb_eq. split; [|now intros ->].
  intros H. rewrite <- (ascii_N_embedding a), <- (ascii_N_embedding b).
  now rewrite H.
Qed.

Lemma digit_not_sign (c : ascii) :
  isdigit c = true ->
  eq_char c "-" = false /\ eq_char c "+" = false /\ eq_char c "." = false.
Proof.
  unfold isdigit, eq_char, code. cbv zeta.
  change (N_of_ascii "-") with 45%N. change (N_of_ascii "+") with 43%N.
  change (N_of_ascii ".") with 46%N.
  intros H. apply andb_true_iff in H as [H1 H2].
  apply N.leb_le in H1, H2.
  repeat split; apply N.eqb_neq; lia.
Qed.

(** *** Numerals *)

Lemma digits_value_bound (s : string) (acc : Z) :
  all_chars isdigit s -> (0 <= acc)%Z ->
  (acc * 10 ^ Z.of_nat (String.length s) <= digits_value acc s
   < (acc + 1) * 10 ^ Z.of_nat (String.length s))%Z.
Proof.
  revert acc. induction s as [|c s IH]; intros acc Hs Hacc.
  - simpl. lia.
  - apply all_chars_cons in Hs as [Hc Hs].
    assert (Hd : (0 <= Z.of_N (code c) - 48 <= 9)%Z).
    { unfold isdigit in Hc. cbv zeta in Hc.
      apply andb_true_iff in Hc as [H1 H2].
      apply N.leb_le in H1, H2. lia. }
    cbn [digits_value String.length].
    specialize (IH (10 * acc + (Z.of_N (code c) - 48))%Z Hs ltac:(lia)).
    rewrite Nat2Z.inj_succ, Z.pow_succ_r by lia.
    assert (0 < 10 ^ Z.of_nat (String.length s))%Z by (apply Z.pow_pos_nonneg; lia).
    nia.
Qed.

Lemma length_append (a b : string) :
  String.length (a +:+ b) = String.length a + String.length b.
Proof. induction a as [|c a IH]; simpl; [reflexivity | now rewrite IH]. Qed.

(** The float of a numeral: the binary64 number of a fraction [n / d]
    that is below ten to the number of digits before the point. *)
Lemma float_of_unsigned_ok (g : string) (x : pyfloat) :
  float_of_unsigned g = Ok x ->
  exists n d,
    x = binary64 n d /\ (0 <= n)%Z /\ (0 < d)%Z
    /\ (n < 10 ^ Z.of_nat (String.length (run isdigit g)) * d)%Z.
Proof.
  unfold float_of_unsigned.
  pose proof (run_all isdigit g) as Hip.
  destruct (is_empty (run isdigit g)); [discriminate|].
  destruct (skip isdigit g) as [|c fp].
  - intros [= <-]. exists (digits_value 0 (run isdigit g)), 1%Z.
    pose proof (digits_value_bound _ 0 Hip ltac:(lia)). repeat split; lia.
  - destruct (eq_char c "." && negb (is_empty fp) && is_empty (skip isdigit fp))
      eqn:E; [|discriminate].
    apply andb_true_iff in E as [_ E]. apply skip_empty_all in E.
    intros [= <-].
    exists (digits_value 0 (run isdigit g +:+ fp)),
           (10 ^ Z.of_nat (String.length fp))%Z.
    pose proof (digits_value_bound _ 0 (all_chars_app _ _ _ Hip E) ltac:(lia)) as Hb.
    rewrite length_append, Nat2Z.inj_add, Z.pow_add_r in Hb by lia.
    assert (0 < 10 ^ Z.of_nat (String.length fp))%Z by (apply Z.pow_pos_nonneg; lia).
    repeat split; lia.
Qed.

Lemma run_self (cls : ascii -> bool) (s : string) :
  all_chars cls s -> run cls s = s /\ skip cls s = "".
Proof.
  intros H. pose proof (run_of_all cls s "" H I) as Hr.
  now rewrite append_nil_r in Hr.
Qed.

(** *** Rounding to binary64 *)

Lemma round_half_even_nonneg (a b : Z) :
  (0 <= a)%Z -> (0 < b)%Z -> (0 <= round_half_even a b)%Z.
Proof.
  intros Ha Hb. unfold round_half_even.
  assert (0 <= a / b)%Z by (apply Z.div_pos; lia).
  repeat match goal with |- context [if ?c then _ else _] => destruct c end; lia.
Qed.

Lemma binary64_nonneg (n d : Z) :
  (0 <= n)%Z -> (0 < d)%Z -> float_leb (Fin 0) (binary64 n d) = true.
Proof.
  intros Hn Hd. unfold binary64.
  destruct (n =? 0)%Z; [reflexivity|].
  destruct (overflow_threshold * d <=? n)%Z; [reflexivity|].
  cbv zeta. set (x := (Z.max (floor_log2 n d) (-1022) - 52)%Z).
  set (m := round_half_even _ _).
  assert (Hm : (0 <= m)%Z).
  { apply round_half_even_nonneg.
    - apply Z.mul_nonneg_nonneg; [lia | apply Z.pow_nonneg; lia].
    - apply Z.mul_pos_pos; [lia | apply Z.pow_pos_nonneg; lia]. }
  unfold float_leb. apply Qle_bool_iff. rewrite Qred_correct.
  unfold Qle. simpl.
  assert (0 <= 2 ^ Z.max 0 x)%Z by (apply Z.pow_nonneg; lia). nia.
Qed.

Lemma binary64_finite (n d : Z) :
  (n < overflow_threshold * d)%Z -> is_finite (binary64 n d) = true.
Proof.
  intros H. unfold binary64. destruct (n =? 0)%Z; [reflexivity|].
  destruct (Z.leb_spec (overflow_threshold * d) n); [lia | reflexivity].
Qed.

Lemma binary64_not_nan (n d : Z) : binary64 n d <> NaN.
Proof.
  unfold binary64. destruct (n =? 0)%Z; [discriminate|].
  destruct (overflow_threshold * d <=? n)%Z; discriminate.
Qed.

Lemma float_neg_finite (x : pyfloat) : is_finite (float_neg x) = is_finite x.
Proof. destruct x; reflexivity. Qed.

Lemma float_neg_not_nan (x : pyfloat) : x <> NaN -> float_neg x <> NaN.
Proof. destruct x; simpl; congruence. Qed.

Lemma small_numeral_below_threshold (k : nat) (n d : Z) :
  k <= 308 -> (0 < d)%Z -> (n < 10 ^ Z.of_nat k * d)%Z ->
  (n < overflow_threshold * d)%Z.
Proof.
  intros Hk Hd Hn.
  assert (H1 : (10 ^ Z.of_nat k <= 10 ^ 308)%Z)
    by (apply Z.pow_le_mono_r; lia).
  assert (H2 : (10 ^ 308 < overflow_threshold)%Z) by (vm_compute; reflexivity).
  nia.
Qed.

(** *** What the patterns capture is a numeral *)

Lemma unsigned_number_shape (s g : string) :
  unsigned_number s = Some g ->
  (exists c g', g = String c g' /\ isdigit c = true)
  /\ exists x, float_of_unsigned g = Ok x.
Proof.
  unfold unsigned_number.
  pose proof (run_all isdigit s) as Hds.
  destruct (run isdigit s) as [|c0 ds0] eqn:Eds; [discriminate|].
  cbn [is_empty]. set (ds := String c0 ds0) in *.
  assert (Hc0 : isdigit c0 = true) by (apply all_chars_cons in Hds; tauto).
  assert (Hplain : (exists c g', ds = String c g' /\ isdigit c = true)
                   /\ exists x, float_of_unsigned ds = Ok x).
  { split; [exists c0, ds0; auto|]. unfold float_of_unsigned.
    destruct (run_self isdigit ds Hds) as [-> ->]. cbn [is_empty ds]. eauto. }
  destruct (skip isdigit s) as [|c r]; [intros [= <-]; exact Hplain|].
  destruct (eq_char c "." && negb (is_empty (run isdigit r))) eqn:E;
    [|intros [= <-]; exact Hplain].
  apply andb_true_iff in E as [Ec Efs]. apply eq_char_eq in Ec. subst c.
  intros [= <-]. split; [exists c0, (ds0 +:+ "." +:+ run isdigit r); auto|].
  unfold float_of_unsigned.
  change (String c0 (ds0 +:+ String "." (run isdigit r)))
    with (ds +:+ String "." (run isdigit r)).
  destruct (run_of_all isdigit ds (String "." (run isdigit r)) Hds eq_refl)
    as [-> ->].
  cbn [is_empty ds]. rewrite Efs.
  destruct (run_self isdigit _ (run_all isdigit r)) as [_ ->].
  simpl. eauto.
Qed.

Lemma is_sign_cases (c : ascii) : is_sign c = true -> c = "+"%char \/ c = "-"%char.
Proof.
  unfold is_sign. intros H. apply orb_true_iff in H as [H | H];
    apply eq_char_eq in H; auto.
Qed.

Lemma digit_not_is_sign (c : ascii) : isdigit c = true -> is_sign c = false.
Proof.
  intros H. destruct (digit_not_sign c H) as (H1 & H2 & _).
  unfold is_sign. now rewrite H1, H2.
Qed.

(** The float of a captured numeral exists, is not a NaN, is finite when
    the numeral has at most 308 digits before the point, and is not
    negative when the numeral has no sign. *)
Lemma number_float (signed : bool) (s g : string) :
  number signed s = Some g ->
  exists x,
    py_float g = Ok x
    /\ x <> NaN
    /\ (int_digits g <= 308 -> is_finite x = true)
    /\ (signed = false -> float_leb (Fin 0) x = true).
Proof.
  assert (Hu : forall u x, float_of_unsigned u = Ok x ->
            x <> NaN
            /\ (String.length (run isdigit u) <= 308 -> is_finite x = true)
            /\ float_leb (Fin 0) x = true).
  { intros u x Hx. apply float_of_unsigned_ok in Hx as (n & d & -> & Hn & Hd & Hb).
    split; [apply binary64_not_nan|]. split; [|now apply binary64_nonneg].
    intros Hk. apply binary64_finite.
    now apply (small_numeral_below_threshold _ _ _ Hk Hd). }
  assert (Hplain : forall u, unsigned_number u = Some g ->
            exists x, py_float g = Ok x /\ x <> NaN
              /\ (int_digits g <= 308 -> is_finite x = true)
              /\ (signed = false -> float_leb (Fin 0) x = true)).
  { intros u Hg. apply unsigned_number_shape in Hg as [(c & g' & -> & Hc) [x Hx]].
    destruct (digit_not_sign c Hc) as (H1 & H2 & _).
    exists x. unfold py_float, int_digits, unsigned_part.
    rewrite H1, H2, (digit_not_is_sign c Hc).
    destruct (Hu _ _ Hx) as (Ha & Hb & Hc'). auto. }
  unfold number. destruct s as [|c r]; [discriminate|].
  destruct (signed && is_sign c) eqn:E; [|apply Hplain].
  apply andb_true_iff in E as [-> Hs].
  destruct (unsigned_number r) as [g0|] eqn:Hg0; [|discriminate].
  intros [= <-]. apply unsigned_number_shape in Hg0 as [_ [x Hx]].
  destruct (Hu _ _ Hx) as (Ha & Hb & _).
  unfold int_digits, unsigned_part. rewrite Hs.
  destruct (is_sign_cases c Hs) as [-> | ->].
  - exists x. unfold py_float. cbn [eq_char]. simpl. rewrite Hx.
    repeat split; auto; discriminate.
  - exists (float_neg x). unfold py_float. simpl. rewrite Hx. simpl.
    split; [reflexivity|]. split; [now apply float_neg_not_nan|].
    split; [now rewrite float_neg_finite | discriminate].
Qed.

(** *** Searches *)

Lemma search_labeled_number_some (label : string) (signed : bool) (s g : string) :
  search_labeled_number label signed s = Some g ->
  exists t, number signed t = Some g.
Proof.
  induction s as [|c s IH]; cbn [search_labeled_number].
  - destruct (lit_nocase label ""); [|discriminate].
    destruct (number signed _) eqn:E; [|discriminate]. intros [= <-]. eauto.
  - destruct (lit_nocase label (String c s)) as [rest|].
    + destruct (number signed (skip isspace rest)) eqn:E; [|exact IH].
      intros [= <-]. eauto.
    + exact IH.
Qed.

Lemma first_some_cases {A : Type} (a b : option A) (x : A) :
  first_some a b = Some x -> a = Some x \/ b = Some x.
Proof. destruct a; simpl; auto. Qed.

Lemma search_score_some (s g : string) :
  search_score s = Some g -> exists t, number true t = Some g.
Proof.
  unfold search_score. intros H.
  apply first_some_cases in H as [H | H];
    [|apply first_some_cases in H as [H | H]];
    eapply search_labeled_number_some; exact H.
Qed.

Lemma search_confidence_some (s g : string) :
  search_confidence s = Some g -> exists t, number false t = Some g.
Proof.
  unfold search_confidence. intros H.
  apply first_some_cases in H as [H | H];
    [|apply first_some_cases in H as [H | H]];
    eapply search_labeled_number_some; exact H.
Qed.

Lemma occurs_nocase_head (label s : string) :
  occurs_nocase label s = false -> lit_nocase label s = None.
Proof.
  intros H. assert (Hs : starts_nocase label s = false)
    by (destruct s; cbn [occurs_nocase] in H; now apply orb_false_elim in H).
  unfold starts_nocase in Hs. destruct (lit_nocase label s); congruence.
Qed.

Lemma occurs_nocase_tail (label : string) (c : ascii) (s : string) :
  occurs_nocase label (String c s) = false -> occurs_nocase label s = false.
Proof. cbn [occurs_nocase]. intros H. now apply orb_false_elim in H. Qed.

Lemma search_labeled_number_absent (label : string) (signed : bool) (s : string) :
  occurs_nocase label s = false -> search_labeled_number label signed s = None.
Proof.
  induction s as [|c s IH]; intros H; cbn [search_labeled_number];
    rewrite (occurs_nocase_head _ _ H); [reflexivity|].
  apply IH. eapply occurs_nocase_tail, H.
Qed.

Lemma search_labeled_text_absent (label : string) (term : string -> bool)
    (s : string) :
  occurs_nocase label s = false -> search_labeled_text label term s = None.
Proof.
  induction s as [|c s IH]; intros H; cbn [search_labeled_text];
    rewrite (occurs_nocase_head _ _ H); [reflexivity|].
  apply IH. eapply occurs_nocase_tail, H.
Qed.

Lemma findall_quoted_none (k : nat) (s : string) :
  has_char (fun c => eq_char c dquote) s = false -> findall_quoted k s = [].
Proof.
  revert k. induction s as [|c s IH]; intros k H; [reflexivity|].
  cbn [has_char] in H. apply orb_false_elim in H as [Hc H].
  cbn [findall_quoted]. rewrite Hc. destruct k; now apply IH.
Qed.

Lemma findall_runs_none (cls : ascii -> bool) (s : string) :
  has_char cls s = false -> findall_runs cls "" s = [].
Proof.
  induction s as [|c s IH]; intros H; [reflexivity|].
  cbn [has_char] in H. apply orb_false_elim in H as [Hc H].
  cbn [findall_runs]. rewrite Hc. simpl. now apply IH.
Qed.

(** *** The parsed result *)

Lemma key_phrases_not_empty (s : string) : extract_key_phrases s <> [].
Proof.
  unfold extract_key_phrases.
  destruct (findall_quoted 0 s); [|discriminate].
  destruct (findall_runs _ _ s); [|discriminate].
  destruct (labeled_phrases s); discriminate.
Qed.

(** The parsing of a text never raises. *)
Lemma parse_fields_text (s : string) :
  exists sc cf,
    parse_fields (Some s)
    = Ok {| score := sc;
            reasoning := match search_reasoning s with
                         | None => "No detailed reasoning provided."
                         | Some g => strip g
                         end;
            confidence := cf;
            key_phrases := extract_key_phrases s |}
    /\ match search_score s with
       | None => sc = Fin 0
       | Some g => py_float g = Ok sc
       end
    /\ match search_confidence s with
       | None => cf = Fin 50
       | Some g => py_float g = Ok cf
       end.
Proof.
  unfold parse_fields.
  destruct (search_score s) as [g|] eqn:Hs.
  - destruct (search_score_some _ _ Hs) as [t Ht].
    destruct (number_float _ _ _ Ht) as (sc & Hsc & _). rewrite Hsc. simpl.
    destruct (search_confidence s) as [g'|] eqn:Hc.
    + destruct (search_confidence_some _ _ Hc) as [t' Ht'].
      destruct (number_float _ _ _ Ht') as (cf & Hcf & _). rewrite Hcf. simpl.
      eauto.
    + simpl. eauto.
  - simpl. destruct (search_confidence s) as [g'|] eqn:Hc.
    + destruct (search_confidence_some _ _ Hc) as [t' Ht'].
      destruct (number_float _ _ _ Ht') as (cf & Hcf & _). rewrite Hcf. simpl.
      eauto.
    + simpl. eauto.
Qed.

Lemma parse_response_text (s : string) :
  parse_fields (Some s) = Ok (parse_response (Some s)).
Proof.
  unfold parse_response. destruct (parse_fields_text s) as (sc & cf & -> & _).
  reflexivity.
Qed.

Lemma score_political_ideology_result
    (reply : list string -> string -> result (option string))
    (log : list string) (bill_text : string) (metadata : gmap string pyvalue) :
  fst (score_political_ideology reply log bill_text metadata)
  = match reply log (ideology_prompt (truncate 30000 text_truncated bill_text)) with
    | Ok content => Ok (parse_response content)
    | Raise e => Raise e
    end.
Proof. reflexivity. Qed.

(** C4: on a response with none of the labels of the score, reasoning
    and confidence patterns, the parsing raises nothing and the result has
    score 0.0, confidence 50.0 and the fixed message for the reasoning
    (and the fixed list of key phrases when the text has no quote and no
    label of key phrases either); this is the result of the scorer when
    the model gives this response.  On every response an exception of the
    parsing gives the error defaults, and the scorer raises only what the
    provider raises. *)
Theorem unlabeled_response_defaults (content : string) :
  has_label content = false ->
  let r := parse_response (Some content) in
  parse_fields (Some content) = Ok r
  /\ score r = Fin 0
  /\ confidence r = Fin 50
  /\ reasoning r = "No detailed reasoning provided."
  /\ (no_phrases content = true -> key_phrases r = ["No key phrases identified"])
  /\ (forall reply log bill_text metadata,
        reply log (ideology_prompt (truncate 30000 text_truncated bill_text))
        = Ok (Some content) ->
        fst (score_political_ideology reply log bill_text metadata) = Ok r)
  /\ (forall other e,
        parse_fields other = Raise e -> parse_response other = parse_error_defaults)
  /\ (forall reply log bill_text metadata e,
        fst (score_political_ideology reply log bill_text metadata) = Raise e ->
        reply log (ideology_prompt (truncate 30000 text_truncated bill_text))
        = Raise e).
Proof.
  intros H r.
  unfold has_label, expected_labels in H. cbn [existsb] in H.
  repeat (apply orb_false_elim in H as [? H]).
  assert (Hs : search_score content = None).
  { unfold search_score. now rewrite !search_labeled_number_absent. }
  assert (Hr : search_reasoning content = None).
  { unfold search_reasoning. now rewrite !search_labeled_text_absent. }
  assert (Hc : search_confidence content = None).
  { unfold search_confidence. now rewrite !search_labeled_number_absent. }
  assert (Hp : parse_fields (Some content)
               = Ok {| score := Fin 0;
                       reasoning := "No detailed reasoning provided.";
                       confidence := Fin 50;
                       key_phrases := extract_key_phrases content |}).
  { unfold parse_fields. now rewrite Hs, Hr, Hc. }
  assert (Er : r = {| score := Fin 0;
                      reasoning := "No detailed reasoning provided.";
                      confidence := Fin 50;
                      key_phrases := extract_key_phrases content |}).
  { unfold r, parse_response. now rewrite Hp. }
  split; [now rewrite Er|]. rewrite Er. cbn [score confidence reasoning key_phrases].
  do 3 (split; [reflexivity|]).
  split.
  { unfold no_phrases. intros Hn.
    apply andb_true_iff in Hn as [Hn Hk]. apply andb_true_iff in Hn as [Hq Hb].
    apply negb_true_iff in Hq, Hb, Hk.
    unfold extract_key_phrases, labeled_phrases.
    now rewrite findall_quoted_none, findall_runs_none,
      search_labeled_text_absent. }
  split.
  { intros reply log bill_text metadata Hreply.
    rewrite score_political_ideology_result, Hreply. now rewrite <- Er. }
  split.
  { intros other e He. unfold parse_response. now rewrite He. }
  intros reply log bill_text metadata e.
  rewrite score_political_ideology_result.
  destruct (reply log _); [discriminate | now intros [= ->]].
Qed.

Lemma unlabeled_response_defaults_witness :
  has_label "I am unable to assess this bill." = false
  /\ score (parse_response (Some "I am unable to assess this bill.")) = Fin 0
  /\ confidence (parse_response (Some "I am unable to assess this bill.")) = Fin 50
  /\ reasoning (parse_response (Some "I am unable to assess this bill."))
     = "No detailed reasoning provided.".
Proof.
  split; [reflexivity|].
  destruct (unlabeled_response_defaults "I am unable to assess this bill." eq_refl)
    as (_ & H1 & H2 & H3 & _).
  auto.
Defined.

(** *** Responses that break the bounds *)

(** C5 as stated fails: a score numeral that overflows binary64 is
    parsed to infinity. *)
Lemma huge_score_not_finite :
  exists r,
    fst (score_political_ideology (constant_reply huge_score_response) []
           "A bill." ∅) = Ok r
    /\ score r = Inf false
    /\ is_finite (score r) = false.
Proof.
  exists (parse_response (Some huge_score_response)).
  split; [reflexivity|]. split; vm_compute; reflexivity.
Qed.

(** C6 as stated fails: a confidence above 100 is returned as it is. *)
Lemma confidence_above_100 :
  exists r,
    fst (score_political_ideology (constant_reply overconfident_response) []
           "A bill." ∅) = Ok r
    /\ confidence r = Fin 150
    /\ float_leb (confidence r) (Fin 100) = false.
Proof.
  exists (parse_response (Some overconfident_response)).
  split; [reflexivity|]. split; vm_compute; reflexivity.
Qed.

Lemma binary64_finite_iff (n d : Z) :
  (0 < d)%Z ->
  is_finite (binary64 n d) = true <-> (n < overflow_threshold * d)%Z.
Proof.
  intros Hd. split; [|apply binary64_finite].
  unfold binary64. destruct (Z.eqb_spec n 0) as [-> | Hn].
  - intros _. assert (0 < overflow_threshold)%Z by (vm_compute; reflexivity).
    nia.
  - destruct (Z.leb_spec (overflow_threshold * d) n); [discriminate | auto].
Qed.

Lemma float_of_unsigned_finite (u : string) (x : pyfloat) :
  float_of_unsigned u = Ok x ->
  is_finite x = true
  <-> (fst (unsigned_fraction u)
       < overflow_threshold * snd (unsigned_fraction u))%Z.
Proof.
  unfold float_of_unsigned, unsigned_fraction.
  destruct (is_empty (run isdigit u)); [discriminate|].
  destruct (skip isdigit u) as [|c fp].
  - intros [= <-]. cbn [fst snd String.length]. rewrite append_nil_r.
    change (10 ^ Z.of_nat 0)%Z with 1%Z. apply binary64_finite_iff. lia.
  - destruct (eq_char c "." && negb (is_empty fp) && is_empty (skip isdigit fp));
      [|discriminate].
    intros [= <-]. cbn [fst snd]. apply binary64_finite_iff.
    apply Z.pow_pos_nonneg; lia.
Qed.

(** The float of a numeral is finite exactly when the magnitude of the
    numeral is below the overflow threshold. *)
Lemma py_float_finite (g : string) (x : pyfloat) :
  py_float g = Ok x -> is_finite x = true <-> below_overflow g.
Proof.
  unfold py_float, below_overflow, unsigned_part, is_sign.
  destruct g as [|c r]; [discriminate|].
  destruct (eq_char c "-") eqn:Em.
  - rewrite orb_true_r.
    destruct (float_of_unsigned r) as [y|] eqn:Hy; [|discriminate].
    intros [= <-]. rewrite float_neg_finite.
    now apply float_of_unsigned_finite.
  - destruct (eq_char c "+") eqn:Ep; cbn [orb];
      apply float_of_unsigned_finite.
Qed.

(** C5, amended: the key phrases are never empty and the score and the
    confidence are never NaN; each of the two is finite exactly when the
    magnitude of its numeral in the response is below [2^1024 - 2^970],
    in particular when the numeral has at most 308 digits before the
    point (and when no numeral is found, or the response has no text),
    and is an infinity otherwise. *)
Theorem analysis_postcondition (content : option string) :
  let r := parse_response content in
  key_phrases r <> []
  /\ score r <> NaN
  /\ confidence r <> NaN
  /\ (forall s g, content = Some s -> search_score s = Some g ->
        (is_finite (score r) = true <-> below_overflow g)
        /\ (is_finite (score r) = false -> exists sign, score r = Inf sign))
  /\ (forall s g, content = Some s -> search_confidence s = Some g ->
        (is_finite (confidence r) = true <-> below_overflow g)
        /\ (is_finite (confidence r) = false ->
            exists sign, confidence r = Inf sign))
  /\ (forall s, content = Some s ->
        (forall g, search_score s = Some g -> int_digits g <= 308) ->
        is_finite (score r) = true)
  /\ (forall s, content = Some s ->
        (forall g, search_confidence s = Some g -> int_digits g <= 308) ->
        is_finite (confidence r) = true)
  /\ (content = None ->
        is_finite (score r) = true /\ is_finite (confidence r) = true)
  /\ (forall reply log bill_text metadata r',
        fst (score_political_ideology reply log bill_text metadata) = Ok r' ->
        exists response, r' = parse_response response).
Proof.
  intros r.
  assert (Hlast : forall reply log bill_text metadata r',
            fst (score_political_ideology reply log bill_text metadata) = Ok r' ->
            exists response, r' = parse_response response).
  { intros reply log bill_text metadata r'.
    rewrite score_political_ideology_result.
    destruct (reply log _) as [response|]; [|discriminate].
    intros [= <-]. eauto. }
  destruct content as [s|].
  - destruct (parse_fields_text s) as (sc & cf & Hp & Hsc & Hcf).
    assert (Er : r = {| score := sc;
                        reasoning := match search_reasoning s with
                                     | None => "No detailed reasoning provided."
                                     | Some g => strip g
                                     end;
                        confidence := cf;
                        key_phrases := extract_key_phrases s |}).
    { unfold r, parse_response. now rewrite Hp. }
    rewrite Er. cbn [score confidence key_phrases].
    split; [apply key_phrases_not_empty|].
    assert (Hscore : sc <> NaN
              /\ ((forall g, search_score s = Some g -> int_digits g <= 308) ->
                  is_finite sc = true)).
    { destruct (search_score s) as [g|] eqn:Hs.
      - destruct (search_score_some _ _ Hs) as [t Ht].
        destruct (number_float _ _ _ Ht) as (x & Hx & Hn & Hf & _).
        assert (x = sc) by congruence. subst x. split; [exact Hn|].
        intros Hd. apply Hf, Hd. reflexivity.
      - subst sc. split; [discriminate | reflexivity]. }
    assert (Hconf : cf <> NaN
              /\ ((forall g, search_confidence s = Some g -> int_digits g <= 308) ->
                  is_finite cf = true)).
    { destruct (search_confidence s) as [g|] eqn:Hs.
      - destruct (search_confidence_some _ _ Hs) as [t Ht].
        destruct (number_float _ _ _ Ht) as (x & Hx & Hn & Hf & _).
        assert (x = cf) by congruence. subst x. split; [exact Hn|].
        intros Hd. apply Hf, Hd. reflexivity.
      - subst cf. split; [discriminate | reflexivity]. }
    destruct Hscore as [Hs1 Hs2]. destruct Hconf as [Hc1 Hc2].
    assert (Hinf : forall x, x <> NaN -> is_finite x = false ->
                     exists sign, x = Inf sign).
    { intros [q|b|] Hx Hf; [discriminate | eauto | congruence]. }
    split; [exact Hs1|]. split; [exact Hc1|].
    split.
    { intros s' g [= <-] Hg. rewrite Hg in Hsc.
      split; [now apply py_float_finite | now apply Hinf]. }
    split.
    { intros s' g [= <-] Hg. rewrite Hg in Hcf.
      split; [now apply py_float_finite | now apply Hinf]. }
    split; [intros s' [= <-]; exact Hs2|].
    split; [intros s' [= <-]; exact Hc2|].
    split; [discriminate | exact Hlast].
  - unfold r. cbn.
    split; [discriminate|]. split; [discriminate|]. split; [discriminate|].
    split; [discriminate|]. split; [discriminate|]. split; [discriminate|].
    split; [discriminate|]. split; [auto | exact Hlast].
Qed.

(** C6, amended: the confidence is never negative; it is the default
    50.0 when no confidence label is followed by a numeral (or the
    response has no text), and otherwise the float of the numeral as it
    is, with no upper bound applied. *)
Theorem confidence_not_negative (content : option string) :
  let r := parse_response content in
  float_leb (Fin 0) (confidence r) = true
  /\ (forall s, content = Some s -> search_confidence s = None ->
        confidence r = Fin 50)
  /\ (forall s g, content = Some s -> search_confidence s = Some g ->
        py_float g = Ok (confidence r))
  /\ (content = None -> confidence r = Fin 50)
  /\ (forall reply log bill_text metadata r',
        fst (score_political_ideology reply log bill_text metadata) = Ok r' ->
        exists response, r' = parse_response response).
Proof.
  intros r.
  assert (Hlast : forall reply log bill_text metadata r',
            fst (score_political_ideology reply log bill_text metadata) = Ok r' ->
            exists response, r' = parse_response response).
  { intros reply log bill_text metadata r'.
    rewrite score_political_ideology_result.
    destruct (reply log _) as [response|]; [|discriminate].
    intros [= <-]. eauto. }
  destruct content as [s|].
  - destruct (parse_fields_text s) as (sc & cf & Hp & _ & Hcf).
    assert (Er : confidence r = cf).
    { unfold r, parse_response. now rewrite Hp. }
    rewrite Er. destruct (search_confidence s) as [g|] eqn:Hs.
    + destruct (search_confidence_some _ _ Hs) as [t Ht].
      destruct (number_float _ _ _ Ht) as (x & Hx & _ & _ & Hpos).
      assert (x = cf) by congruence. subst x.
      split; [now apply Hpos|].
      split; [intros s' [= <-] Hn; congruence|].
      split; [|split; [discriminate | exact Hlast]].
      intros s' g' [= <-] Hs'. rewrite Hs in Hs'. injection Hs' as <-. exact Hcf.
    + subst cf. split; [reflexivity|]. split; [intros; reflexivity|].
      split; [|split; [discriminate | exact Hlast]].
      intros s' g' [= <-] Hs'. rewrite Hs in Hs'. discriminate.
  - unfold r. cbn. split; [reflexivity|]. split; [discriminate|].
    split; [discriminate|]. split; [reflexivity | exact Hlast].
Qed.

(** ** Further operations on sample inputs *)

Example clean_bill_text_sample :
  clean_bill_text
    ("H. R. 1" +:+ nl +:+ nl +:+ " " +:+ nl +:+ "A BILL" +:+ nl +:+ "  12  "
     +:+ nl +:+ "To amend   the law." +:+ nl +:+ " Section 2. " +:+ nl
     +:+ "Short title. ")
  = "H. R. 1 A BILL To amend the law. Short title.".
Proof. vm_compute. reflexivity. Qed.

Example parse_congress_url_sample :
  parse_congress_url
    "https://www.congress.gov/bill/118th-congress/house-bill/1234/text?q=1"
  = Ok {| bi_congress := "118"; bi_bill_type := "hr"; bi_number := "1234" |}
  /\ parse_congress_url "https://www.congress.gov/bill/118th-congress/amendment/3"
     = Raise ValueError
  /\ parse_congress_url "https://example.org/" = Raise ValueError.
Proof. vm_compute. repeat split. Qed.

(** ** The text cleaner *)

Lemma re_sub_skip_run (m : string -> option nat) (repl : string)
    (cls : ascii -> bool) (s : string) :
  re_sub m repl (run_length cls s) s = re_sub m repl 0 (skip cls s).
Proof.
  induction s as [|c s IH]; [reflexivity|].
  unfold run_length. cbn [run skip]. destruct (cls c); [|reflexivity].
  cbn [String.length re_sub]. exact IH.
Qed.

Lemma collapse_spaces_cons (c : ascii) (s : string) :
  re_sub match_spaces " " 0 (String c s)
  = if isspace c then String " " (re_sub match_spaces " " 0 (skip isspace s))
    else String c (re_sub match_spaces " " 0 s).
Proof.
  cbn [re_sub]. unfold match_spaces, run_length. cbn [run].
  destruct (isspace c); [|reflexivity].
  cbn [String.length]. fold (run_length isspace s).
  now rewrite re_sub_skip_run.
Qed.

Lemma collapse_spaces_spec (s : string) :
  re_sub match_spaces " " 0 s = collapse false s
  /\ re_sub match_spaces " " 0 (skip isspace s) = collapse true s.
Proof.
  induction s as [|c s [IH1 IH2]]; [split; reflexivity|].
  split.
  - rewrite collapse_spaces_cons. cbn [collapse].
    destruct (isspace c); [now rewrite IH2 | now rewrite IH1].
  - cbn [skip collapse]. destruct (isspace c) eqn:E; [exact IH2|].
    rewrite collapse_spaces_cons, E. now rewrite IH1.
Qed.

Lemma lstrip_collapse_true (s : string) :
  lstrip (collapse true s) = collapse true s.
Proof.
  induction s as [|c s IH]; [reflexivity|].
  cbn [collapse]. destruct (isspace c) eqn:E; [exact IH|].
  cbn [lstrip]. now rewrite E.
Qed.

Lemma lstrip_collapse (s : string) :
  lstrip (collapse false s) = collapse true s.
Proof.
  destruct s as [|c s]; [reflexivity|].
  cbn [collapse]. destruct (isspace c) eqn:E.
  - cbn [lstrip]. change (isspace " ") with true. cbv iota.
    apply lstrip_collapse_true.
  - cbn [lstrip]. now rewrite E.
Qed.

Lemma rstrip_no_space (w : string) : no_space w -> rstrip w = w.
Proof.
  induction w as [|c w IH]; intros H; [reflexivity|].
  apply no_space_cons in H as [Hc Hw]. cbn [rstrip].
  rewrite IH by exact Hw. now rewrite Hc, andb_false_r.
Qed.

Lemma is_empty_app (a b : string) :
  is_empty (a +:+ b) = is_empty a && is_empty b.
Proof. destruct a; reflexivity. Qed.

Lemma rstrip_app (a b : string) :
  rstrip (a +:+ b)
  = if is_empty (rstrip b) then rstrip a else a +:+ rstrip b.
Proof.
  induction a as [|c a IH].
  - change ("" +:+ b) with b. change ("" +:+ rstrip b) with (rstrip b).
    destruct (is_empty (rstrip b)) eqn:E; [|reflexivity].
    now apply is_empty_true in E.
  - change (String c a +:+ b) with (String c (a +:+ b)).
    cbn [rstrip]. rewrite IH.
    destruct (is_empty (rstrip b)) eqn:E; [reflexivity|].
    rewrite is_empty_app, E, andb_false_r. reflexivity.
Qed.

Lemma join_words_empty (l : list string) :
  Forall is_word l -> is_empty (join " " l) = true -> l = [].
Proof.
  intros H. destruct H as [|w l [Hw _] _]; [reflexivity|].
  destruct l as [|w' l]; destruct w; simpl; congruence.
Qed.

(** The white space of a text collapsed and stripped: its words joined
    by single spaces. *)
Lemma rstrip_collapse (s : string) :
  rstrip (collapse true s) = join " " (split_from "" s)
  /\ forall w, w <> "" -> no_space w ->
       rstrip (w +:+ collapse false s) = join " " (split_from w s).
Proof.
  induction s as [|c s [IHR IHP]].
  - split; [reflexivity|]. intros w Hw Hns. cbn [collapse split_from].
    rewrite append_nil_r, rstrip_no_space by exact Hns.
    now rewrite flush_word.
  - split.
    + cbn [collapse split_from]. destruct (isspace c) eqn:E.
      * exact IHR.
      * change (String c (collapse false s))
          with (String c "" +:+ collapse false s).
        apply IHP; [discriminate|].
        apply no_space_cons. split; [exact E | intros d []].
    + intros w Hw Hns. cbn [collapse split_from]. destruct (isspace c) eqn:E.
      * rewrite flush_word by exact Hw.
        change (w +:+ String " " (collapse true s))
          with (w +:+ (" " +:+ collapse true s)).
        rewrite <- append_assoc, rstrip_app, IHR.
        pose proof (split_from_words s "" ltac:(intros d [])) as Hl.
        destruct (is_empty (join " " (split_from "" s))) eqn:Ej.
        -- rewrite (join_words_empty _ Hl Ej).
           rewrite rstrip_app. change (is_empty (rstrip " ")) with true.
           cbv iota. now apply rstrip_no_space.
        -- simpl app. rewrite join_cons, append_assoc; [reflexivity|].
           intros Hnil. rewrite Hnil in Ej. discriminate.
      * change (w +:+ String c (collapse false s))
          with (w +:+ (String c "" +:+ collapse false s)).
        rewrite <- append_assoc. apply IHP; [apply app_not_empty|].
        apply no_space_app. split; [exact Hns|].
        apply no_space_cons. split; [exact E | intros d []].
Qed.

Lemma strip_collapse_spaces (s : string) :
  strip (re_sub match_spaces " " 0 s) = join " " (split s).
Proof.
  unfold strip. destruct (collapse_spaces_spec s) as [-> _].
  rewrite lstrip_collapse. apply rstrip_collapse.
Qed.

Lemma has_char_app (cls : ascii -> bool) (a b : string) :
  has_char cls (a +:+ b) = has_char cls a || has_char cls b.
Proof.
  induction a as [|c a IH]; [reflexivity|].
  change (String c a +:+ b) with (String c (a +:+ b)).
  cbn [has_char]. now rewrite IH, orb_assoc.
Qed.

Lemma word_no_newline (w : string) : no_space w -> has_char is_nl w = false.
Proof.
  induction w as [|c w IH]; intros H; [reflexivity|].
  apply no_space_cons in H as [Hc Hw]. cbn [has_char]. rewrite IH by exact Hw.
  destruct (is_nl c) eqn:E; [|reflexivity].
  apply eq_char_eq in E. subst c. discriminate.
Qed.

Lemma join_words_no_newline (l : list string) :
  Forall is_word l -> has_char is_nl (join " " l) = false.
Proof.
  induction 1 as [|w l [_ Hw] Hl IH]; [reflexivity|].
  destruct l as [|w' l]; [now apply word_no_newline|].
  rewrite join_cons by discriminate.
  rewrite !has_char_app, IH, word_no_newline by exact Hw. reflexivity.
Qed.

Lemma re_sub_no_newline (m : string -> option nat) (repl s : string) :
  at_newline_only m -> has_char is_nl s = false -> re_sub m repl 0 s = s.
Proof.
  intros Hm. induction s as [|c s IH]; intros H; [reflexivity|].
  cbn [has_char] in H. apply orb_false_elim in H as [Hc Hs].
  cbn [re_sub]. destruct (m (String c s)) as [[|k]|] eqn:E;
    try (now rewrite IH).
  destruct (Hm _ _ E) as (c' & r & [= <- <-] & Hnl). congruence.
Qed.

Lemma artifacts_at_newline :
  at_newline_only match_blank_lines
  /\ at_newline_only match_page_number
  /\ at_newline_only match_section_line.
Proof.
  repeat split; intros [|c r] k H; try discriminate;
    cbn in H; destruct (is_nl c) eqn:E; try discriminate; eauto.
Qed.

Lemma remove_artifacts_no_newline (s : string) :
  has_char is_nl s = false -> remove_artifacts s = s.
Proof.
  intros H. destruct artifacts_at_newline as (H1 & H2 & H3).
  unfold remove_artifacts. cbv zeta.
  now rewrite (re_sub_no_newline _ _ _ H1 H), (re_sub_no_newline _ _ _ H2 H),
    (re_sub_no_newline _ _ _ H3 H).
Qed.

Lemma strip_join_words (l : list string) :
  Forall is_word l -> strip (join " " l) = join " " l.
Proof.
  intros H. unfold strip.
  assert (Hl : lstrip (join " " l) = join " " l).
  { destruct H as [|w l [Hw Hns] _]; [reflexivity|].
    assert (Hj : exists c r, join " " (w :: l) = String c r /\ isspace c = false).
    { destruct w as [|c w]; [congruence|].
      apply no_space_cons in Hns as [Hc _].
      destruct l; simpl; eauto. }
    destruct Hj as (c & r & -> & Hc). cbn [lstrip]. now rewrite Hc. }
  rewrite Hl. clear Hl. induction H as [|w l [Hw Hns] Hl' IH]; [reflexivity|].
  destruct l as [|w' l]; [now apply rstrip_no_space|].
  rewrite join_cons by discriminate.
  assert (Hne : is_empty (join " " (w' :: l)) = false).
  { destruct (is_empty (join " " (w' :: l))) eqn:E; [|reflexivity].
    now apply join_words_empty in E. }
  rewrite rstrip_app, (rstrip_app " "), IH.
  rewrite Hne. rewrite is_empty_app, Hne, andb_false_r. reflexivity.
Qed.

Lemma clean_bill_text_words (raw : string) :
  clean_bill_text raw = join " " (split (remove_artifacts raw)).
Proof. unfold clean_bill_text. apply strip_collapse_spaces. Qed.

Lemma clean_bill_text_is_normalized (raw : string) :
  normalized (clean_bill_text raw).
Proof.
  unfold normalized. rewrite clean_bill_text_words at 2.
  f_equal. rewrite clean_bill_text_words.
  apply split_join_words, split_words.
Qed.

(** X1: the cleaned text is whitespace-normalized: it is the words of
    the text left by the three removals, joined by single spaces; it has
    the same words, it is its own words joined by single spaces, it has no
    newline and stripping it changes nothing. *)
Theorem clean_bill_text_normalized (raw : string) :
  clean_bill_text raw = join " " (split (remove_artifacts raw))
  /\ split (clean_bill_text raw) = split (remove_artifacts raw)
  /\ normalized (clean_bill_text raw)
  /\ has_char is_nl (clean_bill_text raw) = false
  /\ strip (clean_bill_text raw) = clean_bill_text raw.
Proof.
  pose proof (split_words (remove_artifacts raw)) as Hw.
  assert (Hs : split (clean_bill_text raw) = split (remove_artifacts raw)).
  { rewrite clean_bill_text_words. now apply split_join_words. }
  split; [apply clean_bill_text_words|]. split; [exact Hs|].
  assert (Hn : normalized (clean_bill_text raw)).
  { unfold normalized. rewrite Hs. symmetry. apply clean_bill_text_words. }
  split; [exact Hn|].
  split; [rewrite clean_bill_text_words; now apply join_words_no_newline|].
  rewrite clean_bill_text_words. now apply strip_join_words.
Qed.

(** X2: a text without newline loses nothing to the cleaner: the
    result is its words joined by single spaces, with the same words. *)
Theorem clean_bill_text_single_line (text : string) :
  has_char is_nl text = false ->
  clean_bill_text text = join " " (split text)
  /\ split (clean_bill_text text) = split text.
Proof.
  intros H. rewrite clean_bill_text_words, remove_artifacts_no_newline by exact H.
  split; [reflexivity|]. apply split_join_words, split_words.
Qed.

Lemma clean_bill_text_single_line_witness :
  has_char is_nl "An  Act to amend the  law. " = false
  /\ clean_bill_text "An  Act to amend the  law. " = "An Act to amend the law.".
Proof.
  split; [reflexivity|].
  exact (proj1 (clean_bill_text_single_line "An  Act to amend the  law. " eq_refl)).
Defined.

(** X3: cleaning is idempotent. *)
Theorem clean_bill_text_idempotent (raw : string) :
  clean_bill_text (clean_bill_text raw) = clean_bill_text raw.
Proof.
  pose proof (split_words (remove_artifacts raw)) as Hw.
  rewrite (clean_bill_text_words (clean_bill_text raw)).
  rewrite remove_artifacts_no_newline.
  - rewrite (clean_bill_text_words raw) at 1.
    rewrite split_join_words by exact Hw.
    symmetry. apply clean_bill_text_words.
  - rewrite clean_bill_text_words. now apply join_words_no_newline.
Qed.

(** ** The processing of a bill *)

Lemma chunk_text_join (T : string) (W : Z) :
  (0 < W)%Z -> normalized T ->
  exists chunks,
    chunk_text T W = Ok chunks
    /\ join " " chunks = T
    /\ length chunks = chunk_count (length (split T)) W
    /\ Forall (fun c => 1 <= length (split c) <= Z.to_nat W) chunks.
Proof.
  intros HW Hn.
  set (gs := groups (Z.to_nat W) (split T) (chunk_count (length (split T)) W)).
  destruct (chunk_count_spec (length (split T)) W HW) as [Hcover Hstart].
  pose proof (split_words T) as Hwords.
  assert (Hne : forall k, k < chunk_count (length (split T)) W ->
            1 <= length (take (Z.to_nat W) (drop (k * Z.to_nat W) (split T)))
              <= Z.to_nat W).
  { intros k Hk. specialize (Hstart k Hk).
    rewrite length_take, length_drop. lia. }
  exists (map (join " ") gs).
  split; [apply chunk_text_groups, HW|]. split; [|split].
  - rewrite join_concat.
    + unfold gs. rewrite concat_groups by exact Hcover. exact Hn.
    + apply Forall_forall. intros g Hg. apply list_elem_of_In, in_map_iff in Hg.
      destruct Hg as [k [<- Hk]]. apply in_seq in Hk.
      specialize (Hne k ltac:(lia)). intros E. rewrite E in Hne. simpl in Hne. lia.
  - unfold gs. now rewrite length_map, length_groups.
  - apply Forall_forall. intros c Hc. apply list_elem_of_In, in_map_iff in Hc.
    destruct Hc as [g [<- Hg]]. apply in_map_iff in Hg.
    destruct Hg as [k [<- Hk]]. apply in_seq in Hk.
    rewrite split_join_words by (apply Forall_take, Forall_drop, Hwords).
    apply Hne. lia.
Qed.

(** X4: with an embedder that returns, the processing of a bill
    returns: the chunker never raises in it.  Its chunks joined by single
    spaces are the cleaned text, each chunk has between 1 and 1000 words,
    there is one embedding for each chunk, in order, and the sections are
    those of the cleaned text. *)
Theorem process_bill_chunks_cover (V : Type) (encode : string -> V)
    (raw_text : string) :
  exists p,
    process_bill V encode raw_text = Ok p
    /\ p_clean_text p = clean_bill_text raw_text
    /\ join " " (p_chunks p) = p_clean_text p
    /\ Forall (fun c => 1 <= length (split c) <= 1000) (p_chunks p)
    /\ length (p_chunks p)
       = chunk_count (length (split (p_clean_text p))) 1000
    /\ p_embeddings p = map encode (p_chunks p)
    /\ p_sections p = extract_sections (p_clean_text p).
Proof.
  pose proof (clean_bill_text_is_normalized raw_text) as Hn.
  destruct (chunk_text_join (clean_bill_text raw_text) 1000 ltac:(lia) Hn)
    as (chunks & Hc & Hj & Hlen & Hall).
  eexists. unfold process_bill. rewrite Hc. cbn [bind].
  split; [reflexivity|]. cbn [p_clean_text p_chunks p_embeddings p_sections].
  repeat split; assumption.
Qed.

(** ** The shape of the extracted sections *)









(** ** Chunk ids *)

Lemma digit_char_value (d : nat) :
  d < 10 -> (Z.of_N (code (digit_char d)) - 48)%Z = Z.of_nat d.
Proof.
  intros H. do 10 (destruct d as [|d]; [reflexivity|]). lia.
Qed.

Lemma digits_fuel_value (fuel n : nat) (acc : string) :
  n < fuel ->
  digits_value 0 (digits_fuel fuel n acc) = digits_value (Z.of_nat n) acc.
Proof.
  revert n acc. induction fuel as [|fuel IH]; intros n acc H; [lia|].
  cbn [digits_fuel].
  assert (Hd : n mod 10 < 10) by (apply Nat.mod_upper_bound; lia).
  assert (Hn : n = 10 * (n / 10) + n mod 10) by (apply Nat.div_mod_eq).
  destruct (Nat.ltb_spec n 10) as [Hlt | Hge].
  - cbn [digits_value]. rewrite digit_char_value by exact Hd.
    rewrite Nat.mod_small by exact Hlt. f_equal.
  - rewrite IH by lia. cbn [digits_value].
    rewrite digit_char_value by exact Hd. f_equal. lia.
Qed.

(** [int(str(n)) = n] *)
Lemma str_of_nat_value (n : nat) : digits_value 0 (str_of_nat n) = Z.of_nat n.
Proof. unfold str_of_nat. rewrite digits_fuel_value by lia. reflexivity. Qed.

Lemma str_of_nat_inj (a b : nat) : str_of_nat a = str_of_nat b -> a = b.
Proof.
  intros H. apply (f_equal (digits_value 0)) in H.
  rewrite !str_of_nat_value in H. lia.
Qed.

Lemma append_inv_head (a x y : string) : a +:+ x = a +:+ y -> x = y.
Proof.
  induction a as [|c a IH]; [auto|].
  change (String c a +:+ ?z) with (String c (a +:+ z)).
  intros [= H]. auto.
Qed.

Lemma chunk_id_inj (bill_id : string) (i j : nat) :
  chunk_id bill_id i = chunk_id bill_id j -> i = j.
Proof.
  unfold chunk_id. intros H.
  now apply append_inv_head, append_inv_head, str_of_nat_inj in H.
Qed.

Lemma chunk_ids_NoDup (bill_id : string) (n : nat) :
  NoDup (chunk_ids bill_id n).
Proof.
  unfold chunk_ids. change (map ?f ?l) with (f <$> l).
  apply NoDup_fmap_2; [|apply NoDup_seq].
  intros i j. apply chunk_id_inj.
Qed.

Section Retrieval.

Variable py_str : pyvalue -> string.
Variable distance : string -> string -> pyfloat.
Variable store_other : pyvalue -> result pyvalue.
Variable embed : list string -> result unit.

Lemma chunk_entries_elem (bill_id : string) (chunks : list string)
    (m : gmap string pyvalue) (e : entry) :
  e ∈ chunk_entries bill_id chunks m ->
  exists i chunk,
    chunks !! i = Some chunk /\ e = Entry (chunk_id bill_id i) chunk m.
Proof.
  intros He. apply list_elem_of_lookup in He as [i He].
  destruct (chunks !! i) as [chunk|] eqn:Hc.
  - rewrite (chunk_entries_lookup _ _ _ _ _ Hc) in He.
    injection He as <-. eauto.
  - unfold chunk_entries, zip3 in He. rewrite !lookup_zip_with, Hc in He.
    destruct (chunk_ids _ _ !! i); discriminate.
Qed.

Lemma chunk_entries_ids_list (bill_id : string) (chunks : list string)
    (m : gmap string pyvalue) :
  map e_id (chunk_entries bill_id chunks m)
  = chunk_ids bill_id (length chunks).
Proof.
  change (map e_id ?l) with (e_id <$> l). apply list_eq. intros i.
  rewrite list_lookup_fmap.
  destruct (chunks !! i) as [chunk|] eqn:Hc.
  - rewrite (chunk_entries_lookup _ _ _ _ _ Hc). simpl.
    unfold chunk_ids. change (map ?f ?l) with (f <$> l).
    rewrite list_lookup_fmap, lookup_seq_lt; [reflexivity|].
    now apply lookup_lt_Some in Hc.
  - apply lookup_ge_None in Hc as Hge.
    unfold chunk_entries, zip3. rewrite !lookup_zip_with, Hc.
    assert (Hi : chunk_ids bill_id (length chunks) !! i = None).
    { apply lookup_ge_None. unfold chunk_ids.
      now rewrite length_map, length_seq. }
    now rewrite Hi.
Qed.

Lemma collection_get_absent (c : list entry) (i : string) :
  ~ In i (map e_id c) -> collection_get c i = [].
Proof.
  induction c as [|e c IH]; intros H; [reflexivity|].
  rewrite collection_get_cons. simpl in H.
  destruct (String.eqb (e_id e) i) eqn:E.
  - apply String.eqb_eq in E. tauto.
  - apply IH. tauto.
Qed.

Lemma collection_get_unique (c : list entry) (i : nat) (e : entry) :
  NoDup (map e_id c) -> c !! i = Some e -> collection_get c (e_id e) = [e].
Proof.
  revert i. induction c as [|x c IH]; intros i Hnd Hi; [discriminate|].
  change (map e_id (x :: c)) with (e_id x :: map e_id c) in Hnd.
  apply NoDup_cons in Hnd as [Hx Hnd]. rewrite collection_get_cons.
  destruct i as [|i]; simpl in Hi.
  - injection Hi as ->. rewrite String.eqb_refl. f_equal.
    apply collection_get_absent. intros H. apply Hx. now apply list_elem_of_In.
  - destruct (String.eqb (e_id x) (e_id e)) eqn:E.
    + apply String.eqb_eq in E. exfalso. apply Hx. rewrite E.
      apply list_elem_of_In, in_map, list_elem_of_In, list_elem_of_lookup. eauto.
    + now apply (IH i).
Qed.

Lemma kept_bill_id (bill_id : string) (metadata kept : gmap string pyvalue) :
  store_metadata store_other (sanitize_metadata py_str bill_id metadata)
  = Ok kept ->
  kept !! "bill_id" = Some (PStr bill_id).
Proof.
  intros H. apply store_metadata_kept in H as [H _].
  destruct (H _ _ (lookup_sanitize_bill_id py_str bill_id metadata))
    as (v' & Hv & ->).
  now injection Hv as <-.
Qed.

(** X6: the ids of the chunks of a bill are pairwise distinct, so
    whenever storing a bill into an empty index returns, each chunk id
    holds exactly one entry: the chunk of that position, with the
    metadata as the store keeps it, which carries the bill id.  The call
    returns when the chunk list is not empty, the store accepts every
    sanitized value and its embedding provider returns; on an empty chunk
    list it raises [ValueError]. *)
Theorem store_then_get (policy : add_policy) (bill_id : string)
    (chunks : list string) (metadata : gmap string pyvalue) :
  (forall i j, chunk_id bill_id i = chunk_id bill_id j -> i = j)
  /\ (forall c,
        store_bill_chunks py_str policy store_other embed [] bill_id chunks
          metadata = Ok c ->
        length c = length chunks
        /\ exists kept,
             store_metadata store_other
               (sanitize_metadata py_str bill_id metadata) = Ok kept
             /\ kept !! "bill_id" = Some (PStr bill_id)
             /\ forall i chunk, chunks !! i = Some chunk ->
                  collection_get c (chunk_id bill_id i)
                  = [Entry (chunk_id bill_id i) chunk kept])
  /\ (chunks <> [] ->
      (forall key v,
         sanitize_metadata py_str bill_id metadata !! key = Some v ->
         failure (store_value store_other v) = None) ->
      embed chunks = Ok tt ->
      exists c,
        store_bill_chunks py_str policy store_other embed [] bill_id chunks
          metadata = Ok c)
  /\ store_bill_chunks py_str policy store_other embed [] bill_id [] metadata
     = Raise ValueError.
Proof.
  split; [apply chunk_id_inj|]. split; [|split; [|reflexivity]].
  - intros c Hs. apply store_empty_ok in Hs as (kept & Hk & ->). split.
    + rewrite <- (length_map e_id), chunk_entries_ids_list.
      unfold chunk_ids. now rewrite length_map, length_seq.
    + exists kept. split; [exact Hk|].
      split; [apply (kept_bill_id _ _ _ Hk)|].
      intros i chunk Hi.
      pose proof (chunk_entries_lookup bill_id _ kept _ _ Hi) as He.
      apply (collection_get_unique _ i _
               ltac:(rewrite chunk_entries_ids_list; apply chunk_ids_NoDup) He).
  - intros Hne Hv He.
    destruct (store_metadata_accepts store_other _ Hv) as [kept Hm].
    exists (chunk_entries bill_id chunks kept).
    now apply store_empty.
Qed.

(** *** Isolation of the bills *)

Lemma store_all_provenance (policy : add_policy)
    (calls : list (string * list string * gmap string pyvalue))
    (c c' : list entry) :
  store_all py_str policy store_other embed c calls = Ok c' ->
  forall e, e ∈ c' -> e ∈ c \/ stored_by py_str store_other calls e.
Proof.
  revert c. induction calls as [|[[bill_id chunks] metadata] rest IH];
    intros c H e He.
  - injection H as <-. now left.
  - cbn [store_all] in H.
    destruct (store_bill_chunks py_str policy store_other embed c bill_id
                chunks metadata) as [c1|] eqn:Hs; [|discriminate].
    destruct (IH _ H e He)
      as [H1 | (b & ch & md & i & chunk & kept & Hin & Hi & Hk & ->)].
    + apply store_ok in Hs as (_ & _ & kept & Hk & ->).
      apply elem_of_app in H1 as [H1 | H1]; [now left|]. right.
      apply added_entries_sub, chunk_entries_elem in H1
        as (i & chunk & Hi & ->).
      exists bill_id, chunks, metadata, i, chunk, kept. repeat split; auto.
      now left.
    + right. exists b, ch, md, i, chunk, kept. repeat split; auto. now right.
Qed.

(** X7: after any sequence of store calls on an empty index, a query
    for a bill that returns gives at most [k] items, each the text of a
    chunk stored under that bill id with the distance of the question to
    it, and no item for a bill id under which nothing was stored.  A
    query returns when [k] is not zero and the provider embeds the
    question; with [k] zero it raises [TypeError]. *)
Theorem query_isolation (policy : add_policy)
    (calls : list (string * list string * gmap string pyvalue))
    (c : list entry) (question bill_id : string) (k : nat)
    (items : list context_item) :
  store_all py_str policy store_other embed [] calls = Ok c ->
  get_relevant_context distance embed c question bill_id k = Ok items ->
  length items <= k
  /\ (forall item, item ∈ items ->
        exists chunks metadata i,
          In (bill_id, chunks, metadata) calls
          /\ chunks !! i = Some (c_text item)
          /\ c_relevance_score item = distance question (c_text item))
  /\ ((forall chunks metadata, ~ In (bill_id, chunks, metadata) calls) ->
      items = [])
  /\ (forall c0 q b n, n <> 0 -> embed [q] = Ok tt ->
        exists found, get_relevant_context distance embed c0 q b n = Ok found)
  /\ (forall c0 q b,
        get_relevant_context distance embed c0 q b 0 = Raise TypeError).
Proof.
  intros Hc Hq.
  assert (Hitems : forall item, item ∈ items ->
            exists chunks metadata i,
              In (bill_id, chunks, metadata) calls
              /\ chunks !! i = Some (c_text item)
              /\ c_relevance_score item = distance question (c_text item)).
  { intros item Hi.
    destruct (retrieved_from_index _ _ _ _ _ _ _ _ Hq Hi)
      as (e & He & Hb & Ht & _ & Hd).
    destruct (store_all_provenance _ _ _ _ Hc e He)
      as [Hnil | (b & ch & md & i & chunk & kept & Hin & Hi' & Hk & ->)].
    - now apply elem_of_nil in Hnil.
    - cbn [e_meta e_doc] in *. rewrite (kept_bill_id _ _ _ Hk) in Hb.
      injection Hb as ->. exists ch, md, i. rewrite Ht, Hd. auto. }
  split; [|split; [exact Hitems|split; [|split]]].
  - apply get_relevant_context_ok in Hq as (_ & _ & ->).
    rewrite length_map, length_take. lia.
  - intros Hno. destruct items as [|item rest] eqn:E; [reflexivity|].
    destruct (Hitems item ltac:(apply list_elem_of_here))
      as (ch & md & _ & Hin & _).
    now apply Hno in Hin.
  - intros. now apply get_relevant_context_returns.
  - reflexivity.
Qed.

End Retrieval.

Lemma query_isolation_witness :
  store_all sample_str SkipExisting sample_store_other sample_embed []
    [("118-hr-589", ["An Act"; "to amend"], ∅)]
  = Ok (new_entries sample_str "118-hr-589" ["An Act"; "to amend"] ∅)
  /\ get_relevant_context sample_distance sample_embed
       (new_entries sample_str "118-hr-589" ["An Act"; "to amend"] ∅)
       "what is amended?" "119-hr-1" 5 = Ok []
  /\ length ([] : list context_item) <= 5.
Proof.
  assert (H : store_all sample_str SkipExisting sample_store_other sample_embed
                [] [("118-hr-589", ["An Act"; "to amend"], ∅)]
              = Ok (new_entries sample_str "118-hr-589" ["An Act"; "to amend"] ∅))
    by (vm_compute; reflexivity).
  assert (Hq : get_relevant_context sample_distance sample_embed
                 (new_entries sample_str "118-hr-589" ["An Act"; "to amend"] ∅)
                 "what is amended?" "119-hr-1" 5 = Ok [])
    by (vm_compute; reflexivity).
  split; [exact H|]. split; [exact Hq|].
  exact (proj1 (query_isolation sample_str sample_distance sample_store_other
                  sample_embed SkipExisting _ _
                  "what is amended?" "119-hr-1" 5 [] H Hq)).
Defined.

(** ** Questions and summaries *)

Section Answers.

Variable py_str : pyvalue -> string.
Variable distance : string -> string -> pyfloat.
Variable reply : list string -> string -> result (option string).
Variable embed : list string -> result unit.

Lemma query_bill_outcome (c : list entry)
    (bill_metadatas : gmap string (gmap string pyvalue)) (log : list string)
    (question bill_id : string) (k : nat) :
  query_bill py_str distance reply embed c bill_metadatas log question bill_id k
  = match get_relevant_context distance embed c question bill_id k with
    | Raise e => (Raise e, log)
    | Ok context =>
        let prompt :=
          answer_prompt (py_str (bill_field bill_metadatas bill_id "title"))
            (py_str (bill_field bill_metadatas bill_id "congress"))
            (py_str (bill_field bill_metadatas bill_id "sponsor"))
            (py_str (bill_field bill_metadatas bill_id "bill_type"))
            (join (nl +:+ nl) (map (render_item py_str) (take 5 context)))
            question in
        (reply log prompt, log ++ [prompt])
    end.
Proof.
  unfold query_bill.
  destruct (get_relevant_context distance embed c question bill_id k)
    as [context|e]; [|reflexivity].
  unfold generate_contextualized_response, compose_prompt.
  cbv zeta. unfold getitem.
  rewrite lookup_insert_ne, lookup_insert_ne, lookup_insert_ne,
    lookup_insert_eq by discriminate.
  rewrite lookup_insert_ne, lookup_insert_ne, lookup_insert_eq by discriminate.
  rewrite lookup_insert_ne, lookup_insert_eq by discriminate.
  rewrite lookup_insert_eq. cbn [bind].
  rewrite context_window_take.
  assert (Hf : forall key,
            meta_get match bill_metadatas !! bill_id with
                     | Some m => m
                     | None => ∅
                     end key (PStr "N/A")
            = bill_field bill_metadatas bill_id key).
  { intros key. unfold bill_field.
    destruct (bill_metadatas !! bill_id); [reflexivity|].
    unfold meta_get. now rewrite lookup_empty. }
  rewrite !Hf. reflexivity.
Qed.

(** X8: [query_bill] first queries the index; when the query fails (a
    number of results that is zero, a failure of the embedding provider)
    it raises that failure and sends no request.  Otherwise it never
    raises a [KeyError]: it sends exactly one request, whose prompt
    renders the title, congress, sponsor and bill type stored for the
    bill, or N/A for each that is missing (all four when nothing is stored
    for the bill), with the first five retrieved items; its result is the
    answer of the provider.  The metadata stored last for a bill is the
    metadata rendered. *)
Theorem query_bill_prompt (c : list entry)
    (bill_metadatas : gmap string (gmap string pyvalue)) (log : list string)
    (question bill_id : string) (k : nat) :
  match get_relevant_context distance embed c question bill_id k with
  | Raise e =>
      query_bill py_str distance reply embed c bill_metadatas log question
        bill_id k
      = (Raise e, log)
  | Ok context =>
      let prompt :=
        answer_prompt (py_str (bill_field bill_metadatas bill_id "title"))
          (py_str (bill_field bill_metadatas bill_id "congress"))
          (py_str (bill_field bill_metadatas bill_id "sponsor"))
          (py_str (bill_field bill_metadatas bill_id "bill_type"))
          (join (nl +:+ nl) (map (render_item py_str) (take 5 context)))
          question in
      query_bill py_str distance reply embed c bill_metadatas log question
        bill_id k
      = (reply log prompt, log ++ [prompt])
  end
  /\ (k = 0 \/ (exists e, embed [question] = Raise e) ->
      exists e,
        query_bill py_str distance reply embed c bill_metadatas log question
          bill_id k
        = (Raise e, log))
  /\ (forall metadata key,
        bill_field (store_bill_metadata bill_metadatas bill_id metadata)
          bill_id key
        = meta_get metadata key (PStr "N/A"))
  /\ (forall other metadata key, other <> bill_id ->
        bill_field (store_bill_metadata bill_metadatas other metadata)
          bill_id key
        = bill_field bill_metadatas bill_id key).
Proof.
  split; [|split; [|split]].
  - rewrite query_bill_outcome.
    now destruct (get_relevant_context distance embed c question bill_id k).
  - intros H. rewrite query_bill_outcome.
    unfold get_relevant_context, collection_query.
    destruct k as [|k]; [eauto|].
    destruct H as [H | [e H]]; [discriminate|]. rewrite H. cbn [bind]. eauto.
  - intros metadata key. unfold bill_field, store_bill_metadata.
    now rewrite lookup_insert_eq.
  - intros other metadata key Hne. unfold bill_field, store_bill_metadata.
    now rewrite lookup_insert_ne.
Qed.

(** X9: when the metadata given to
    [generate_contextualized_response] lacks one of the keys title,
    congress, sponsor, bill_type, it raises the [KeyError] of the first
    missing one and sends no request; otherwise it sends one request and
    returns the answer of the provider. *)
Theorem contextualized_response_keys (log : list string) (question : string)
    (context : list context_item) (metadata : gmap string pyvalue) :
  match first_missing ["title"; "congress"; "sponsor"; "bill_type"] metadata with
  | Some k =>
      generate_contextualized_response py_str reply log question context metadata
      = (Raise (KeyError k), log)
  | None =>
      exists prompt,
        compose_prompt py_str question context metadata = Ok prompt
        /\ generate_contextualized_response py_str reply log question context
             metadata
           = (reply log prompt, log ++ [prompt])
  end.
Proof.
  unfold generate_contextualized_response, compose_prompt, getitem.
  cbn [first_missing]. cbv zeta.
  destruct (metadata !! "title"); [|reflexivity].
  destruct (metadata !! "congress"); [|reflexivity].
  destruct (metadata !! "sponsor"); [|reflexivity].
  destruct (metadata !! "bill_type"); [|reflexivity].
  cbn [bind]. eauto.
Qed.

(** X10: [generate_executive_summary] raises the [KeyError] of the
    first of title, sponsor, introduced_date that the metadata lacks, and
    then sends no request; otherwise it sends one request, the summary
    prompt with the three fields and the truncated bill text, and returns
    the answer of the provider. *)
Theorem executive_summary_keys (log : list string) (bill_text : string)
    (metadata : gmap string pyvalue) :
  match first_missing ["title"; "sponsor"; "introduced_date"] metadata with
  | Some k =>
      generate_executive_summary py_str reply log bill_text metadata
      = (Raise (KeyError k), log)
  | None =>
      exists title sponsor introduced_date,
        metadata !! "title" = Some title
        /\ metadata !! "sponsor" = Some sponsor
        /\ metadata !! "introduced_date" = Some introduced_date
        /\ let prompt :=
             summary_prompt (py_str title) (py_str sponsor)
               (py_str introduced_date)
               (truncate 30000 text_truncated bill_text) in
           generate_executive_summary py_str reply log bill_text metadata
           = (reply log prompt, log ++ [prompt])
  end.
Proof.
  unfold generate_executive_summary, getitem. cbn [first_missing]. cbv zeta.
  destruct (metadata !! "title") as [t|]; [|reflexivity].
  destruct (metadata !! "sponsor") as [s|]; [|reflexivity].
  destruct (metadata !! "introduced_date") as [d|]; [|reflexivity].
  cbn [bind]. exists t, s, d. auto.
Qed.

Lemma length_stake (n : nat) (s : string) :
  String.length (stake n s) = Nat.min n (String.length s).
Proof.
  revert s. induction n as [|n IH]; intros [|c s]; simpl; auto.
Qed.

Lemma truncate_long (n : Z) (notice t1 t2 : string) :
  (n < slen t1)%Z -> (n < slen t2)%Z ->
  stake (Z.to_nat n) t1 = stake (Z.to_nat n) t2 ->
  truncate n notice t1 = truncate n notice t2.
Proof.
  intros H1 H2 H. unfold truncate.
  destruct (Z.ltb_spec n (slen t1)); [|lia].
  destruct (Z.ltb_spec n (slen t2)); [|lia].
  now rewrite H.
Qed.

Lemma truncate_length (n : Z) (notice text : string) :
  (0 <= n)%Z ->
  String.length (truncate n notice text)
  <= Z.to_nat n + String.length notice.
Proof.
  intros Hn. unfold truncate, slen.
  destruct (Z.ltb_spec n (Z.of_nat (String.length text))).
  - rewrite length_append, length_stake. lia.
  - lia.
Qed.

(** X11: of a bill text longer than 30000 characters only the first
    30000 reach the model: two such texts with the same first 30000
    characters give the same request and result of the scorer, whatever
    the metadata, and of the summary; the text put in a prompt is never
    longer than 30000 characters and the notice, and a section content
    never longer than 12000 characters and its notice. *)
Theorem long_text_prefix_only (log : list string) (t1 t2 : string)
    (md1 md2 : gmap string pyvalue) :
  (30000 < slen t1)%Z -> (30000 < slen t2)%Z ->
  stake (Z.to_nat 30000) t1 = stake (Z.to_nat 30000) t2 ->
  score_political_ideology reply log t1 md1
  = score_political_ideology reply log t2 md2
  /\ generate_executive_summary py_str reply log t1 md1
     = generate_executive_summary py_str reply log t2 md1
  /\ (forall text,
        String.length (truncate 30000 text_truncated text)
        <= Z.to_nat 30000 + String.length text_truncated)
  /\ (forall text,
        String.length (truncate 12000 section_truncated text)
        <= Z.to_nat 12000 + String.length section_truncated).
Proof.
  intros H1 H2 H.
  pose proof (truncate_long 30000 text_truncated t1 t2 H1 H2 H) as Ht.
  unfold score_political_ideology, generate_executive_summary. cbv zeta.
  rewrite Ht. repeat split; intros; apply truncate_length; lia.
Qed.

End Answers.

Lemma long_text_length (n : nat) (tail : string) :
  slen (long_text n tail) = Z.of_nat (n + String.length tail).
Proof.
  unfold slen, long_text. rewrite length_append. do 2 f_equal.
  induction n as [|n IH]; simpl; [reflexivity | now rewrite IH].
Qed.

Lemma long_text_prefix (n : nat) (tail : string) :
  stake n (long_text n tail) = repeat_char "a" n.
Proof.
  unfold long_text. induction n as [|n IH]; [now destruct tail|].
  cbn [repeat_char]. change (String ?c ?a +:+ ?b) with (String c (a +:+ b)).
  cbn [stake]. now rewrite IH.
Qed.

Lemma long_text_prefix_only_witness :
  (30000 < slen (long_text (Z.to_nat 30000) "Section 9."))%Z
  /\ (30000 < slen (long_text (Z.to_nat 30000) "x"))%Z
  /\ stake (Z.to_nat 30000) (long_text (Z.to_nat 30000) "Section 9.")
     = stake (Z.to_nat 30000) (long_text (Z.to_nat 30000) "x")
  /\ score_political_ideology (constant_reply huge_score_response) []
       (long_text (Z.to_nat 30000) "Section 9.") ∅
     = score_political_ideology (constant_reply huge_score_response) []
         (long_text (Z.to_nat 30000) "x") ∅.
Proof.
  assert (H1 : (30000 < slen (long_text (Z.to_nat 30000) "Section 9."))%Z)
    by (rewrite long_text_length; cbn [String.length]; lia).
  assert (H2 : (30000 < slen (long_text (Z.to_nat 30000) "x"))%Z)
    by (rewrite long_text_length; cbn [String.length]; lia).
  assert (H3 : stake (Z.to_nat 30000) (long_text (Z.to_nat 30000) "Section 9.")
               = stake (Z.to_nat 30000) (long_text (Z.to_nat 30000) "x"))
    by (now rewrite !long_text_prefix).
  split; [exact H1|]. split; [exact H2|]. split; [exact H3|].
  exact (proj1 (long_text_prefix_only sample_str
                  (constant_reply huge_score_response) []
                  _ _ ∅ ∅ H1 H2 H3)).
Defined.

(** ** The parsing of every response *)

(** X12: the parsing raises only on a response without text: on every
    text, with labels or not, the numerals it captures are accepted by
    [float] and the fields are returned; the error defaults are the result
    of a response without text. *)
Theorem parse_raises_only_without_text (content : option string) :
  (forall s, content = Some s ->
     exists r, parse_fields content = Ok r /\ parse_response content = r
       /\ key_phrases r = extract_key_phrases s)
  /\ (content = None ->
      parse_fields content = Raise TypeError
      /\ parse_response content = parse_error_defaults)
  /\ (forall e, parse_fields content = Raise e ->
      content = None /\ e = TypeError).
Proof.
  destruct content as [s|].
  - destruct (parse_fields_text s) as (sc & cf & Hp & _).
    split; [|split; [discriminate | rewrite Hp; discriminate]].
    intros s' [= <-]. eexists. split; [exact Hp|].
    unfold parse_response. rewrite Hp. auto.
  - split; [discriminate|]. split; [auto|].
    cbn. intros e [= <-]. auto.
Qed.

Lemma findall_quoted_elems (k : nat) (s : string) :
  Forall (fun p => p <> "" /\ all_chars not_dquote p) (findall_quoted k s).
Proof.
  revert k. induction s as [|c s IH]; intros k; [constructor|].
  cbn [findall_quoted]. destruct k as [|k]; [|apply IH].
  destruct (eq_char c dquote); [|apply IH].
  destruct (is_empty (run not_dquote s)) eqn:E; [apply IH|].
  destruct (skip not_dquote s); [apply IH|].
  constructor; [|apply IH].
  split; [now apply is_empty_false | apply run_all].
Qed.

Lemma findall_runs_elems (cls : ascii -> bool) (cur s : string) :
  all_chars cls cur ->
  Forall (fun p => p <> "" /\ all_chars cls p) (findall_runs cls cur s).
Proof.
  assert (Hflush : forall w, all_chars cls w ->
            Forall (fun p => p <> "" /\ all_chars cls p) (flush w)).
  { intros w Hw. unfold flush. destruct (is_empty w) eqn:E; constructor;
      [|constructor]. split; [now apply is_empty_false | exact Hw]. }
  revert cur. induction s as [|c s IH]; intros cur Hcur; cbn [findall_runs].
  - now apply Hflush.
  - destruct (cls c) eqn:E.
    + apply IH. apply all_chars_app; [exact Hcur|].
      apply all_chars_cons. split; [exact E | apply all_chars_nil].
    + apply Forall_app. split; [now apply Hflush|].
      apply IH, all_chars_nil.
Qed.

Lemma findall_runs_current (cls : ascii -> bool) (cur s : string) :
  cur <> "" -> findall_runs cls cur s <> [].
Proof.
  revert cur. induction s as [|c s IH]; intros cur Hcur; cbn [findall_runs].
  - now rewrite flush_word.
  - destruct (cls c); [apply IH, app_not_empty|].
    now rewrite flush_word.
Qed.

Lemma findall_runs_some (cls : ascii -> bool) (cur s : string) :
  has_char cls s = true -> findall_runs cls cur s <> [].
Proof.
  revert cur. induction s as [|c s IH]; intros cur H; [discriminate|].
  cbn [has_char] in H. cbn [findall_runs]. destruct (cls c).
  - apply findall_runs_current, app_not_empty.
  - simpl in H. intros E. apply app_eq_nil in E as [_ E]. now apply (IH "").
Qed.

(** X13: the order of the three sources of key phrases.  When the
    response has quoted phrases they are the key phrases, each non-empty
    and without double quote.  When it has no quoted phrase (in
    particular when it has no double quote) but a backslash or a caret,
    the key phrases are the runs of these two characters and the labelled
    list of phrases is not read.  Only a response with no quoted phrase
    and none of these two characters gives the phrases of the labelled
    list, or the fixed list when that gives nothing. *)
Theorem key_phrases_precedence (s : string) :
  let phrases := key_phrases (parse_response (Some s)) in
  (findall_quoted 0 s <> [] ->
     phrases = findall_quoted 0 s
     /\ Forall (fun p => p <> "" /\ all_chars not_dquote p) phrases)
  /\ (findall_quoted 0 s = [] ->
      has_char is_backslash_or_caret s = true ->
      phrases = findall_runs is_backslash_or_caret "" s
      /\ Forall (fun p => p <> "" /\ all_chars is_backslash_or_caret p) phrases)
  /\ (findall_quoted 0 s = [] ->
      has_char is_backslash_or_caret s = false ->
      phrases = match labeled_phrases s with
                | [] => ["No key phrases identified"]
                | l => l
                end)
  /\ (has_char (fun c => eq_char c dquote) s = false ->
      findall_quoted 0 s = []).
Proof.
  intros phrases.
  assert (Hp : phrases = extract_key_phrases s).
  { unfold phrases, parse_response.
    destruct (parse_fields_text s) as (sc & cf & -> & _). reflexivity. }
  rewrite Hp. unfold extract_key_phrases. split; [|split; [|split]].
  - intros Hq. pose proof (findall_quoted_elems 0 s) as He.
    destruct (findall_quoted 0 s); [congruence|]. auto.
  - intros Hq Hc. rewrite Hq.
    pose proof (findall_runs_some _ "" s Hc) as Hne.
    pose proof (findall_runs_elems is_backslash_or_caret "" s
                  (all_chars_nil _)) as He.
    destruct (findall_runs is_backslash_or_caret "" s); [congruence|]. auto.
  - intros Hq Hc. rewrite Hq, findall_runs_none by assumption.
    destruct (labeled_phrases s); reflexivity.
  - apply findall_quoted_none.
Qed.

(** ** Bill URLs and bill ids *)

Lemma eq_char_refl (c : ascii) : eq_char c c = true.
Proof. now apply eq_char_eq. Qed.

Lemma lit_app (p s : string) : lit p (p +:+ s) = Some s.
Proof.
  induction p as [|c p IH]; [reflexivity|].
  change (String c p +:+ s) with (String c (p +:+ s)).
  cbn [lit]. now rewrite eq_char_refl.
Qed.

Lemma lit_prefix (p s r : string) : lit p s = Some r -> prefix p s = true.
Proof.
  revert s. induction p as [|a p IH]; intros [|b s] H; try reflexivity;
    try discriminate.
  cbn [lit] in H. cbn [prefix]. destruct (eq_char a b); [|discriminate].
  now apply IH.
Qed.

Lemma all_chars_of_has_char (cls : ascii -> bool) (s : string) :
  has_char (fun c => negb (cls c)) s = false -> all_chars cls s.
Proof.
  induction s as [|c s IH]; intros H; [apply all_chars_nil|].
  cbn [has_char] in H. apply orb_false_elim in H as [Hc Hs].
  apply all_chars_cons. split; [now apply negb_false_iff | auto].
Qed.

Lemma all_chars_impl (cls cls' : ascii -> bool) (s : string) :
  (forall c, cls c = true -> cls' c = true) ->
  all_chars cls s -> all_chars cls' s.
Proof. intros H Hs c Hc. auto. Qed.

Lemma search_bill_url_skip (c : ascii) (s : string) :
  eq_char "c" c = false ->
  search_bill_url (String c s) = search_bill_url s.
Proof.
  intros H. cbn [search_bill_url]. unfold match_bill_url at 1.
  cbn [lit]. now rewrite H.
Qed.

Lemma search_bill_url_here (s : string) (g : string * string * string) :
  match_bill_url s = Some g -> search_bill_url s = Some g.
Proof. intros H. destruct s; cbn [search_bill_url]; now rewrite H. Qed.

Lemma ordinal_suffix_app (suffix rest : string) :
  In suffix ["st"; "nd"; "rd"; "th"] ->
  ordinal_suffix (suffix +:+ rest) = Some rest
  /\ exists c t, suffix +:+ rest = String c t /\ isdigit c = false.
Proof.
  intros H. simpl in H.
  destruct H as [<- | [<- | [<- | [<- | []]]]]; split; try reflexivity;
    eexists _, _; split; reflexivity.
Qed.

Lemma bill_type_map_get (web api : string) :
  In (web, api) bill_type_map ->
  dict_get web bill_type_map = Some api
  /\ is_empty api = false
  /\ all_chars not_slash web.
Proof.
  intros H. simpl in H.
  repeat (destruct H as [[= <- <-] | H];
          [repeat split; try reflexivity;
           apply all_chars_of_has_char; reflexivity|]).
  destruct H.
Qed.

(** X14: a bill URL of the site, built from a congress number with its
    ordinal suffix, one of the eight bill types of the site and a bill
    number, whatever follows the number, parses to the congress, the API
    name of the bill type and the number. *)
Theorem parse_congress_url_built (congress number suffix web api tail : string) :
  congress <> "" -> all_chars isdigit congress ->
  number <> "" -> all_chars isdigit number ->
  In suffix ["st"; "nd"; "rd"; "th"] ->
  In (web, api) bill_type_map ->
  match tail with
  | String c _ => isdigit c = false
  | EmptyString => True
  end ->
  parse_congress_url
    ("https://www.congress.gov/bill/" +:+ congress +:+ suffix +:+ "-congress/"
     +:+ web +:+ "/" +:+ number +:+ tail)
  = Ok {| bi_congress := congress; bi_bill_type := api; bi_number := number |}.
Proof.
  intros Hc Hcd Hn Hnd Hs Hw Ht.
  destruct (bill_type_map_get _ _ Hw) as (Hget & Hapi & Hweb).
  set (r4 := number +:+ tail).
  set (r3 := web +:+ "/" +:+ r4).
  set (r2 := "-congress/" +:+ r3).
  destruct (ordinal_suffix_app suffix r2 Hs) as (Hsuf & c0 & t0 & Hhead & Hc0).
  set (r1 := congress +:+ suffix +:+ r2) in *.
  assert (Hm : match_bill_url ("congress.gov/bill/" +:+ r1)
               = Some (congress, web, number)).
  { unfold match_bill_url. rewrite lit_app.
    destruct (run_of_all isdigit congress (suffix +:+ r2) Hcd
                ltac:(rewrite Hhead; exact Hc0)) as [Hr1 Hs1].
    fold r1 in Hr1, Hs1. rewrite Hr1, Hs1.
    apply is_empty_false in Hc. rewrite Hc, Hsuf.
    unfold r2 at 1. rewrite lit_app.
    destruct (run_of_all not_slash web (String "/" r4) Hweb eq_refl)
      as [Hr3 Hs3].
    change (web +:+ String "/" r4) with r3 in Hr3, Hs3. rewrite Hr3, Hs3.
    assert (Hwe : is_empty web = false).
    { simpl in Hw.
      repeat (destruct Hw as [[= <- <-] | Hw]; [reflexivity|]). destruct Hw. }
    rewrite Hwe.
    destruct (run_of_all isdigit number tail Hnd
                ltac:(destruct tail; [exact I | exact Ht])) as [Hr4 _].
    fold r4 in Hr4. rewrite Hr4.
    apply is_empty_false in Hn. now rewrite Hn. }
  unfold parse_congress_url.
  change ("https://www.congress.gov/bill/" +:+ r1)
    with ("https://www." +:+ ("congress.gov/bill/" +:+ r1)).
  cbn [String.append].
  rewrite !search_bill_url_skip by reflexivity.
  change (String "c" (String "o" (String "n" (String "g" (String "r"
           (String "e" (String "s" (String "s" (String "."
           (String "g" (String "o" (String "v" (String "/"
           (String "b" (String "i" (String "l" (String "l"
           (String "/" r1))))))))))))))))))
    with ("congress.gov/bill/" +:+ r1).
  rewrite (search_bill_url_here _ _ Hm), Hget, Hapi. reflexivity.
Qed.

Lemma parse_congress_url_built_witness :
  ("118" <> "" /\ "1234" <> "")
  /\ parse_congress_url
       "https://www.congress.gov/bill/118th-congress/house-bill/1234/text"
     = Ok {| bi_congress := "118"; bi_bill_type := "hr"; bi_number := "1234" |}.
Proof.
  split; [split; discriminate|].
  apply (parse_congress_url_built "118" "1234" "th" "house-bill" "hr" "/text");
    try discriminate;
    try (apply all_chars_of_has_char; reflexivity);
    try reflexivity.
  - simpl. tauto.
  - simpl. tauto.
Defined.

Lemma match_bill_url_groups (s congress bill_type number : string) :
  match_bill_url s = Some (congress, bill_type, number) ->
  (congress <> "" /\ all_chars isdigit congress)
  /\ (number <> "" /\ all_chars isdigit number)
  /\ prefix "congress.gov/bill/" s = true.
Proof.
  unfold match_bill_url.
  destruct (lit "congress.gov/bill/" s) as [r1|] eqn:E1; [|discriminate].
  destruct (is_empty (run isdigit r1)) eqn:E2; [discriminate|].
  destruct (ordinal_suffix _) as [r2|]; [|discriminate].
  destruct (lit "-congress/" r2) as [r3|]; [|discriminate].
  destruct (is_empty (run not_slash r3)); [discriminate|].
  destruct (skip not_slash r3) as [|c r4]; [discriminate|].
  destruct (is_empty (run isdigit r4)) eqn:E4; [discriminate|].
  intros [= <- <- <-].
  split; [split; [now apply is_empty_false | apply run_all]|].
  split; [split; [now apply is_empty_false | apply run_all]|].
  eapply lit_prefix, E1.
Qed.

Lemma search_bill_url_groups (s congress bill_type number : string) :
  search_bill_url s = Some (congress, bill_type, number) ->
  (congress <> "" /\ all_chars isdigit congress)
  /\ (number <> "" /\ all_chars isdigit number)
  /\ contains "congress.gov/bill/" s = true.
Proof.
  induction s as [|c s IH]; cbn [search_bill_url contains].
  - destruct (match_bill_url "") as [g|] eqn:E; [|discriminate].
    intros [= ->]. apply match_bill_url_groups in E as (H1 & H2 & H3).
    rewrite H3. auto.
  - destruct (match_bill_url (String c s)) as [g|] eqn:E.
    + intros [= ->]. apply match_bill_url_groups in E as (H1 & H2 & H3).
      rewrite H3. auto.
    + intros H. destruct (IH H) as (H1 & H2 & H3). rewrite H3, orb_true_r. auto.
Qed.

Lemma dict_get_in (k v : string) (d : list (string * string)) :
  dict_get k d = Some v -> In v (map snd d).
Proof.
  induction d as [|[k' v'] d IH]; [discriminate|].
  cbn [dict_get]. destruct (String.eqb k' k).
  - intros [= ->]. now left.
  - intros H. right. auto.
Qed.

Lemma parse_congress_url_ok (url : string) (b : bill_info) :
  parse_congress_url url = Ok b ->
  parsed_bill b /\ contains "congress.gov/bill/" url = true.
Proof.
  unfold parse_congress_url.
  destruct (search_bill_url url) as [[[c t] n]|] eqn:E; [|discriminate].
  destruct (dict_get t bill_type_map) as [api|] eqn:Ed; [|discriminate].
  destruct (is_empty api); [discriminate|]. intros [= <-].
  apply search_bill_url_groups in E as (H1 & H2 & H3).
  split; [|exact H3]. unfold parsed_bill. cbn. repeat split; try tauto.
  exact (dict_get_in _ _ _ Ed).
Qed.

(** X15: what [parse_congress_url] returns is a congress and a bill
    number made of digits, neither empty, and one of the eight API bill
    types; what it raises is a [ValueError], always so when the URL does
    not contain the path of a bill of the site. *)
Theorem parse_congress_url_result (url : string) :
  match parse_congress_url url with
  | Ok b => parsed_bill b /\ contains "congress.gov/bill/" url = true
  | Raise e => e = ValueError
  end
  /\ (contains "congress.gov/bill/" url = false ->
      parse_congress_url url = Raise ValueError).
Proof.
  assert (H : match parse_congress_url url with
              | Ok b => parsed_bill b /\ contains "congress.gov/bill/" url = true
              | Raise e => e = ValueError
              end).
  { destruct (parse_congress_url url) as [b|e] eqn:E.
    - now apply parse_congress_url_ok.
    - unfold parse_congress_url in E.
      destruct (search_bill_url url) as [[[c t] n]|]; [|congruence].
      destruct (dict_get t bill_type_map) as [api|]; [|congruence].
      destruct (is_empty api); congruence. }
  split; [exact H|]. intros Hc.
  destruct (parse_congress_url url) as [b|e]; [|now subst].
  destruct H as [_ H]. congruence.
Qed.

Lemma split_at_class (cls : ascii -> bool) (a a' r r' : string) (x x' : ascii) :
  all_chars cls a -> all_chars cls a' -> cls x = false -> cls x' = false ->
  a +:+ String x r = a' +:+ String x' r' ->
  a = a' /\ String x r = String x' r'.
Proof.
  intros Ha Ha' Hx Hx' H.
  destruct (run_of_all cls a (String x r) Ha Hx) as [H1 H2].
  destruct (run_of_all cls a' (String x' r') Ha' Hx') as [H1' H2'].
  rewrite H in H1, H2. split; congruence.
Qed.

Lemma api_type_letters (t : string) :
  In t (map snd bill_type_map) ->
  all_chars not_dash t /\ all_chars not_underscore t.
Proof.
  intros H. simpl in H.
  repeat (destruct H as [<- | H];
          [split; apply all_chars_of_has_char; reflexivity|]).
  destruct H.
Qed.

Lemma digit_classes (c : ascii) :
  isdigit c = true -> not_dash c = true /\ not_underscore c = true.
Proof.
  intros H. unfold not_dash, not_underscore.
  destruct (digit_not_sign c H) as (H1 & _). rewrite H1. split; [reflexivity|].
  unfold isdigit, eq_char, code in *. cbv zeta in H.
  change (N_of_ascii "_") with 95%N.
  apply andb_true_iff in H as [_ H]. apply N.leb_le in H.
  apply negb_true_iff, N.eqb_neq. lia.
Qed.

Lemma bill_id_no_underscore (b : bill_info) :
  parsed_bill b -> all_chars not_underscore (bill_id_of b).
Proof.
  intros ((_ & Hc) & (_ & Hn) & Ht). apply api_type_letters in Ht as [_ Ht].
  assert (Hd : forall s, all_chars isdigit s -> all_chars not_underscore s).
  { intros s. apply all_chars_impl. intros c H. now apply digit_classes. }
  unfold bill_id_of.
  repeat apply all_chars_app; auto;
    apply all_chars_of_has_char; reflexivity.
Qed.

(** X16: the bill id is a key of the bills that [parse_congress_url]
    returns, and so are the chunk ids built on it: two parsed bills with
    the same id are the same bill, and a chunk id of one bill is never a
    chunk id of another bill or of another position. *)
Theorem bill_id_is_key (url1 url2 : string) (b1 b2 : bill_info) (i j : nat) :
  parse_congress_url url1 = Ok b1 ->
  parse_congress_url url2 = Ok b2 ->
  (bill_id_of b1 = bill_id_of b2 -> b1 = b2)
  /\ (chunk_id (bill_id_of b1) i = chunk_id (bill_id_of b2) j ->
      b1 = b2 /\ i = j).
Proof.
  intros H1 H2.
  apply parse_congress_url_ok in H1 as [P1 _].
  apply parse_congress_url_ok in H2 as [P2 _].
  assert (Hkey : bill_id_of b1 = bill_id_of b2 -> b1 = b2).
  { destruct P1 as ((_ & Hc1) & (_ & Hn1) & Ht1).
    destruct P2 as ((_ & Hc2) & (_ & Hn2) & Ht2).
    apply api_type_letters in Ht1 as [Ht1 _].
    apply api_type_letters in Ht2 as [Ht2 _].
    destruct b1 as [c1 t1 n1], b2 as [c2 t2 n2]. unfold bill_id_of.
    cbn [bi_congress bi_bill_type bi_number] in *.
    change ("-" +:+ ?r) with (String "-" r).
    intros H.
    apply (split_at_class isdigit) in H as [-> [= H]]; try assumption;
      try reflexivity.
    apply (split_at_class not_dash) in H as [-> [= ->]]; try assumption;
      reflexivity. }
  split; [exact Hkey|].
  unfold chunk_id. change ("_chunk_" +:+ ?r) with (String "_" ("chunk_" +:+ r)).
  intros H.
  apply (split_at_class not_underscore) in H as [Hb [= H]];
    try (now apply bill_id_no_underscore); try reflexivity.
  split; [now apply Hkey|].
  now apply str_of_nat_inj in H.
Qed.

Lemma bill_id_is_key_witness :
  parse_congress_url "https://www.congress.gov/bill/118th-congress/house-bill/589"
  = Ok {| bi_congress := "118"; bi_bill_type := "hr"; bi_number := "589" |}
  /\ parse_congress_url "congress.gov/bill/119th-congress/senate-bill/1"
     = Ok {| bi_congress := "119"; bi_bill_type := "s"; bi_number := "1" |}
  /\ bill_id_of {| bi_congress := "118"; bi_bill_type := "hr"; bi_number := "589" |}
     = "118-hr-589"
  /\ (chunk_id "118-hr-589" 3 = chunk_id "119-s-1" 3 ->
      {| bi_congress := "118"; bi_bill_type := "hr"; bi_number := "589" |}
      = {| bi_congress := "119"; bi_bill_type := "s"; bi_number := "1" |}
      /\ 3 = 3).
Proof.
  assert (H1 : parse_congress_url
                 "https://www.congress.gov/bill/118th-congress/house-bill/589"
               = Ok {| bi_congress := "118"; bi_bill_type := "hr";
                       bi_number := "589" |}) by (vm_compute; reflexivity).
  assert (H2 : parse_congress_url "congress.gov/bill/119th-congress/senate-bill/1"
               = Ok {| bi_congress := "119"; bi_bill_type := "s";
                       bi_number := "1" |}) by (vm_compute; reflexivity).
  split; [exact H1|]. split; [exact H2|]. split; [reflexivity|].
  exact (proj2 (bill_id_is_key _ _ _ _ 3 3 H1 H2)).
Defined.

(** ** Edge cases *)

(** X17: a chunk size of zero makes the chunker raise [ValueError];
    with a negative chunk size it returns no chunk at all, whatever the
    text. *)
Theorem chunk_text_bad_size (text : string) (chunk_size : Z) :
  (chunk_size <= 0)%Z ->
  chunk_text text chunk_size
  = if (chunk_size =? 0)%Z then Raise ValueError else Ok [].
Proof.
  intros H. unfold chunk_text, py_range.
  destruct (Z.eqb_spec chunk_size 0) as [-> | Hne]; [reflexivity|].
  destruct (Z.ltb_spec 0 chunk_size); [lia|]. cbn [bind].
  set (n := len (split text)).
  assert (Hn : (0 <= n)%Z) by (unfold n, len; lia).
  assert (Hq : ((0 - n - chunk_size - 1) / - chunk_size <= 0)%Z).
  { destruct (Z.eq_dec n 0%Z) as [Hn0 | Hn0].
    - rewrite Hn0. rewrite Z.div_small; lia.
    - apply Z.lt_succ_r. apply Z.div_lt_upper_bound; lia. }
  replace (Z.to_nat _) with 0 by lia. reflexivity.
Qed.

Lemma chunk_text_bad_size_witness :
  (-5 <= 0)%Z /\ chunk_text "An Act to amend the law." (-5) = Ok [].
Proof.
  split; [lia|].
  exact (chunk_text_bad_size "An Act to amend the law." (-5) ltac:(lia)).
Defined.

Section Requests.

Variable py_str : pyvalue -> string.
Variable distance : string -> string -> pyfloat.
Variable reply : list string -> string -> result (option string).
Variable store_other : pyvalue -> result pyvalue.
Variable embed : list string -> result unit.
Variable exn_str : exn -> string.

Lemma analyze_sections_requests (sections : list section) (log : list string) :
  match fst (analyze_sections reply log sections) with
  | Ok analysis =>
      snd (analyze_sections reply log sections)
      = log ++ map prompt_of sections
  | Raise e =>
      exists done s rest,
        sections = done ++ s :: rest
        /\ snd (analyze_sections reply log sections)
           = log ++ map prompt_of done ++ [prompt_of s]
        /\ reply (log ++ map prompt_of done) (prompt_of s) = Raise e
  end.
Proof.
  revert log. induction sections as [|s rest IH]; intros log.
  - simpl. now rewrite app_nil_r.
  - cbn [analyze_sections]. fold (prompt_of s).
    destruct (reply log (prompt_of s)) as [response|e] eqn:Hr.
    + specialize (IH (log ++ [prompt_of s])).
      destruct (analyze_sections reply (log ++ [prompt_of s]) rest) as [r log'].
      cbn [fst snd] in *. destruct r as [analysis|e]; cbn [bind].
      * rewrite IH, <- app_assoc. reflexivity.
      * destruct IH as (done & s' & rest' & -> & Hlog & Hrep).
        exists (s :: done), s', rest'. split; [reflexivity|].
        cbn [map]. rewrite <- app_assoc in Hlog, Hrep. split; assumption.
    + cbn [fst snd]. exists [], s, rest. simpl. rewrite app_nil_r. auto.
Qed.

(** X18: the requests of the breakdown are the prompts of the first
    ten sections, in the order of the sections, each with the header and
    the truncated content of its section; the first request that the
    provider fails stops the breakdown with that failure, and no later
    section is requested. *)
Theorem section_breakdown_requests (log : list string) (sections : list section) :
  let out := generate_section_breakdown reply log sections in
  match fst out with
  | Ok analysis => snd out = log ++ map prompt_of (take 10 sections)
  | Raise e =>
      exists done s rest,
        take 10 sections = done ++ s :: rest
        /\ snd out = log ++ map prompt_of done ++ [prompt_of s]
        /\ reply (log ++ map prompt_of done) (prompt_of s) = Raise e
  end.
Proof.
  intros out. unfold out, generate_section_breakdown.
  set (todo := if (10 <? length sections)%nat then take 10 sections else sections).
  assert (Htodo : todo = take 10 sections).
  { unfold todo. destruct (Nat.ltb_spec 10 (length sections)); [reflexivity|].
    now rewrite take_ge. }
  pose proof (analyze_sections_requests todo log) as H.
  destruct (analyze_sections reply log todo) as [r log'].
  cbn [fst snd] in *. rewrite <- Htodo.
  destruct r as [analysis|e]; exact H.
Qed.

(** X19: the metadata of every entry that [store_bill_chunks] stores
    has the keys of the given metadata and [bill_id], which holds the
    bill id; under a key of the given metadata a string, a float, a
    boolean or an integer of the signed 64-bit range is stored as it was
    given, and a non-empty list as the [str] of its items joined by a
    comma and a space.  A [None] value is let through by the sanitizer
    and refused by the store: the call raises and stores nothing. *)
Theorem stored_metadata_values (policy : add_policy) (c : list entry)
    (bill_id : string) (chunks : list string)
    (metadata : gmap string pyvalue) :
  (forall c',
     store_bill_chunks py_str policy store_other embed c bill_id chunks
       metadata = Ok c' ->
     exists added,
       c' = c ++ added
       /\ Forall (fun e =>
            (forall key, is_Some (e_meta e !! key)
                         <-> key = "bill_id" \/ is_Some (metadata !! key))
            /\ e_meta e !! "bill_id" = Some (PStr bill_id)
            /\ (forall key v, key <> "bill_id" -> metadata !! key = Some v ->
                  kept_as_given v = true -> e_meta e !! key = Some v)
            /\ (forall key item items, key <> "bill_id" ->
                  metadata !! key = Some (PList (item :: items)) ->
                  e_meta e !! key
                  = Some (PStr (join ", " (map py_str (item :: items))))))
            added
       /\ (forall key, key <> "bill_id" -> metadata !! key <> Some PNone))
  /\ (forall key, key <> "bill_id" -> metadata !! key = Some PNone ->
      exists e,
        store_bill_chunks py_str policy store_other embed c bill_id chunks
          metadata = Raise e).
Proof.
  assert (Hnone : forall key, key <> "bill_id" -> metadata !! key = Some PNone ->
            exists e,
              store_bill_chunks py_str policy store_other embed c bill_id chunks
                metadata = Raise e).
  { intros key Hk Hm.
    apply (store_refused py_str store_other embed policy c bill_id chunks
             metadata key PNone TypeError); [|reflexivity].
    now rewrite lookup_sanitize, Hm by exact Hk. }
  split; [|exact Hnone].
  intros c' Hs.
  assert (Hno : forall key, key <> "bill_id" -> metadata !! key <> Some PNone).
  { intros key Hk Hm. destruct (Hnone key Hk Hm) as [e He]. congruence. }
  apply store_ok in Hs as (_ & _ & kept & Hkept & ->).
  eexists. split; [reflexivity|]. split; [|exact Hno].
  eapply Forall_impl; [apply added_entries_meta|].
  intros e ->. apply store_metadata_kept in Hkept as [Hsome Hnot].
  split; [|split; [|split]].
  - intros key. destruct (decide (key = "bill_id")) as [-> | Hk].
    + destruct (Hsome _ _ (lookup_sanitize_bill_id py_str bill_id metadata))
        as (v' & _ & ->). split; eauto.
    + destruct (metadata !! key) as [v|] eqn:Hm.
      * assert (Hl : sanitize_metadata py_str bill_id metadata !! key
                     = Some (sanitize_value py_str v))
          by now rewrite lookup_sanitize, Hm by exact Hk.
        destruct (Hsome _ _ Hl) as (v' & _ & ->). split; eauto.
      * rewrite Hnot by now rewrite lookup_sanitize, Hm by exact Hk.
        split; [intros [? [=]] | intros [? | [? [=]]]; congruence].
  - destruct (Hsome _ _ (lookup_sanitize_bill_id py_str bill_id metadata))
      as (v' & Hv & ->). now injection Hv as <-.
  - intros key v Hk Hm Hg.
    assert (Hl : sanitize_metadata py_str bill_id metadata !! key = Some v).
    { rewrite lookup_sanitize, Hm by exact Hk.
      destruct v; try discriminate; reflexivity. }
    destruct (Hsome _ _ Hl) as (v' & Hv & ->). f_equal.
    destruct v; try discriminate; simpl in Hv, Hg;
      try rewrite Hg in Hv; now injection Hv as <-.
  - intros key item items Hk Hm.
    assert (Hl : sanitize_metadata py_str bill_id metadata !! key
                 = Some (PStr (join ", " (map py_str (item :: items)))))
      by now rewrite lookup_sanitize, Hm by exact Hk.
    destruct (Hsome _ _ Hl) as (v' & Hv & ->). now injection Hv as <-.
Qed.

(** X20: [handle_question] appends exactly one pair to the chat
    history, the question with a response, leaving the earlier pairs as
    they were, and returns an empty input text.  Before any bill is
    analysed the response is the fixed invitation and no request is sent.
    Afterwards, when the query of the index fails, the failure is caught:
    no request is sent and the response is the apology with the text of
    the failure; otherwise one request is sent and the response is the
    answer of the provider, or the apology with the text of its
    failure. *)
Theorem handle_question_appends (current_bill_id : option string)
    (c : list entry) (bill_metadatas : gmap string (gmap string pyvalue))
    (log : list string) (question : string)
    (chat_history : list (string * option string)) :
  let out := handle_question py_str distance reply embed exn_str
               current_bill_id c bill_metadatas log question chat_history in
  let apology e :=
    Some ("Sorry, I encountered an error: " +:+ exn_str e +:+ nl +:+ nl
          +:+ "Please check app.log for more details.") in
  exists response,
    fst out = ("", chat_history ++ [(question, response)])
    /\ (no_current_bill current_bill_id = true ->
        snd out = log
        /\ response
           = Some "Please analyze a bill first before asking questions.")
    /\ (forall bill_id,
          current_bill_id = Some bill_id ->
          no_current_bill current_bill_id = false ->
          match get_relevant_context distance embed c question bill_id 5 with
          | Raise e => snd out = log /\ response = apology e
          | Ok context =>
              exists prompt,
                snd out = log ++ [prompt]
                /\ match reply log prompt with
                   | Ok answer => response = answer
                   | Raise e => response = apology e
                   end
          end).
Proof.
  intros out apology. unfold out, handle_question, no_current_bill.
  destruct current_bill_id as [bill_id|].
  - destruct (is_empty bill_id) eqn:E.
    + eexists. split; [reflexivity|]. split; [auto | discriminate].
    + rewrite query_bill_outcome.
      destruct (get_relevant_context distance embed c question bill_id 5)
        as [context|e] eqn:Hq.
      * cbv zeta. set (prompt := answer_prompt _ _ _ _ _ _).
        destruct (reply log prompt) as [answer|e] eqn:Hr.
        -- exists answer. split; [reflexivity|]. split; [discriminate|].
           intros b [= <-] _. rewrite Hq. exists prompt. now rewrite Hr.
        -- eexists. split; [reflexivity|]. split; [discriminate|].
           intros b [= <-] _. rewrite Hq. exists prompt. now rewrite Hr.
      * eexists. split; [reflexivity|]. split; [discriminate|].
        intros b [= <-] _. rewrite Hq. auto.
  - eexists. split; [reflexivity|]. split; [auto | discriminate].
Qed.

End Requests.
